(** * Negotiation orchestration: a shallow embedding of
    [negotiation/orchestration.py], [negotiation/scrapers.py] and the
    rows of [negotiation/models.py] they read and write.

    Conventions of the embedding.
    - A Python [Decimal] (and a JSON number) is the rational it denotes;
      sums, products by [0.9] and [1.1] and comparisons are exact, the
      28-digit rounding of a [Decimal] quotient and the binary rounding
      of [float(...)] are not represented.
    - A value that came out of [json.loads] is a [JSON] term; a Python
      dictionary with text keys is a [gmap string JSON].
    - The database is a record of tables.  Django runs in autocommit
      mode here (the sources open no transaction), so every ORM write
      is visible in the store returned by a call, also when the call
      ends with an exception.
    - The outside world of one call (clock, web sources, language-model
      capabilities, database faults) is an [Env]. *)

From Stdlib Require Import ZArith QArith Qround Qabs Bool Ascii String Lia Lqa.
From stdpp Require Import base option list sorting strings gmap fin_maps.

#[local] Set Warnings "-register-all".
Local Open Scope string_scope.
Local Open Scope list_scope.

(** ** Values *)

Definition Decimal : Type := Q.

Inductive JSON : Type :=
| JNull
| JBool (b : bool)
| JNum (q : Decimal)
| JStr (s : string)
| JArr (l : list JSON)
| JObj (o : list (string * JSON)).

Abbreviation dict := (gmap string JSON).

(** Python truth value of a decoded JSON value. *)
Definition truthy (v : JSON) : bool :=
  match v with
  | JNull => false
  | JBool b => b
  | JNum q => negb (Qeq_bool q 0)
  | JStr s => negb (String.eqb s EmptyString)
  | JArr l => match l with [] => false | _ => true end
  | JObj o => match o with [] => false | _ => true end
  end.

(** [d.get(key, default)] *)
Definition dict_get (d : dict) (key : string) (default : JSON) : JSON :=
  match d !! key with
  | Some v => v
  | None => default
  end.

(** [x or default] on an optional [Decimal]: [None] and zero are false. *)
Definition decimal_or (x : option Decimal) (default : Decimal) : Decimal :=
  match x with
  | Some q => if Qeq_bool q 0 then default else q
  | None => default
  end.

Definition JInt (z : Z) : JSON := JNum (inject_Z z).

(** ** Exceptions *)

Inductive Exn : Type :=
| DoesNotExist (model : string)
| ValueError (msg : string)
| KeyError (key : string)
| TypeError
| AttributeError
| InvalidOperation
| IntegrityError
| DatabaseError
| CapabilityError (msg : string).

(** ** Rows of [models.py] *)

Record Vehicle : Type := {
  vin : string;
  make : string;
  model : string;
  year : Z;
  mileage : Z;
  fuel_type : string;
  transmission : string;
  power_hp : Z;
  current_market_value : Decimal;
  estimated_trade_in_value : option Decimal;
  condition : string;
  in_stock : bool;
}.

Record Client : Type := {
  first_name : string;
  last_name : string;
  preferred_fuel : string;
  preferred_transmission : string;
  budget_min : option Decimal;
  budget_max : option Decimal;
  subscription_preference : string;
  loyalty_score : Decimal;
  risk_score : Decimal;
}.

Record MarketData : Type := {
  average_price : Decimal;
  price_min : Decimal;
  price_max : Decimal;
  mileage_average : Z;
  listings_count : JSON;
  last_updated : Z;
}.

(** [Negotiation.STATUS_CHOICES] *)
Inductive Status : Type :=
| initiated | in_progress | pending_approval | concluded | failed | cancelled.

Definition status_value (s : Status) : string :=
  match s with
  | initiated => "initiated"
  | in_progress => "in_progress"
  | pending_approval => "pending_approval"
  | concluded => "concluded"
  | failed => "failed"
  | cancelled => "cancelled"
  end.

Record Negotiation : Type := {
  client : nat;
  trade_in_vehicle : option nat;
  target_vehicle : option nat;
  status : Status;
  negotiation_rounds : Z;
  max_rounds : Z;
  trade_in_offered_value : option Decimal;
  final_price : option Decimal;
  margin_achieved : option Decimal;
  agent_reasoning : JSON;
  market_analysis : JSON;
  ended_at : option Z;
}.

(** An [Offer] row as [_create_initial_offer] fills it: the fields the
    source converts with [Decimal(str(...))] are decimals, the fields it
    passes through untouched keep the generator's value. *)
Record Offer : Type := {
  o_negotiation : nat;
  offer_type : JSON;
  o_vehicle : option nat;
  trade_in_value : Decimal;
  purchase_price : option Decimal;
  monthly_payment : option Decimal;
  duration_months : JSON;
  total_cost : Decimal;
  warranty_months : JSON;
  maintenance_included : JSON;
  insurance_included : JSON;
  justification : JSON;
  confidence_score : Decimal;
}.

Record NegotiationRound : Type := {
  r_negotiation : nat;
  round_number : Z;
  agent_proposal : JSON;
  r_agent_reasoning : JSON;
  client_feedback : string;
  round_status : string;
}.

(** ** The database *)

Abbreviation market_key := (string * string * Z * string)%type.

(** Tables are lists in creation order; the primary key of a row is its
    position counted from 1.  [MarketData] is [unique_together] on
    (make, model, year, fuel_type): a finite map on that key. *)
Record Store : Type := {
  clients : list Client;
  vehicles : list Vehicle;
  negotiations : list Negotiation;
  offers : list Offer;
  rounds : list NegotiationRound;
  market_data : gmap market_key MarketData;
}.

Definition get_row {A : Type} (table : list A) (pk : nat) : option A :=
  match pk with
  | O => None
  | S i => table !! i
  end.

Definition set_row {A : Type} (table : list A) (pk : nat) (row : A) : list A :=
  match pk with
  | O => table
  | S i => <[i := row]> table
  end.

Definition with_negotiations (st : Store) (t : list Negotiation) : Store :=
  {| clients := clients st; vehicles := vehicles st; negotiations := t;
     offers := offers st; rounds := rounds st; market_data := market_data st |}.

Definition with_offers (st : Store) (t : list Offer) : Store :=
  {| clients := clients st; vehicles := vehicles st;
     negotiations := negotiations st; offers := t; rounds := rounds st;
     market_data := market_data st |}.

Definition with_rounds (st : Store) (t : list NegotiationRound) : Store :=
  {| clients := clients st; vehicles := vehicles st;
     negotiations := negotiations st; offers := offers st; rounds := t;
     market_data := market_data st |}.

Definition with_market_data (st : Store) (t : gmap market_key MarketData) : Store :=
  {| clients := clients st; vehicles := vehicles st;
     negotiations := negotiations st; offers := offers st;
     rounds := rounds st; market_data := t |}.

(** ** The outside world of one call *)

(** What a scraper returns when it succeeds.  Every scraper of
    [scrapers.py] fills ['source'] and ['average_price']; the other
    keys depend on the source (Argus reports no bounds). *)
Record SourceData : Type := {
  source : string;
  sd_average_price : option Decimal;
  sd_min_price : option Decimal;
  sd_max_price : option Decimal;
  sd_listings_count : option Z;
}.

(** The ORM writes of the orchestrator, one per call site. *)
Inductive DbOp : Type :=
| OpCreateNegotiation
| OpSaveTargetVehicle
| OpSaveNegotiation
| OpCreateOffer
| OpCreateRound
| OpUpdateOrCreateMarketData.

(** [now] is [datetime.now()] in seconds.  The four scrapers answer
    [None] when they fail.  The agents are the language-model
    capabilities of [agents.py], taken by what they return:
    [analyze_market] and [negotiator_initiate] a decoded dictionary (or
    the raw text wrapped in one), [structure_offer] the list under
    ['offers'], [process_round] the decision of the advisor.
    [process_round] as written swallows the errors of the API call; its
    outcome still allows an exception, so that the statements also
    cover a capability that raises.  [db_fails] tells which ORM writes
    the database refuses during the call. *)
Record Env : Type := {
  now : Z;
  scrape_leboncoin : string -> string -> Z -> string -> option SourceData;
  scrape_webmoteurs : string -> string -> Z -> option SourceData;
  scrape_caradisiac : string -> string -> Z -> option SourceData;
  scrape_argus : string -> string -> Z -> option SourceData;
  analyze_market : dict -> dict -> JSON;
  negotiator_initiate : dict -> dict -> JSON -> dict -> JSON;
  structure_offer :
    dict -> Decimal -> list string -> Decimal * Decimal -> dict -> list JSON;
  process_round : dict -> string -> Z -> Z -> Exn + dict;
  db_fails : DbOp -> bool;
}.

(** ** Calls that read and write the store and may raise *)

Definition M (A : Type) : Type := Store -> Store * (Exn + A).

Definition ret {A : Type} (a : A) : M A := fun st => (st, inr a).

Definition raise {A : Type} (e : Exn) : M A := fun st => (st, inl e).

Definition bind {A B : Type} (c : M A) (k : A -> M B) : M B :=
  fun st =>
    match c st with
    | (st', inr a) => k a st'
    | (st', inl e) => (st', inl e)
    end.

Notation "'do' x <- c ; k" := (bind c (fun x => k))
  (at level 10, x name, c at level 100, k at level 200).
Notation "'do_' c ; k" := (bind c (fun _ => k))
  (at level 10, c at level 100, k at level 200).

Definition read : M Store := fun st => (st, inr st).

Definition write (f : Store -> Store) : M unit := fun st => (f st, inr tt).

Definition lift {A : Type} (r : Exn + A) : M A := fun st => (st, r).

(** Sequencing of computations that touch no store. *)
Definition ebind {A B : Type} (x : Exn + A) (k : A -> Exn + B) : Exn + B :=
  match x with
  | inr a => k a
  | inl e => inl e
  end.

Notation "'val' x <- c ; k" := (ebind c (fun x => k))
  (at level 10, x name, c at level 100, k at level 200).

(** An ORM write at site [op]: the database may refuse it. *)
Definition orm_write (env : Env) (op : DbOp) (f : Store -> Store) : M unit :=
  if db_fails env op then raise DatabaseError else write f.

(** [Model.objects.get(id=pk)] *)
Definition objects_get {A : Type} (name : string) (table : Store -> list A)
    (pk : nat) : M A :=
  do st <- read ;
  match get_row (table st) pk with
  | Some row => ret row
  | None => raise (DoesNotExist name)
  end.

(** ** Dictionaries and conversions *)

(** A dictionary display [{k1: v1, ..., kn: vn}]: later keys overwrite. *)
Definition mkdict (items : list (string * JSON)) : dict :=
  foldl (fun d kv => <[kv.1 := kv.2]> d) ∅ items.

(** [d[key]] *)
Definition subscript (d : dict) (key : string) : Exn + JSON :=
  match d !! key with
  | Some v => inr v
  | None => inl (KeyError key)
  end.

(** The exact sum of a list, for the statements. *)
Definition Qsum (l : list Decimal) : Decimal := foldl Qplus 0%Q l.

(** ** Arithmetic of [decimal.Decimal] *)

(** ROUND_HALF_EVEN of [q] to an integer. *)
Definition round_half_even (q : Q) : Z :=
  let n := Qfloor q in
  match (q - inject_Z n ?= 1 # 2)%Q with
  | Lt => n
  | Gt => (n + 1)%Z
  | Eq => if Z.even n then n else (n + 1)%Z
  end.

(** The number of decimal digits of [n >= 1]. *)
Fixpoint digits_from (fuel : nat) (n : Z) : Z :=
  match fuel with
  | O => 1
  | S fuel' => if (n <? 10)%Z then 1 else (1 + digits_from fuel' (n / 10))%Z
  end.

Definition digits (n : Z) : Z := digits_from (Z.to_nat (Z.log2 n)) n.

(** [Decimal.adjusted()]: the exponent of the leading digit of
    [q <> 0]. *)
Definition adjusted (q : Q) : Z :=
  let k := (digits (Z.abs (Qnum q)) - digits (Zpos (Qden q)))%Z in
  if Qle_bool (10 ^ k) (Qabs q) then k else (k - 1)%Z.

(** The precision of the default context, [getcontext().prec]. *)
Definition prec : Z := 28.

(** What an operation of the default context returns for the exact
    result [q]: [q] rounded to [prec] significant digits,
    ROUND_HALF_EVEN.  The exponent range of the context (Emax 999999)
    is not represented. *)
Definition context_round (q : Q) : Decimal :=
  if Qeq_bool q 0 then 0%Q
  else
    let e := (adjusted q - (prec - 1))%Z in
    Qred (inject_Z (round_half_even (q / 10 ^ e)) * 10 ^ e).

(** [x + y] and [x / y] on decimals. *)
Definition Decimal_add (x y : Decimal) : Decimal := context_round (x + y).

Definition Decimal_truediv (x y : Decimal) : Decimal := context_round (x / y).

(** [sum(l)]: [0 + l[0] + l[1] + ...], each addition rounded. *)
Definition py_sum (l : list Decimal) : Decimal := foldl Decimal_add 0%Q l.

(** No addition of [sum], started from [acc], is rounded: every
    partial sum has at most 28 significant digits. *)
Fixpoint sums_exact (acc : Decimal) (l : list Decimal) : Prop :=
  match l with
  | [] => True
  | x :: l' =>
      (Decimal_add acc x == acc + x)%Q /\ sums_exact (Decimal_add acc x) l'
  end.

(** ** Decimal columns *)

(** [django.db.backends.utils.format_number] for a column of
    [max_digits] digits, two of them decimal places, as
    [DecimalField.get_db_prep_save] calls it when a row is written:
    [value.quantize(Decimal('0.01'))] ([quantize2], ROUND_HALF_EVEN)
    in a context of precision [max_digits], which raises
    InvalidOperation when the result has more digits. *)
Definition quantize2 (value : Decimal) : Decimal :=
  Qred (round_half_even (value * 100) # 100).

Definition format_number (value : Decimal) (max_digits : Z) : Exn + Decimal :=
  if (Z.abs (round_half_even (value * 100)) <? 10 ^ max_digits)%Z
  then inr (quantize2 value)
  else inl InvalidOperation.

Definition adapt_decimalfield_value (max_digits : Z) (value : option Decimal)
    : Exn + option Decimal :=
  match value with
  | Some q =>
      match format_number q max_digits with
      | inr stored => inr (Some stored)
      | inl e => inl e
      end
  | None => inr None
  end.

(** Python's [min] and [max]: the first extremal element is kept. *)
Definition py_min (x : Decimal) (l : list Decimal) : Decimal :=
  foldl (fun m y => if Qle_bool m y then m else y) x l.

Definition py_max (x : Decimal) (l : list Decimal) : Decimal :=
  foldl (fun m y => if Qle_bool y m then m else y) x l.

(** [timedelta.days] of a difference given in seconds. *)
Definition timedelta_days (seconds : Z) : Z := (seconds / 86400)%Z.

(** ** Concrete data for running the model *)

(** A reader for plain numerals [[+-]digits[.digits]], enough to run the
    model on the numerals of the examples. *)
Definition digit_of (a : Ascii.ascii) : option Z :=
  let n := Ascii.nat_of_ascii a in
  if (48 <=? n)%nat && (n <=? 57)%nat then Some (Z.of_nat (n - 48)) else None.

Fixpoint numeral_digits (s : string) (mant scale : Z) (dot seen : bool)
    : option Decimal :=
  match s with
  | EmptyString => if seen then Some (mant # Z.to_pos scale)%Q else None
  | String a s' =>
      if Ascii.eqb a "."%char
      then if dot then None else numeral_digits s' mant scale true seen
      else match digit_of a with
           | Some d =>
               numeral_digits s' (10 * mant + d)%Z
                 (if dot then (10 * scale)%Z else scale) dot true
           | None => None
           end
  end.

Definition plain_numeral (s : string) : option Decimal :=
  match s with
  | String a s' =>
      if Ascii.eqb a "-"%char
      then Qopp <$> numeral_digits s' 0 1 false false
      else if Ascii.eqb a "+"%char
      then numeral_digits s' 0 1 false false
      else numeral_digits s 0 1 false false
  | EmptyString => None
  end.

Module Sample.

(** The rows of [tests.py]. *)
Definition clio : Vehicle :=
  {| vin := "VF7JU5N0005000001"; make := "Renault"; model := "Clio";
     year := 2019; mileage := 80000; fuel_type := "essence";
     transmission := "manuelle"; power_hp := 110;
     current_market_value := 12000%Q; estimated_trade_in_value := None;
     condition := "bon"; in_stock := false |}.

Definition peugeot : Vehicle :=
  {| vin := "VF7JU5N0005000002"; make := "Peugeot"; model := "3008";
     year := 2022; mileage := 15000; fuel_type := "diesel";
     transmission := "automatique"; power_hp := 160;
     current_market_value := 32000%Q; estimated_trade_in_value := None;
     condition := "excellent"; in_stock := true |}.

Definition jean : Client :=
  {| first_name := "Jean"; last_name := "Dupont"; preferred_fuel := EmptyString;
     preferred_transmission := EmptyString; budget_min := Some 25000%Q;
     budget_max := Some 40000%Q; subscription_preference := "achat";
     loyalty_score := (7 # 10)%Q; risk_score := 0%Q |}.

Definition store0 : Store :=
  {| clients := [jean]; vehicles := [clio; peugeot]; negotiations := [];
     offers := []; rounds := []; market_data := ∅ |}.

Definition mock_text : string := "Mock response - API not configured".

(** No API key and no network: every scraper fails, every agent wraps
    the mock text, the offer generator parses no offer. *)
Definition offline : Env :=
  {| now := 1000000;
     scrape_leboncoin := fun _ _ _ _ => None;
     scrape_webmoteurs := fun _ _ _ => None;
     scrape_caradisiac := fun _ _ _ => None;
     scrape_argus := fun _ _ _ => None;
     analyze_market := fun _ _ => JObj [("raw_analysis", JStr mock_text)];
     negotiator_initiate := fun _ _ _ _ => JObj [("raw_strategy", JStr mock_text)];
     structure_offer := fun _ _ _ _ _ => [];
     process_round := fun _ _ _ _ => inr (mkdict [("raw_result", JStr mock_text)]);
     db_fails := fun _ => false |}.

(** The capabilities answer: the generator proposes [proposals], the
    advisor decides [decision]. *)
Definition answering (proposals : list JSON) (decision : dict) : Env :=
  {| now := 1000000;
     scrape_leboncoin := fun _ _ _ _ => None;
     scrape_webmoteurs := fun _ _ _ => None;
     scrape_caradisiac := fun _ _ _ => None;
     scrape_argus := fun _ _ _ => None;
     analyze_market := fun _ _ => JObj [("raw_analysis", JStr mock_text)];
     negotiator_initiate := fun _ _ _ _ => JObj [("raw_strategy", JStr mock_text)];
     structure_offer := fun _ _ _ _ _ => proposals;
     process_round := fun _ _ _ _ => inr decision;
     db_fails := fun _ => false |}.

(** Two listing sites answer, the two others fail. *)
Definition two_sources : Env :=
  {| now := 1000000;
     scrape_leboncoin := fun _ _ _ _ =>
       Some {| source := "leboncoin"; sd_average_price := Some 100%Q;
               sd_min_price := Some 80%Q; sd_max_price := Some 120%Q;
               sd_listings_count := Some 10%Z |};
     scrape_webmoteurs := fun _ _ _ =>
       Some {| source := "webmoteurs"; sd_average_price := Some 200%Q;
               sd_min_price := Some 180%Q; sd_max_price := Some 260%Q;
               sd_listings_count := Some 15%Z |};
     scrape_caradisiac := fun _ _ _ => None;
     scrape_argus := fun _ _ _ => None;
     analyze_market := fun _ _ => JObj [("raw_analysis", JStr mock_text)];
     negotiator_initiate := fun _ _ _ _ => JObj [("raw_strategy", JStr mock_text)];
     structure_offer := fun _ _ _ _ _ => [];
     process_round := fun _ _ _ _ => inr (mkdict [("raw_result", JStr mock_text)]);
     db_fails := fun _ => false |}.

(** Two listing sites report the same average of 28 digits,
    66.66666666666666666666666667. *)
Definition repeating_price : Decimal :=
  (6666666666666666666666666667 # 100000000000000000000000000)%Q.

Definition repeating_sources : Env :=
  {| now := 1000000;
     scrape_leboncoin := fun _ _ _ _ =>
       Some {| source := "leboncoin"; sd_average_price := Some repeating_price;
               sd_min_price := None; sd_max_price := None;
               sd_listings_count := Some 10%Z |};
     scrape_webmoteurs := fun _ _ _ =>
       Some {| source := "webmoteurs"; sd_average_price := Some repeating_price;
               sd_min_price := None; sd_max_price := None;
               sd_listings_count := Some 15%Z |};
     scrape_caradisiac := fun _ _ _ => None;
     scrape_argus := fun _ _ _ => None;
     analyze_market := fun _ _ => JObj [("raw_analysis", JStr mock_text)];
     negotiator_initiate := fun _ _ _ _ => JObj [("raw_strategy", JStr mock_text)];
     structure_offer := fun _ _ _ _ _ => [];
     process_round := fun _ _ _ _ => inr (mkdict [("raw_result", JStr mock_text)]);
     db_fails := fun _ => false |}.

(** The same, with a database that refuses to save a negotiation. *)
Definition save_refused (proposals : list JSON) (decision : dict) : Env :=
  {| now := 1000000;
     scrape_leboncoin := fun _ _ _ _ => None;
     scrape_webmoteurs := fun _ _ _ => None;
     scrape_caradisiac := fun _ _ _ => None;
     scrape_argus := fun _ _ _ => None;
     analyze_market := fun _ _ => JObj [("raw_analysis", JStr mock_text)];
     negotiator_initiate := fun _ _ _ _ => JObj [("raw_strategy", JStr mock_text)];
     structure_offer := fun _ _ _ _ _ => proposals;
     process_round := fun _ _ _ _ => inr decision;
     db_fails := fun op => match op with OpSaveNegotiation => true | _ => false end |}.

(** Decisions of the advisor. *)
Definition keep_talking : dict :=
  mkdict [ ("should_conclude", JBool false);
           ("reasoning", JStr "Le client attend un geste sur la reprise");
           ("confidence_score", JNum 60%Q) ].

Definition deal : dict :=
  mkdict [ ("should_conclude", JBool true); ("final_price", JNum 289000%Q);
           ("margin", JNum (125 # 10)%Q) ].

Definition deal_without_price : dict :=
  mkdict [ ("should_conclude", JBool true); ("final_price", JNull);
           ("margin", JNum (125 # 10)%Q) ].


(** A price in thousandths, 12.345, and a price of eleven digits with
    its decimals, 123456789. *)
Definition deal_in_thousandths : dict :=
  mkdict [ ("should_conclude", JBool true); ("final_price", JNum (12345 # 1000)%Q);
           ("margin", JNum (125 # 10)%Q) ].

Definition deal_too_large : dict :=
  mkdict [ ("should_conclude", JBool true); ("final_price", JNum 123456789%Q);
           ("margin", JNum (125 # 10)%Q) ].


Definition purchase_offer : JSON :=
  JObj [ ("offer_type", JStr "achat"); ("purchase_price", JNum 31000%Q);
         ("total_cost", JNum 31000%Q); ("confidence_score", JNum 70%Q) ].

Definition lease_offer : JSON :=
  JObj [ ("offer_type", JStr "lld"); ("monthly_payment", JNum 420%Q);
         ("duration_months", JNum 48%Q); ("total_cost", JNum 20160%Q);
         ("confidence_score", JNum 95%Q) ].

(** A session as [initiate_negotiation] leaves it, at round [k]. *)
Definition session (k : Z) (s : Status) : Negotiation :=
  {| client := 1; trade_in_vehicle := Some 1%nat; target_vehicle := Some 2%nat;
     status := s; negotiation_rounds := k; max_rounds := 10;
     trade_in_offered_value := None; final_price := None;
     margin_achieved := None;
     agent_reasoning := JObj [("raw_strategy", JStr mock_text)];
     market_analysis := JObj [("raw_analysis", JStr mock_text)];
     ended_at := None |}.

Definition store_with (n : Negotiation) : Store :=
  {| clients := [jean]; vehicles := [clio; peugeot]; negotiations := [n];
     offers := []; rounds := []; market_data := ∅ |}.

Definition open_session : Store := store_with (session 0 in_progress).


(** Cached market data for the Clio, refreshed at [last]. *)
Definition clio_market (last : Z) : MarketData :=
  {| average_price := 11500%Q; price_min := 10000%Q; price_max := 13000%Q;
     mileage_average := 0; listings_count := JNum 12%Q; last_updated := last |}.

Definition cached_store (last : Z) : Store :=
  {| clients := [jean]; vehicles := [clio; peugeot]; negotiations := [];
     offers := []; rounds := [];
     market_data := {[ ("Renault", "Clio", 2019%Z, "essence") := clio_market last ]} |}.

(** The offer row created from [purchase_offer] for session 1. *)
Definition purchase_row : Offer :=
  {| o_negotiation := 1; offer_type := JStr "achat"; o_vehicle := Some 2%nat;
     trade_in_value := 0%Q; purchase_price := Some 31000%Q;
     monthly_payment := None; duration_months := JNull;
     total_cost := 31000%Q; warranty_months := JNum 12%Q;
     maintenance_included := JBool false; insurance_included := JBool false;
     justification := JStr EmptyString; confidence_score := 70%Q |}.

Definition talk_record (k : Z) (feedback : string) : NegotiationRound :=
  {| r_negotiation := 1; round_number := k; agent_proposal := JObj [];
     r_agent_reasoning := JStr "Le client attend un geste sur la reprise";
     client_feedback := feedback; round_status := "ongoing" |}.

Definition deal_record (k : Z) (feedback : string) : NegotiationRound :=
  {| r_negotiation := 1; round_number := k; agent_proposal := JObj [];
     r_agent_reasoning := JStr EmptyString; client_feedback := feedback;
     round_status := "ongoing" |}.

(** Session 1 concluded at its third round, at 289000.00 with a margin
    of 12.50. *)
Definition concluded_session : Negotiation :=
  {| client := 1; trade_in_vehicle := Some 1%nat; target_vehicle := Some 2%nat;
     status := concluded; negotiation_rounds := 3; max_rounds := 10;
     trade_in_offered_value := None; final_price := Some 289000%Q;
     margin_achieved := Some (25 # 2)%Q;
     agent_reasoning := JObj [("raw_strategy", JStr mock_text)];
     market_analysis := JObj [("raw_analysis", JStr mock_text)];
     ended_at := Some 1000000%Z |}.

Definition concluded_store : Store :=
  {| clients := [jean]; vehicles := [clio; peugeot];
     negotiations := [concluded_session]; offers := [purchase_row];
     rounds := [ talk_record 1 "Offre de reprise trop basse";
                 talk_record 2 "Le prix me semble eleve";
                 deal_record 3 "Entendu" ];
     market_data := ∅ |}.

(** A client with an upper bound only, far below the stock. *)
Definition walk_in : Client :=
  {| first_name := "Amina"; last_name := "Berrada"; preferred_fuel := "diesel";
     preferred_transmission := EmptyString; budget_min := None;
     budget_max := Some 20000%Q; subscription_preference := "flexible";
     loyalty_score := 0%Q; risk_score := 0%Q |}.

(** A decoder that rejects every text. *)
Definition undecoded (text : string) : option JSON := None.

(** The first round of the sample session: one proposal, no deal yet. *)
Definition first_round : Env := answering [purchase_offer] keep_talking.

(** Session 1 before its last round. *)
Definition last_round_store : Store := store_with (session 9 in_progress).

End Sample.

Section Orchestration.

(** Python's [Decimal(text)] on a text: the library's numeral syntax is
    not spelled out here, every statement holds whatever it accepts. *)
Variable Decimal_of_text : string -> option Decimal.

(** [Decimal(str(v))]: a number prints as a numeral; [None], booleans,
    lists and dictionaries print as ['None'], ['True'], ['[...]'],
    ['{...}'], which [Decimal] rejects. *)
Definition Decimal_of_str (v : JSON) : Exn + Decimal :=
  match v with
  | JNum q => inr q
  | JStr s =>
      match Decimal_of_text s with
      | Some q => inr q
      | None => inl InvalidOperation
      end
  | JNull | JBool _ | JArr _ | JObj _ => inl InvalidOperation
  end.

(** ** [scrapers.py] *)

Record ScrapeResults : Type := {
  res_make : string;
  res_model : string;
  res_year : Z;
  res_fuel_type : string;
  res_sources : list (string * SourceData);
  res_aggregate : option dict;
}.

(** [MarketDataScraper.aggregate_market_data] *)
Definition aggregate_market_data (env : Env)
    (make_ model_ : string) (year_ : Z) (fuel : string) : ScrapeResults :=
  let sources :=
    [ ("leboncoin", scrape_leboncoin env make_ model_ year_ fuel);
      ("webmoteurs", scrape_webmoteurs env make_ model_ year_);
      ("caradisiac", scrape_caradisiac env make_ model_ year_);
      ("argus", scrape_argus env make_ model_ year_) ] in
  let named :=
    omap (fun nd => match nd.2 with
                    | Some data => Some (nd.1, data)
                    | None => None
                    end) sources in
  let valid_sources := named.*2 in
  let prices := omap sd_average_price valid_sources in
  {| res_make := make_; res_model := model_; res_year := year_;
     res_fuel_type := fuel;
     res_sources := named;
     res_aggregate :=
       match valid_sources with
       | [] => None
       | _ :: _ =>
           match prices with
           | [] => None
           | p :: ps =>
               Some (mkdict
                 [ ("average_price",
                     JNum (Decimal_truediv (py_sum prices)
                             (inject_Z (Z.of_nat (length prices)))));
                   ("min_price", JNum (py_min p ps));
                   ("max_price", JNum (py_max p ps));
                   ("sources_count", JInt (Z.of_nat (length valid_sources))) ])
           end
       end |}.

(** ** [orchestration.py]: conversions *)

Definition _market_data_to_dict (md : MarketData) : dict :=
  mkdict
    [ ("average_price", JNum (average_price md));
      ("price_min", JNum (price_min md));
      ("price_max", JNum (price_max md));
      ("listings_count", listings_count md);
      ("mileage_average", JInt (mileage_average md)) ].

Definition _vehicle_to_dict (vehicle : option Vehicle) : dict :=
  match vehicle with
  | None => ∅
  | Some v =>
      mkdict
        [ ("vin", JStr (vin v));
          ("make", JStr (make v));
          ("model", JStr (model v));
          ("year", JInt (year v));
          ("mileage", JInt (mileage v));
          ("fuel_type", JStr (fuel_type v));
          ("power_hp", JInt (power_hp v));
          ("current_market_value", JNum (current_market_value v));
          ("estimated_value",
            JNum (decimal_or (estimated_trade_in_value v) 0%Q));
          ("condition", JStr (condition v));
          ("retail_price", JNum (current_market_value v * (12 # 10))%Q) ]
  end.

Definition _client_to_dict (c : Client) : dict :=
  mkdict
    [ ("first_name", JStr (first_name c));
      ("last_name", JStr (last_name c));
      ("loyalty_score", JNum (loyalty_score c));
      ("risk_score", JNum (risk_score c));
      ("budget_min", JNum (decimal_or (budget_min c) 0%Q));
      ("budget_max", JNum (decimal_or (budget_max c) 0%Q));
      ("subscription_preference", JStr (subscription_preference c)) ].

Definition _offer_to_dict (o : Offer) : dict :=
  mkdict
    [ ("offer_type", offer_type o);
      ("trade_in_value", JNum (trade_in_value o));
      ("purchase_price", JNum (decimal_or (purchase_price o) 0%Q));
      ("monthly_payment", JNum (decimal_or (monthly_payment o) 0%Q));
      ("duration_months", duration_months o);
      ("total_cost", JNum (total_cost o));
      ("warranty_months", warranty_months o);
      ("maintenance_included", maintenance_included o);
      ("insurance_included", insurance_included o);
      ("confidence_score", JNum (confidence_score o)) ].

(** ** [_get_or_scrape_market_data] *)

(** The dictionary returned when scraping produced no aggregate. *)
Definition fallback_market_data (vehicle : Vehicle) : dict :=
  mkdict
    [ ("average_price", JNum (current_market_value vehicle));
      ("min_price", JNum (current_market_value vehicle * (9 # 10))%Q);
      ("max_price", JNum (current_market_value vehicle * (11 # 10))%Q);
      ("listings_count", JInt 0) ].

Definition vehicle_key (vehicle : Vehicle) : market_key :=
  (make vehicle, model vehicle, year vehicle, fuel_type vehicle).

(** [Decimal(str(d[key]))] *)
Definition Decimal_of_subscript (d : dict) (key : string) : Exn + Decimal :=
  val v <- subscript d key ;
  Decimal_of_str v.

(** The part of [_get_or_scrape_market_data] after the cache test. *)
Definition scrape_market_data (env : Env) (vehicle : Vehicle) : M dict :=
  let scraped_data :=
    aggregate_market_data env (make vehicle) (model vehicle) (year vehicle)
      (fuel_type vehicle) in
  match res_aggregate scraped_data with
  | Some agg =>
      do average <- lift (Decimal_of_subscript agg "average_price") ;
      do pmin <- lift (Decimal_of_subscript agg "min_price") ;
      do pmax <- lift (Decimal_of_subscript agg "max_price") ;
      do count <- lift (subscript agg "listings_count") ;
      let row :=
        {| average_price := average; price_min := pmin; price_max := pmax;
           mileage_average := 0; listings_count := count;
           last_updated := now env |} in
      do_ orm_write env OpUpdateOrCreateMarketData
            (fun st =>
               with_market_data st
                 (<[vehicle_key vehicle := row]> (market_data st))) ;
      ret (_market_data_to_dict row)
  | None => ret (fallback_market_data vehicle)
  end.

Definition _get_or_scrape_market_data (env : Env) (vehicle : Vehicle) : M dict :=
  do st <- read ;
  match market_data st !! vehicle_key vehicle with
  | Some md =>
      if (timedelta_days (now env - last_updated md) <? 1)%Z
      then ret (_market_data_to_dict md)
      else scrape_market_data env vehicle
  | None => scrape_market_data env vehicle
  end.


(** ** [_find_suitable_vehicle] *)

(** [Vehicle.Meta.ordering] is [-created_at]: [first()] is the newest
    row of the query, the one with the largest primary key. *)
Definition _find_suitable_vehicle (st : Store) (c : Client) : option nat :=
  let query0 := imap (fun i v => (S i, v)) (vehicles st) in
  let query1 := List.filter (fun pv : nat * Vehicle => in_stock pv.2) query0 in
  let query2 :=
    if negb (String.eqb (preferred_fuel c) EmptyString)
    then List.filter
           (fun pv : nat * Vehicle => String.eqb (fuel_type pv.2) (preferred_fuel c))
           query1
    else query1 in
  let query3 :=
    if negb (String.eqb (preferred_transmission c) EmptyString)
    then List.filter
           (fun pv : nat * Vehicle =>
              String.eqb (transmission pv.2) (preferred_transmission c))
           query2
    else query2 in
  let query4 :=
    match budget_min c, budget_max c with
    | Some lo, Some hi =>
        if negb (Qeq_bool lo 0) && negb (Qeq_bool hi 0)
        then List.filter
               (fun pv : nat * Vehicle =>
                  Qle_bool lo (current_market_value pv.2)
                  && Qle_bool (current_market_value pv.2) hi)
               query3
        else query3
    | _, _ => query3
    end in
  fst <$> last query4.

(** ** [_create_initial_offer] *)

(** [best_offer.get(key, default)]: only a dictionary has [get]. *)
Definition offer_field (best_offer : JSON) (key : string) (default : JSON)
    : Exn + JSON :=
  match best_offer with
  | JObj items => inr (dict_get (mkdict items) key default)
  | _ => inl AttributeError
  end.

(** Lines 204-218: the row handed to [Offer.objects.create], its
    fields computed in the order of the keyword arguments. *)
Definition created_offer (pk : nat) (negotiation : Negotiation)
    (vehicle_pk : nat) (best_offer : JSON) : Exn + Offer :=
  val kind <- offer_field best_offer "offer_type" (JStr "achat") ;
  val price <- (val v <- offer_field best_offer "purchase_price" (JInt 0) ;
                Decimal_of_str v) ;
  val monthly <- (val test <- offer_field best_offer "monthly_payment" JNull ;
                  if truthy test
                  then val v <- offer_field best_offer "monthly_payment" (JInt 0) ;
                       val q <- Decimal_of_str v ;
                       inr (Some q)
                  else inr None) ;
  val duration <- offer_field best_offer "duration_months" JNull ;
  val total <- (val v <- offer_field best_offer "total_cost" (JInt 0) ;
                Decimal_of_str v) ;
  val warranty <- offer_field best_offer "warranty_months" (JInt 12) ;
  val maintenance <- offer_field best_offer "maintenance_included" (JBool false) ;
  val insurance <- offer_field best_offer "insurance_included" (JBool false) ;
  val reasoning <- offer_field best_offer "reasoning" (JStr EmptyString) ;
  val confidence <- (val v <- offer_field best_offer "confidence_score" (JInt 0) ;
                     Decimal_of_str v) ;
  inr {| o_negotiation := pk;
         offer_type := kind;
         o_vehicle := Some vehicle_pk;
         trade_in_value := decimal_or (trade_in_offered_value negotiation) 0%Q;
         purchase_price := Some price;
         monthly_payment := monthly;
         duration_months := duration;
         total_cost := total;
         warranty_months := warranty;
         maintenance_included := maintenance;
         insurance_included := insurance;
         justification := reasoning;
         confidence_score := confidence |}.

Definition _create_initial_offer (env : Env) (pk : nat) (negotiation : Negotiation)
    : M Offer :=
  match target_vehicle negotiation with
  | None => raise (ValueError "Target vehicle not set for negotiation")
  | Some vehicle_pk =>
      do vehicle <- objects_get "Vehicle" vehicles vehicle_pk ;
      do market <- _get_or_scrape_market_data env vehicle ;
      do c <- objects_get "Client" clients (client negotiation) ;
      let offer_types :=
        if negb (String.eqb (subscription_preference c) "flexible")
        then [subscription_preference c]
        else ["achat"; "lld"; "abonnement"] in
      let business_objectives :=
        mkdict [ ("target_margin", JNum (15 # 100));
                 ("satisfaction_priority", JNum (7 # 10)) ] in
      let client_budget :=
        (decimal_or (budget_min c) 10000%Q, decimal_or (budget_max c) 50000%Q) in
      let offers_ :=
        structure_offer env (_vehicle_to_dict (Some vehicle))
          (decimal_or (trade_in_offered_value negotiation) 0%Q)
          offer_types client_budget business_objectives in
      match offers_ with
      | best_offer :: _ =>
          do offer <- lift (created_offer pk negotiation vehicle_pk best_offer) ;
          do_ orm_write env OpCreateOffer
                (fun st => with_offers st (offers st ++ [offer])) ;
          ret offer
      | [] => raise (ValueError "No offers could be generated")
      end
  end.

(** ** [execute_negotiation_round] *)

(** [negotiation.offers.order_by('-created_at').first()] *)
Definition latest_offer (st : Store) (pk : nat) : option Offer :=
  last (filter (fun o => o_negotiation o = pk) (offers st)).

(** Lines 120-123: the current best offer. *)
Definition current_best_offer (env : Env) (pk : nat) (negotiation : Negotiation)
    : M Offer :=
  do st <- read ;
  match latest_offer st pk with
  | Some o => ret o
  | None => _create_initial_offer env pk negotiation
  end.

Definition set_negotiation_rounds (n : Negotiation) (k : Z) : Negotiation :=
  {| client := client n; trade_in_vehicle := trade_in_vehicle n;
     target_vehicle := target_vehicle n; status := status n;
     negotiation_rounds := k; max_rounds := max_rounds n;
     trade_in_offered_value := trade_in_offered_value n;
     final_price := final_price n; margin_achieved := margin_achieved n;
     agent_reasoning := agent_reasoning n; market_analysis := market_analysis n;
     ended_at := ended_at n |}.

(** Line 118: [negotiation.negotiation_rounds += 1], on the object in
    memory. *)
Definition next_round (n : Negotiation) : Negotiation :=
  set_negotiation_rounds n (negotiation_rounds n + 1).

(** Lines 145-148: the four assignments of a concluded deal. *)
Definition set_concluded (n : Negotiation) (price margin : Decimal) (t : Z)
    : Negotiation :=
  {| client := client n; trade_in_vehicle := trade_in_vehicle n;
     target_vehicle := target_vehicle n; status := concluded;
     negotiation_rounds := negotiation_rounds n; max_rounds := max_rounds n;
     trade_in_offered_value := trade_in_offered_value n;
     final_price := Some price; margin_achieved := Some margin;
     agent_reasoning := agent_reasoning n; market_analysis := market_analysis n;
     ended_at := Some t |}.

(** The exhaustion result, line 116. *)
Definition max_rounds_reached : dict :=
  mkdict [ ("status", JStr "max_rounds_reached") ].

(** Lines 134-141: the row handed to [NegotiationRound.objects.create]. *)
Definition round_record (pk : nat) (negotiation : Negotiation)
    (feedback : string) (round_result : dict) : NegotiationRound :=
  {| r_negotiation := pk;
     round_number := negotiation_rounds negotiation;
     agent_proposal := dict_get round_result "proposed_offer" (JObj []);
     r_agent_reasoning := dict_get round_result "reasoning" (JStr EmptyString);
     client_feedback := feedback;
     round_status := "ongoing" |}.

(** Lines 144-148: the deal is concluded when the advisor says so. *)
Definition conclude_if_signalled (env : Env) (negotiation : Negotiation)
    (round_result : dict) : Exn + Negotiation :=
  if truthy (dict_get round_result "should_conclude" (JBool false))
  then
    val price <- Decimal_of_str (dict_get round_result "final_price" (JInt 0)) ;
    val margin <- Decimal_of_str (dict_get round_result "margin" (JInt 0)) ;
    inr (set_concluded negotiation price margin (now env))
  else inr negotiation.

Definition set_prices (n : Negotiation) (price margin : option Decimal)
    : Negotiation :=
  {| client := client n; trade_in_vehicle := trade_in_vehicle n;
     target_vehicle := target_vehicle n; status := status n;
     negotiation_rounds := negotiation_rounds n; max_rounds := max_rounds n;
     trade_in_offered_value := trade_in_offered_value n;
     final_price := price; margin_achieved := margin;
     agent_reasoning := agent_reasoning n; market_analysis := market_analysis n;
     ended_at := ended_at n |}.

(** The row that [negotiation.save()] writes for the object in memory.
    Django adapts a DecimalField to its column as it writes it:
    [final_price] is declared with [max_digits=10] and
    [margin_achieved] with [max_digits=5], both with two decimal
    places ([models.py], lines 162-163), so a value is stored rounded
    to two places, and the save raises InvalidOperation when it has
    too many digits.  [assigned] says whether the call has assigned
    the two fields (lines 146-147): their values are then adapted;
    otherwise every field holds what was read from the row, in column
    form already, and is written back as it is. *)
Definition column_form (negotiation : Negotiation) (assigned : bool)
    : Exn + Negotiation :=
  if assigned
  then
    val price <- adapt_decimalfield_value 10 (final_price negotiation) ;
    val margin <- adapt_decimalfield_value 5 (margin_achieved negotiation) ;
    inr (set_prices negotiation price margin)
  else inr negotiation.

(** [negotiation.save()]: the row of [negotiation], in the form of its
    columns, is written under [pk]; the adaptation comes first, so its
    exception is raised before anything is sent to the database. *)
Definition save_negotiation (env : Env) (op : DbOp) (pk : nat)
    (negotiation : Negotiation) (assigned : bool) : M unit :=
  do row <- lift (column_form negotiation assigned) ;
  orm_write env op
    (fun st => with_negotiations st (set_row (negotiations st) pk row)).

(** Lines 152-158: the dictionary returned to the caller. *)
Definition round_response (negotiation : Negotiation) (round_result : dict) : dict :=
  mkdict
    [ ("round_number", JInt (negotiation_rounds negotiation));
      ("proposed_offer", dict_get round_result "proposed_offer" (JObj []));
      ("status", JStr (status_value (status negotiation)));
      ("should_continue",
        JBool (negb (truthy (dict_get round_result "should_conclude" (JBool false)))));
      ("confidence", dict_get round_result "confidence_score" (JInt 0)) ].

Definition execute_negotiation_round (env : Env) (negotiation_id : nat)
    (feedback : string) : M dict :=
  do negotiation <- objects_get "Negotiation" negotiations negotiation_id ;
  if (max_rounds negotiation <=? negotiation_rounds negotiation)%Z
  then ret max_rounds_reached
  else
    let negotiation := next_round negotiation in
    do current_offer <- current_best_offer env negotiation_id negotiation ;
    do round_result <- lift
      (process_round env (_offer_to_dict current_offer) feedback
         (negotiation_rounds negotiation) (max_rounds negotiation)) ;
    do_ orm_write env OpCreateRound
          (fun st =>
             with_rounds st
               (rounds st
                ++ [round_record negotiation_id negotiation feedback round_result])) ;
    do negotiation <- lift (conclude_if_signalled env negotiation round_result) ;
    do_ save_negotiation env OpSaveNegotiation negotiation_id negotiation
          (truthy (dict_get round_result "should_conclude" (JBool false))) ;
    ret (round_response negotiation round_result).

(** ** [initiate_negotiation] *)

(** [Negotiation.objects.create(...)]: the row gets the next primary
    key; a vehicle key that names no row violates the foreign key. *)
Definition create_negotiation (env : Env) (n : Negotiation) : M nat :=
  do st <- read ;
  let known (v : option nat) :=
    match v with
    | Some vpk => bool_decide (is_Some (get_row (vehicles st) vpk))
    | None => true
    end in
  if known (trade_in_vehicle n) && known (target_vehicle n)
  then
    do_ orm_write env OpCreateNegotiation
          (fun st => with_negotiations st (negotiations st ++ [n])) ;
    ret (S (length (negotiations st)))
  else raise IntegrityError.

(** [NegotiationAgent.initiate_negotiation]: the prompt formats
    [trade_in_vehicle.get('mileage')] with [:,], which raises on the
    [None] of the empty dictionary passed when there is no trade-in. *)
Definition negotiator_initiate_negotiation (env : Env)
    (client_ trade_in : dict) (analysis : JSON) (objectives : dict)
    : Exn + JSON :=
  match trade_in !! "mileage" with
  | Some (JNum _) => inr (negotiator_initiate env client_ trade_in analysis objectives)
  | _ => inl TypeError
  end.

Definition set_target_vehicle (n : Negotiation) (v : option nat) : Negotiation :=
  {| client := client n; trade_in_vehicle := trade_in_vehicle n;
     target_vehicle := v; status := status n;
     negotiation_rounds := negotiation_rounds n; max_rounds := max_rounds n;
     trade_in_offered_value := trade_in_offered_value n;
     final_price := final_price n; margin_achieved := margin_achieved n;
     agent_reasoning := agent_reasoning n; market_analysis := market_analysis n;
     ended_at := ended_at n |}.

Definition set_market_analysis (n : Negotiation) (a : JSON) : Negotiation :=
  {| client := client n; trade_in_vehicle := trade_in_vehicle n;
     target_vehicle := target_vehicle n; status := status n;
     negotiation_rounds := negotiation_rounds n; max_rounds := max_rounds n;
     trade_in_offered_value := trade_in_offered_value n;
     final_price := final_price n; margin_achieved := margin_achieved n;
     agent_reasoning := agent_reasoning n; market_analysis := a;
     ended_at := ended_at n |}.

Definition set_strategy (n : Negotiation) (strategy : JSON) : Negotiation :=
  {| client := client n; trade_in_vehicle := trade_in_vehicle n;
     target_vehicle := target_vehicle n; status := in_progress;
     negotiation_rounds := negotiation_rounds n; max_rounds := max_rounds n;
     trade_in_offered_value := trade_in_offered_value n;
     final_price := final_price n; margin_achieved := margin_achieved n;
     agent_reasoning := strategy; market_analysis := market_analysis n;
     ended_at := ended_at n |}.

(** The row [Negotiation.objects.create] inserts: the field defaults of
    [models.py] ([negotiation_rounds] 0, [max_rounds] 10, empty JSON). *)
Definition new_negotiation (client_id : nat)
    (trade_in_vehicle_id target_vehicle_id : option nat) : Negotiation :=
  {| client := client_id; trade_in_vehicle := trade_in_vehicle_id;
     target_vehicle := target_vehicle_id; status := initiated;
     negotiation_rounds := 0; max_rounds := 10;
     trade_in_offered_value := None; final_price := None;
     margin_achieved := None; agent_reasoning := JObj [];
     market_analysis := JObj []; ended_at := None |}.

(** Lines 55-59: without a target vehicle, the newest suitable one. *)
Definition choose_target_vehicle (env : Env) (pk : nat) (c : Client)
    (target_vehicle_id : option nat) (negotiation : Negotiation) : M Negotiation :=
  match target_vehicle_id with
  | Some (S _) => ret negotiation
  | _ =>
      do st <- read ;
      match _find_suitable_vehicle st c with
      | Some v =>
          let negotiation := set_target_vehicle negotiation (Some v) in
          do_ save_negotiation env OpSaveTargetVehicle pk negotiation false ;
          ret negotiation
      | None => ret negotiation
      end
  end.

(** Lines 62-73: the market analysis of the trade-in vehicle. *)
Definition analyse_trade_in (env : Env) (negotiation : Negotiation) : M Negotiation :=
  match trade_in_vehicle negotiation with
  | Some vpk =>
      do v <- objects_get "Vehicle" vehicles vpk ;
      do market <- _get_or_scrape_market_data env v ;
      ret (set_market_analysis negotiation
             (analyze_market env (_vehicle_to_dict (Some v)) market))
  | None => ret negotiation
  end.

(** Line 84: the trade-in vehicle as a dictionary, [{}] without one. *)
Definition trade_in_dict (negotiation : Negotiation) : M dict :=
  match trade_in_vehicle negotiation with
  | Some vpk =>
      do v <- objects_get "Vehicle" vehicles vpk ;
      ret (_vehicle_to_dict (Some v))
  | None => ret ∅
  end.

Definition initiate_negotiation (env : Env) (client_id : nat)
    (trade_in_vehicle_id target_vehicle_id : option nat)
    (business_margin_target : Decimal) : M (nat * Negotiation) :=
  do c <- objects_get "Client" clients client_id ;
  let negotiation := new_negotiation client_id trade_in_vehicle_id target_vehicle_id in
  do pk <- create_negotiation env negotiation ;
  do negotiation <- choose_target_vehicle env pk c target_vehicle_id negotiation ;
  do negotiation <- analyse_trade_in env negotiation ;
  let business_objectives :=
    mkdict [ ("target_margin", JNum business_margin_target);
             ("volume_target", JInt 1);
             ("satisfaction_priority", JNum (7 # 10)) ] in
  do trade_in <- trade_in_dict negotiation ;
  do strategy <- lift
    (negotiator_initiate_negotiation env (_client_to_dict c) trade_in
       (market_analysis negotiation) business_objectives) ;
  let negotiation := set_strategy negotiation strategy in
  do_ save_negotiation env OpSaveNegotiation pk negotiation false ;
  ret (pk, negotiation).

(** ** Sequences of calls *)

Inductive Call : Type :=
| Initiate (client_id : nat) (trade_in_vehicle_id target_vehicle_id : option nat)
    (business_margin_target : Decimal)
| ExecuteRound (negotiation_id : nat) (feedback : string).

(** One call in its environment; what the caller gets is dropped, what
    the database keeps is returned. *)
Definition step (st : Store) (ec : Env * Call) : Store :=
  match ec.2 with
  | Initiate c t g m => (initiate_negotiation ec.1 c t g m st).1
  | ExecuteRound pk fb => (execute_negotiation_round ec.1 pk fb st).1
  end.

Definition run (st : Store) (calls : list (Env * Call)) : Store :=
  foldl step st calls.

(** Round numbers of a session, in creation order. *)
Definition round_numbers (st : Store) (pk : nat) : list Z :=
  round_number <$> filter (fun r => r_negotiation r = pk) (rounds st).

(** ** Auxiliary definitions for the statements *)


(** The environment [env] with another offer generator. *)
Definition with_structure_offer (env : Env)
    (f : dict -> Decimal -> list string -> Decimal * Decimal -> dict -> list JSON)
    : Env :=
  {| now := now env;
     scrape_leboncoin := scrape_leboncoin env;
     scrape_webmoteurs := scrape_webmoteurs env;
     scrape_caradisiac := scrape_caradisiac env;
     scrape_argus := scrape_argus env;
     analyze_market := analyze_market env;
     negotiator_initiate := negotiator_initiate env;
     structure_offer := f;
     process_round := process_round env;
     db_fails := db_fails env |}.

(** The call gets as far as creating its round record: the session is
    found with rounds left, the current offer [o] is obtained, the
    advisor answers [d] and the insert of line 134 is accepted. *)
Definition record_created (env : Env) (pk : nat) (fb : string) (st : Store)
    (n : Negotiation) (o : Offer) (d : dict) : Prop :=
  get_row (negotiations st) pk = Some n
  /\ (negotiation_rounds n < max_rounds n)%Z
  /\ (exists st1, current_best_offer env pk (next_round n) st = (st1, inr o))
  /\ process_round env (_offer_to_dict o) fb (negotiation_rounds n + 1)
       (max_rounds n) = inr d
  /\ db_fails env OpCreateRound = false.

(** Lines 144-150 in one step: the row [negotiation.save()] writes
    for the decision [d], or the exception raised on the way. *)
Definition row_to_save (env : Env) (n : Negotiation) (d : dict)
    : Exn + Negotiation :=
  val n' <- conclude_if_signalled env n d ;
  column_form n' (truthy (dict_get d "should_conclude" (JBool false))).

(** What one call of [execute_negotiation_round] can do to the store
    [st], case by case in the order of the source: the resulting store
    and what the caller receives. *)
Inductive RoundOutcome (env : Env) (pk : nat) (fb : string) (st : Store)
    : Store -> Exn + dict -> Prop :=
| RoundNotFound :
    get_row (negotiations st) pk = None ->
    RoundOutcome env pk fb st st (inl (DoesNotExist "Negotiation"))
| RoundExhausted n :
    get_row (negotiations st) pk = Some n ->
    (max_rounds n <= negotiation_rounds n)%Z ->
    RoundOutcome env pk fb st st (inr max_rounds_reached)
| RoundNoOffer n st1 e :
    get_row (negotiations st) pk = Some n ->
    (negotiation_rounds n < max_rounds n)%Z ->
    current_best_offer env pk (next_round n) st = (st1, inl e) ->
    RoundOutcome env pk fb st st1 (inl e)
| RoundAdvisorRaised n st1 o e :
    get_row (negotiations st) pk = Some n ->
    (negotiation_rounds n < max_rounds n)%Z ->
    current_best_offer env pk (next_round n) st = (st1, inr o) ->
    process_round env (_offer_to_dict o) fb (negotiation_rounds n + 1)
      (max_rounds n) = inl e ->
    RoundOutcome env pk fb st st1 (inl e)
| RoundRecordRefused n st1 o d :
    get_row (negotiations st) pk = Some n ->
    (negotiation_rounds n < max_rounds n)%Z ->
    current_best_offer env pk (next_round n) st = (st1, inr o) ->
    process_round env (_offer_to_dict o) fb (negotiation_rounds n + 1)
      (max_rounds n) = inr d ->
    db_fails env OpCreateRound = true ->
    RoundOutcome env pk fb st st1 (inl DatabaseError)
| RoundConcludeRaised n st1 o d e :
    get_row (negotiations st) pk = Some n ->
    (negotiation_rounds n < max_rounds n)%Z ->
    current_best_offer env pk (next_round n) st = (st1, inr o) ->
    process_round env (_offer_to_dict o) fb (negotiation_rounds n + 1)
      (max_rounds n) = inr d ->
    db_fails env OpCreateRound = false ->
    row_to_save env (next_round n) d = inl e ->
    RoundOutcome env pk fb st
      (with_rounds st1 (rounds st1 ++ [round_record pk (next_round n) fb d]))
      (inl e)
| RoundSaveRefused n st1 o d n' :
    get_row (negotiations st) pk = Some n ->
    (negotiation_rounds n < max_rounds n)%Z ->
    current_best_offer env pk (next_round n) st = (st1, inr o) ->
    process_round env (_offer_to_dict o) fb (negotiation_rounds n + 1)
      (max_rounds n) = inr d ->
    db_fails env OpCreateRound = false ->
    row_to_save env (next_round n) d = inr n' ->
    db_fails env OpSaveNegotiation = true ->
    RoundOutcome env pk fb st
      (with_rounds st1 (rounds st1 ++ [round_record pk (next_round n) fb d]))
      (inl DatabaseError)
| RoundCommitted n st1 o d n' :
    get_row (negotiations st) pk = Some n ->
    (negotiation_rounds n < max_rounds n)%Z ->
    current_best_offer env pk (next_round n) st = (st1, inr o) ->
    process_round env (_offer_to_dict o) fb (negotiation_rounds n + 1)
      (max_rounds n) = inr d ->
    db_fails env OpCreateRound = false ->
    row_to_save env (next_round n) d = inr n' ->
    db_fails env OpSaveNegotiation = false ->
    RoundOutcome env pk fb st
      (with_negotiations
         (with_rounds st1 (rounds st1 ++ [round_record pk (next_round n) fb d]))
         (set_row (negotiations st1) pk n'))
      (inr (round_response n' d)).

(** Two stores that differ at most in the offers table. *)
Definition same_but_offers (st st' : Store) : Prop :=
  clients st' = clients st /\ vehicles st' = vehicles st
  /\ negotiations st' = negotiations st /\ rounds st' = rounds st
  /\ market_data st' = market_data st.


(** The sources that answered, in the order [aggregate_market_data]
    asks them. *)
Definition succeeded_sources (env : Env) (make_ model_ : string) (year_ : Z)
    (fuel : string) : list SourceData :=
  omap id
    [ scrape_leboncoin env make_ model_ year_ fuel;
      scrape_webmoteurs env make_ model_ year_;
      scrape_caradisiac env make_ model_ year_;
      scrape_argus env make_ model_ year_ ].

(** ** Invariants of the session and round tables *)

(** Round numbers [nums], in creation order, of a session whose
    persisted counter is [c]: they never decrease, lie between 1 and
    [c + 1], and every number from 1 to [c] is there. *)
Definition numbering_ok (nums : list Z) (c : Z) : Prop :=
  StronglySorted Z.le nums
  /\ (forall x, x ∈ nums -> (1 <= x <= c + 1)%Z)
  /\ (forall k, (1 <= k <= c)%Z -> k ∈ nums).

Record consistent (st : Store) : Prop := {
  counters_bounded :
    forall pk n, get_row (negotiations st) pk = Some n ->
                 (0 <= negotiation_rounds n <= max_rounds n)%Z;
  rounds_have_session :
    forall r, r ∈ rounds st ->
              is_Some (get_row (negotiations st) (r_negotiation r));
  rounds_numbered :
    forall pk n, get_row (negotiations st) pk = Some n ->
                 numbering_ok (round_numbers st pk) (negotiation_rounds n);
}.

(** The round numbers of every session are exactly 1, ..., counter. *)
Definition rounds_exact (st : Store) : Prop :=
  forall pk n, get_row (negotiations st) pk = Some n ->
               round_numbers st pk = seqZ 1 (negotiation_rounds n).

(** Every session of [st] is still in [st'], with the same max_rounds
    and a counter that did not decrease. *)
Definition grows (st st' : Store) : Prop :=
  forall pk n, get_row (negotiations st) pk = Some n ->
    exists n', get_row (negotiations st') pk = Some n'
               /\ (negotiation_rounds n <= negotiation_rounds n')%Z
               /\ max_rounds n' = max_rounds n.

(** What a call can do to the two tables.  With [strict] the change
    that leaves a round record without its session update is excluded. *)
Inductive StoreChange (strict : bool) (st st' : Store) : Prop :=
| ChangeNone :
    negotiations st' = negotiations st ->
    rounds st' = rounds st ->
    StoreChange strict st st'
| ChangeNewSession n0 :
    negotiations st' = negotiations st ++ [n0] ->
    negotiation_rounds n0 = 0%Z ->
    max_rounds n0 = 10%Z ->
    rounds st' = rounds st ->
    StoreChange strict st st'
| ChangeRecordOnly pk n r :
    strict = false ->
    get_row (negotiations st) pk = Some n ->
    (negotiation_rounds n < max_rounds n)%Z ->
    negotiations st' = negotiations st ->
    rounds st' = rounds st ++ [r] ->
    r_negotiation r = pk ->
    round_number r = (negotiation_rounds n + 1)%Z ->
    StoreChange strict st st'
| ChangeRound pk n n' r :
    get_row (negotiations st) pk = Some n ->
    (negotiation_rounds n < max_rounds n)%Z ->
    negotiations st' = set_row (negotiations st) pk n' ->
    negotiation_rounds n' = (negotiation_rounds n + 1)%Z ->
    max_rounds n' = max_rounds n ->
    rounds st' = rounds st ++ [r] ->
    r_negotiation r = pk ->
    round_number r = (negotiation_rounds n + 1)%Z ->
    StoreChange strict st st'.

(** A call that, when it raises, raises before its round record is
    created. *)
Definition clean_step (st : Store) (ec : Env * Call) : Prop :=
  match ec.2 with
  | Initiate _ _ _ _ => True
  | ExecuteRound pk fb =>
      (exists res, (execute_negotiation_round ec.1 pk fb st).2 = inr res)
      \/ rounds (execute_negotiation_round ec.1 pk fb st).1 = rounds st
  end.

Fixpoint clean_run (st : Store) (calls : list (Env * Call)) : Prop :=
  match calls with
  | [] => True
  | ec :: calls' => clean_step st ec /\ clean_run (step st ec) calls'
  end.

(** The store [s] is [st] after [Negotiation.objects.create] gave key
    [pk] to a new session, still at round 0 of 10. *)
Definition session_created (st s : Store) (pk : nat) : Prop :=
  pk = S (length (negotiations st))
  /\ rounds s = rounds st
  /\ exists n0, negotiations s = negotiations st ++ [n0]
                /\ negotiation_rounds n0 = 0%Z /\ max_rounds n0 = 10%Z.

(** ** More of [scrapers.py] *)

(** [MarketDataScraper._get_fuel_code] *)
Definition _get_fuel_code (fuel : string) : string :=
  let fuel_map : gmap string string :=
    <["electrique" := "4"]>
      (<["hybride" := "3"]> (<["diesel" := "2"]> (<["essence" := "1"]> ∅))) in
  default "0" (fuel_map !! fuel).

(** ** Criteria of [_find_suitable_vehicle] *)

(** The filters the query of [_find_suitable_vehicle] applies to one
    vehicle: in stock, the preferred fuel and transmission when the
    client has one, the budget when both bounds are set and not zero. *)
Definition suits (c : Client) (v : Vehicle) : bool :=
  in_stock v
  && (String.eqb (preferred_fuel c) EmptyString
      || String.eqb (fuel_type v) (preferred_fuel c))
  && (String.eqb (preferred_transmission c) EmptyString
      || String.eqb (transmission v) (preferred_transmission c))
  && match budget_min c, budget_max c with
     | Some lo, Some hi =>
         if negb (Qeq_bool lo 0) && negb (Qeq_bool hi 0)
         then Qle_bool lo (current_market_value v)
              && Qle_bool (current_market_value v) hi
         else true
     | _, _ => true
     end.

(** The client [c] with no budget at all. *)
Definition without_budget (c : Client) : Client :=
  {| first_name := first_name c; last_name := last_name c;
     preferred_fuel := preferred_fuel c;
     preferred_transmission := preferred_transmission c;
     budget_min := None; budget_max := None;
     subscription_preference := subscription_preference c;
     loyalty_score := loyalty_score c; risk_score := risk_score c |}.

(** ** The session [initiate_negotiation] builds *)

(** The session in memory after lines 55-59: with the target vehicle
    given by the caller, or with the newest suitable one. *)
Definition chosen_target (st : Store) (c : Client)
    (target_vehicle_id : option nat) (n : Negotiation) : Negotiation :=
  match target_vehicle_id with
  | Some (S _) => n
  | _ =>
      match _find_suitable_vehicle st c with
      | Some v => set_target_vehicle n (Some v)
      | None => n
      end
  end.

(** The store [st] with one more session. *)
Definition with_new_session (st : Store) (row : Negotiation) : Store :=
  with_negotiations st (negotiations st ++ [row]).

(** ** What a call leaves alone *)

(** The offers of a session, in creation order. *)
Definition session_offers (st : Store) (pk : nat) : list Offer :=
  filter (fun o => o_negotiation o = pk) (offers st).

(** [st'] extends [st]: the reference tables and the market cache are
    the same, no session, offer or round record of [st] is lost or
    edited, new ones come after the old ones. *)
Record extends_store (st st' : Store) : Prop := {
  same_clients : clients st' = clients st;
  same_vehicles : vehicles st' = vehicles st;
  same_market_data : market_data st' = market_data st;
  more_sessions : length (negotiations st) <= length (negotiations st');
  more_offers : offers st `prefix_of` offers st';
  more_rounds : rounds st `prefix_of` rounds st';
}.

(** ** Sessions as the engine leaves them *)

(** What [initiate_negotiation] and [execute_negotiation_round] ever
    write in a session row: no value for the trade-in, ten rounds at
    most, one of the three statuses [initiated], [in_progress] and
    [concluded], and a final price, a margin and an end date exactly
    for a concluded session. *)
Definition engine_session (n : Negotiation) : Prop :=
  trade_in_offered_value n = None
  /\ max_rounds n = 10%Z
  /\ match status n with
     | initiated | in_progress =>
         final_price n = None /\ margin_achieved n = None /\ ended_at n = None
     | concluded =>
         is_Some (final_price n) /\ is_Some (margin_achieved n)
         /\ is_Some (ended_at n)
     | _ => False
     end.

(** ** [agents.py]: the replies of the language model *)

Inductive Role : Type := user | assistant.

Record Message : Type := { role : Role; content : string }.

(** [self.client.messages.create(...)] followed by
    [response.content[0].text]: the text answered to the messages sent
    under a system prompt, [None] when either raises. *)
Definition Api : Type := list Message -> string -> option string.

Definition _mock_response (message : string) : string :=
  "Mock response - API not configured".

(** [AIAgent._chat]: the history after the call and the text returned.
    [api_client] is [self.client], [None] without the library or the
    API key. *)
Definition _chat (api_client : option Api) (message system_prompt : string)
    (conversation_history : list Message) : list Message * string :=
  match api_client with
  | None => (conversation_history, _mock_response message)
  | Some messages_create =>
      let conversation_history :=
        conversation_history ++ [{| role := user; content := message |}] in
      match messages_create conversation_history system_prompt with
      | Some assistant_message =>
          (conversation_history
             ++ [{| role := assistant; content := assistant_message |}],
           assistant_message)
      | None => (conversation_history, _mock_response message)
      end
  end.

(** [s.find(c)] and [s.rfind(c)] for one character: the first and the
    last position of [c] in [s], or -1. *)
Fixpoint str_find (s : string) (c : ascii) : Z :=
  match s with
  | EmptyString => -1
  | String a s' =>
      if Ascii.eqb a c then 0
      else let i := str_find s' c in if (i =? -1)%Z then -1 else i + 1
  end.

Fixpoint str_rfind (s : string) (c : ascii) : Z :=
  match s with
  | EmptyString => -1
  | String a s' =>
      let i := str_rfind s' c in
      if (i =? -1)%Z then (if Ascii.eqb a c then 0 else -1) else i + 1
  end.

(** [s[i:j]] for [0 <= i]. *)
Definition str_slice (s : string) (i j : Z) : string :=
  substring (Z.to_nat i) (Z.to_nat (j - i)) s.

(** The part of a reply the agents hand to [json.loads]: from the
    first [opening] to the last [closing], when there is one. *)
Definition json_span (opening closing : ascii) (response : string)
    : option string :=
  let json_start := str_find response opening in
  let json_end := (str_rfind response closing + 1)%Z in
  if negb (json_start =? -1)%Z && (json_start <? json_end)%Z
  then Some (str_slice response json_start json_end)
  else None.

(** The decoding shared by [analyze_market], [evaluate_trade_in],
    [initiate_negotiation] and [process_round]; [json_loads] is
    [json.loads], [None] when it raises JSONDecodeError. *)
Definition decoded_reply (json_loads : string -> option JSON)
    (raw_key response : string) : JSON :=
  match json_span "{" "}" response with
  | Some json_str =>
      match json_loads json_str with
      | Some v => v
      | None => JObj [(raw_key, JStr response)]
      end
  | None => JObj [(raw_key, JStr response)]
  end.

(** Lines 265-280 of [structure_offer]: the value under ['offers']. *)
Definition decoded_offers (json_loads : string -> option JSON)
    (response : string) : JSON :=
  match json_span "[" "]" response with
  | Some json_str =>
      match json_loads json_str with
      | Some v => v
      | None => JArr []
      end
  | None =>
      match json_span "{" "}" response with
      | Some json_str =>
          match json_loads json_str with
          | Some v => JArr [v]
          | None => JArr []
          end
      | None => JArr []
      end
  end.

(** [OfferStructuringAgent.structure_offer] and
    [NegotiationAgent.process_round] from the prompt on. *)
Definition OfferStructuringAgent_structure_offer
    (json_loads : string -> option JSON) (api_client : option Api)
    (prompt system_prompt : string) (conversation_history : list Message)
    : list Message * dict :=
  let (conversation_history, response) :=
    _chat api_client prompt system_prompt conversation_history in
  (conversation_history,
   mkdict [ ("offers", decoded_offers json_loads response);
            ("raw_response", JStr response) ]).

Definition NegotiationAgent_process_round
    (json_loads : string -> option JSON) (api_client : option Api)
    (prompt system_prompt : string) (conversation_history : list Message)
    : list Message * JSON :=
  let (conversation_history, response) :=
    _chat api_client prompt system_prompt conversation_history in
  (conversation_history, decoded_reply json_loads "raw_result" response).

(** The capabilities of [env] are those of agents without a client:
    the offers and the decision are what [structure_offer] and
    [process_round] return for some prompt when [self.client] is
    [None]. *)
Definition agents_without_client (json_loads : string -> option JSON)
    (env : Env) : Prop :=
  (forall v tv kinds budget objectives,
     exists prompt system_prompt history,
       (OfferStructuringAgent_structure_offer json_loads None prompt
          system_prompt history).2 !! "offers"
       = Some (JArr (structure_offer env v tv kinds budget objectives)))
  /\ (forall o fb k m,
        exists prompt system_prompt history items,
          (NegotiationAgent_process_round json_loads None prompt
             system_prompt history).2 = JObj items
          /\ process_round env o fb k m = inr (mkdict items)).

(** * Properties *)

(** ** Stepping through a call *)

Lemma bind_inr {A B : Type} (c : M A) (k : A -> M B) st st' a :
  c st = (st', inr a) -> bind c k st = k a st'.
Proof. unfold bind. now intros ->. Qed.

Lemma bind_inl {A B : Type} (c : M A) (k : A -> M B) st st' e :
  c st = (st', inl e) -> bind c k st = (st', inl e).
Proof. unfold bind. now intros ->. Qed.

(** What a call did, step by step: the outcome of [bind c k] comes
    from an error of [c] or from running [k] after a result of [c]. *)
Lemma bind_cases {A B : Type} (c : M A) (k : A -> M B) st st' r :
  bind c k st = (st', r) ->
  (exists e, c st = (st', inl e) /\ r = inl e)
  \/ (exists st1 a, c st = (st1, inr a) /\ k a st1 = (st', r)).
Proof.
  unfold bind. destruct (c st) as [st1 [e|a]]; intros H.
  - left. exists e. split; congruence.
  - right. now exists st1, a.
Qed.

Lemma objects_get_found {A : Type} name (table : Store -> list A) pk st row :
  get_row (table st) pk = Some row ->
  objects_get name table pk st = (st, inr row).
Proof. unfold objects_get, bind, read, ret. now intros ->. Qed.

Lemma objects_get_cases {A : Type} name (table : Store -> list A) pk st st' r :
  objects_get name table pk st = (st', r) ->
  st' = st
  /\ (r = inl (DoesNotExist name) /\ get_row (table st) pk = None
      \/ exists row, r = inr row /\ get_row (table st) pk = Some row).
Proof.
  unfold objects_get, bind, read, ret, raise.
  destruct (get_row (table st) pk) as [row|]; intros [= <- <-];
    (split; [reflexivity |]); [right; now exists row | now left].
Qed.

Lemma lift_cases {A : Type} (x : Exn + A) st st' r :
  lift x st = (st', r) -> st' = st /\ r = x.
Proof. unfold lift. now intros [= <- <-]. Qed.

Lemma orm_write_cases env op f st st' r :
  orm_write env op f st = (st', r) ->
  (db_fails env op = true /\ st' = st /\ r = inl DatabaseError)
  \/ (db_fails env op = false /\ st' = f st /\ r = inr tt).
Proof.
  unfold orm_write, raise, write.
  destruct (db_fails env op); intros [= <- <-]; [left | right]; now repeat split.
Qed.

(** With no source and no aggregate the scraping branch is the
    fallback and leaves the store alone. *)
Lemma scrape_market_data_no_source env vehicle st :
  scrape_leboncoin env (make vehicle) (model vehicle) (year vehicle)
    (fuel_type vehicle) = None ->
  scrape_webmoteurs env (make vehicle) (model vehicle) (year vehicle) = None ->
  scrape_caradisiac env (make vehicle) (model vehicle) (year vehicle) = None ->
  scrape_argus env (make vehicle) (model vehicle) (year vehicle) = None ->
  scrape_market_data env vehicle st = (st, inr (fallback_market_data vehicle)).
Proof.
  intros H1 H2 H3 H4.
  unfold scrape_market_data, aggregate_market_data.
  rewrite H1, H2, H3, H4. reflexivity.
Qed.

(** C7. When every external source fails and the cache holds no entry
    younger than a day for the vehicle, [_get_or_scrape_market_data]
    returns the heuristic snapshot: average = the vehicle's stored
    market value, min = 0.9 times it, max = 1.1 times it, and
    listings_count = 0; the store is left as it was. *)
Theorem fallback_snapshot_when_no_source env vehicle st :
  scrape_leboncoin env (make vehicle) (model vehicle) (year vehicle)
    (fuel_type vehicle) = None ->
  scrape_webmoteurs env (make vehicle) (model vehicle) (year vehicle) = None ->
  scrape_caradisiac env (make vehicle) (model vehicle) (year vehicle) = None ->
  scrape_argus env (make vehicle) (model vehicle) (year vehicle) = None ->
  (forall md, market_data st !! vehicle_key vehicle = Some md ->
              (1 <= timedelta_days (now env - last_updated md))%Z) ->
  exists d lo hi,
    _get_or_scrape_market_data env vehicle st = (st, inr d)
    /\ d !! "average_price" = Some (JNum (current_market_value vehicle))
    /\ d !! "min_price" = Some (JNum lo)
    /\ (lo == (9 # 10) * current_market_value vehicle)%Q
    /\ d !! "max_price" = Some (JNum hi)
    /\ (hi == (11 # 10) * current_market_value vehicle)%Q
    /\ d !! "listings_count" = Some (JNum 0%Q).
Proof.
  intros H1 H2 H3 H4 Hstale.
  exists (fallback_market_data vehicle),
    (current_market_value vehicle * (9 # 10))%Q,
    (current_market_value vehicle * (11 # 10))%Q.
  split.
  - unfold _get_or_scrape_market_data, bind, read.
    destruct (market_data st !! vehicle_key vehicle) as [md|] eqn:Hmd.
    + specialize (Hstale md eq_refl).
      destruct (Z.ltb_spec (timedelta_days (now env - last_updated md)) 1);
        [lia|].
      now apply scrape_market_data_no_source.
    + now apply scrape_market_data_no_source.
  - repeat split; try reflexivity; apply Qmult_comm.
Qed.


(** The aggregate built by [aggregate_market_data] has the keys
    average_price, min_price, max_price and sources_count; reading
    ['listings_count'] from it raises, before anything is written. *)
Lemma scrape_market_data_outcome env vehicle st :
  scrape_market_data env vehicle st = (st, inr (fallback_market_data vehicle))
  \/ scrape_market_data env vehicle st = (st, inl (KeyError "listings_count")).
Proof.
  unfold scrape_market_data.
  destruct (res_aggregate _) as [agg|] eqn:Hagg; [right | now left].
  unfold aggregate_market_data in Hagg. cbn [res_aggregate] in Hagg.
  repeat case_match; try discriminate.
  injection Hagg as <-. reflexivity.
Qed.

(** [_get_or_scrape_market_data] never changes the store. *)
Lemma get_or_scrape_store env vehicle st st' r :
  _get_or_scrape_market_data env vehicle st = (st', r) -> st' = st.
Proof.
  unfold _get_or_scrape_market_data, bind, read, ret.
  intros H.
  destruct (market_data st !! vehicle_key vehicle) as [md|];
    [destruct (_ <? _)%Z; [congruence|] |];
    destruct (scrape_market_data_outcome env vehicle st) as [E|E];
    rewrite E in H; congruence.
Qed.

(** Every dictionary the function returns is either the image of a
    cached row or the fallback. *)
Lemma get_or_scrape_result env vehicle st st' d :
  _get_or_scrape_market_data env vehicle st = (st', inr d) ->
  (exists md, market_data st !! vehicle_key vehicle = Some md
              /\ d = _market_data_to_dict md)
  \/ d = fallback_market_data vehicle.
Proof.
  unfold _get_or_scrape_market_data, bind, read, ret.
  intros H.
  destruct (market_data st !! vehicle_key vehicle) as [md|] eqn:Hmd.
  - destruct (_ <? _)%Z.
    + left. exists md. split; [reflexivity | congruence].
    + destruct (scrape_market_data_outcome env vehicle st) as [E|E];
        rewrite E in H; [right |]; congruence.
  - destruct (scrape_market_data_outcome env vehicle st) as [E|E];
      rewrite E in H; [right |]; congruence.
Qed.

(** C10. The dictionary obtained from [_get_or_scrape_market_data] is
    built either from a [MarketData] row or by the fallback; built from
    a row it has the price bounds under ['price_min'] and ['price_max']
    and nothing under ['min_price'] and ['max_price']; built by the
    fallback it is the other way round. *)
Theorem market_data_keys_not_uniform env vehicle st st' d :
  _get_or_scrape_market_data env vehicle st = (st', inr d) ->
  ((exists md, d = _market_data_to_dict md) \/ d = fallback_market_data vehicle)
  /\ (forall md, d = _market_data_to_dict md ->
        d !! "price_min" = Some (JNum (price_min md))
        /\ d !! "price_max" = Some (JNum (price_max md))
        /\ d !! "min_price" = None /\ d !! "max_price" = None)
  /\ (d = fallback_market_data vehicle ->
        is_Some (d !! "min_price") /\ is_Some (d !! "max_price")
        /\ d !! "price_min" = None /\ d !! "price_max" = None).
Proof.
  intros H. split; [| split].
  - destruct (get_or_scrape_result _ _ _ _ _ H) as [(md & _ & ->) | ->];
      [left; now exists md | now right].
  - intros md ->. now repeat split.
  - intros ->. repeat split; eexists; reflexivity.
Qed.


(** ** The exhaustion guard *)

Lemma execute_round_exhausted env st pk fb n :
  get_row (negotiations st) pk = Some n ->
  (max_rounds n <= negotiation_rounds n)%Z ->
  execute_negotiation_round env pk fb st = (st, inr max_rounds_reached).
Proof.
  intros Hrow Hmax.
  unfold execute_negotiation_round.
  erewrite bind_inr
    by (apply (objects_get_found "Negotiation" negotiations); exact Hrow).
  destruct (Z.leb_spec (max_rounds n) (negotiation_rounds n)); [reflexivity | lia].
Qed.

(** C8. On an existing session whose round counter has reached
    max_rounds, [execute_negotiation_round] returns the exhaustion
    result [{'status': 'max_rounds_reached'}] and leaves the whole
    store as it was (same counter, no round record); any further call,
    whatever its feedback and environment, returns the same. *)
Theorem exhausted_round_is_noop env st pk fb n :
  get_row (negotiations st) pk = Some n ->
  (max_rounds n <= negotiation_rounds n)%Z ->
  execute_negotiation_round env pk fb st = (st, inr max_rounds_reached)
  /\ max_rounds_reached !! "status" = Some (JStr "max_rounds_reached")
  /\ forall env' fb',
       execute_negotiation_round env' pk fb'
         (execute_negotiation_round env pk fb st).1
       = (st, inr max_rounds_reached).
Proof.
  intros Hrow Hmax. split; [| split].
  - now apply execute_round_exhausted with n.
  - reflexivity.
  - intros env' fb'.
    rewrite (execute_round_exhausted env st pk fb n Hrow Hmax). simpl.
    now apply execute_round_exhausted with n.
Qed.

(** ** The cases of a round *)

Lemma same_but_offers_refl st : same_but_offers st st.
Proof. now repeat split. Qed.

(** [_create_initial_offer] either fails with the store untouched or
    appends the row built from the first proposal. *)
Lemma create_initial_offer_cases env pk n st st' r :
  _create_initial_offer env pk n st = (st', r) ->
  (st' = st /\ exists e, r = inl e)
  \/ (exists vpk vehicle c best rest o,
        target_vehicle n = Some vpk
        /\ get_row (vehicles st) vpk = Some vehicle
        /\ get_row (clients st) (client n) = Some c
        /\ structure_offer env (_vehicle_to_dict (Some vehicle))
             (decimal_or (trade_in_offered_value n) 0%Q)
             (if negb (String.eqb (subscription_preference c) "flexible")
              then [subscription_preference c]
              else ["achat"; "lld"; "abonnement"])
             (decimal_or (budget_min c) 10000%Q, decimal_or (budget_max c) 50000%Q)
             (mkdict [ ("target_margin", JNum (15 # 100));
                       ("satisfaction_priority", JNum (7 # 10)) ])
           = best :: rest
        /\ created_offer pk n vpk best = inr o
        /\ db_fails env OpCreateOffer = false
        /\ st' = with_offers st (offers st ++ [o])
        /\ r = inr o).
Proof.
  unfold _create_initial_offer.
  destruct (target_vehicle n) as [vpk|] eqn:Htarget.
  2:{ intros [= <- <-]. left. eauto. }
  intros H.
  apply bind_cases in H as [(e & H1 & ->) | (s1 & vehicle & H1 & H)];
    apply objects_get_cases in H1 as [-> H1].
  { left. eauto. }
  destruct H1 as [[[=] _] | (? & [= <-] & Hv)].
  apply bind_cases in H as [(e & H1 & ->) | (s1 & market & H1 & H)];
    pose proof (get_or_scrape_store _ _ _ _ _ H1) as ->.
  { left. eauto. }
  apply bind_cases in H as [(e & H2 & ->) | (s1 & c & H2 & H)];
    apply (objects_get_cases "Client" clients) in H2 as [-> H2].
  { left. eauto. }
  destruct H2 as [[[=] _] | (? & [= <-] & Hc)].
  destruct (structure_offer _ _ _ _ _ _) as [|best rest] eqn:Hoffers.
  { injection H as <- <-. left. eauto. }
  apply bind_cases in H as [(e & H3 & ->) | (s1 & o & H3 & H)];
    apply lift_cases in H3 as [-> H3].
  { left. eauto. }
  apply bind_cases in H as [(e & H4 & ->) | (s1 & [] & H4 & H)];
    apply orm_write_cases in H4 as [(Hf & -> & [=]) | (Hf & -> & [=])].
  { subst. left. eauto. }
  injection H as <- <-.
  right. exists vpk, vehicle, c, best, rest, o. now repeat split.
Qed.

Lemma current_best_offer_same env pk n st st' r :
  current_best_offer env pk n st = (st', r) -> same_but_offers st st'.
Proof.
  unfold current_best_offer, bind, read, ret.
  destruct (latest_offer st pk).
  - intros [= <- _]. apply same_but_offers_refl.
  - intros H. apply create_initial_offer_cases in H
      as [[-> _] | (? & ? & ? & ? & ? & ? & _ & _ & _ & _ & _ & _ & -> & _)];
      now repeat split.
Qed.

(** ** Offer selection *)

(** C9. When the generator returns a non-empty list and the offer is
    created, the offer is the row built from the first element of the
    list, it is the one appended to the offers of the session, and the
    same call with any other tail (whatever the confidence scores in
    it) creates the same offer and leaves the same store. *)
Theorem first_offer_is_consumed env pk negotiation st best rest st' o :
  _create_initial_offer
    (with_structure_offer env (fun _ _ _ _ _ => best :: rest)) pk negotiation st
  = (st', inr o) ->
  (exists vpk, target_vehicle negotiation = Some vpk
               /\ created_offer pk negotiation vpk best = inr o)
  /\ offers st' = offers st ++ [o]
  /\ forall rest',
       _create_initial_offer
         (with_structure_offer env (fun _ _ _ _ _ => best :: rest'))
         pk negotiation st
       = (st', inr o).
Proof.
  intros H. split; [| split].
  - apply create_initial_offer_cases in H
      as [[_ [e [=]]] | (vpk & vehicle & c & best0 & rest0 & o' & Ht & _ & _
                          & Hgen & Hrow & _ & _ & [= <-])].
    simpl in Hgen. injection Hgen as <- _. now exists vpk.
  - apply create_initial_offer_cases in H
      as [[_ [e [=]]] | (vpk & vehicle & c & best0 & rest0 & o' & _ & _ & _
                          & _ & _ & _ & -> & [= <-])].
    reflexivity.
  - intros rest'. rewrite <- H. reflexivity.
Qed.

(** The row written differs from the object in memory in its two
    prices at most. *)
Lemma column_form_row n b row :
  column_form n b = inr row ->
  exists price margin, row = set_prices n price margin.
Proof.
  unfold column_form, ebind.
  destruct b.
  - destruct (adapt_decimalfield_value 10 _) as [|price]; [discriminate |].
    destruct (adapt_decimalfield_value 5 _) as [|margin]; [discriminate |].
    intros [= <-]. eauto.
  - intros [= <-]. exists (final_price n), (margin_achieved n). now destruct n.
Qed.

Lemma round_response_row n b d row :
  column_form n b = inr row -> round_response row d = round_response n d.
Proof. intros (price & margin & ->)%column_form_row. reflexivity. Qed.

Lemma row_to_save_inr env n d n' row :
  conclude_if_signalled env n d = inr n' ->
  column_form n' (truthy (dict_get d "should_conclude" (JBool false)))
  = inr row ->
  row_to_save env n d = inr row.
Proof. unfold row_to_save. intros -> H. exact H. Qed.

(** A save of a row as it was read is the write alone. *)
Lemma save_negotiation_as_read env op pk n :
  save_negotiation env op pk n false
  = orm_write env op
      (fun st => with_negotiations st (set_row (negotiations st) pk n)).
Proof. reflexivity. Qed.


Lemma save_negotiation_cases env op pk n b st st' r :
  save_negotiation env op pk n b st = (st', r) ->
  (exists e, column_form n b = inl e /\ st' = st /\ r = inl e)
  \/ (exists row,
        column_form n b = inr row
        /\ orm_write env op
             (fun st => with_negotiations st (set_row (negotiations st) pk row))
             st = (st', r)).
Proof.
  unfold save_negotiation. intros H.
  apply bind_cases in H as [(e & H1 & ->) | (s1 & row & H1 & H)];
    apply lift_cases in H1 as [-> H1]; [left | right]; eauto.
Qed.

(** Every call of [execute_negotiation_round] falls in one of the
    cases of [RoundOutcome]. *)
Lemma execute_round_outcome env pk fb st :
  RoundOutcome env pk fb st
    (execute_negotiation_round env pk fb st).1
    (execute_negotiation_round env pk fb st).2.
Proof.
  destruct (execute_negotiation_round env pk fb st) as [st' r] eqn:H.
  simpl. unfold execute_negotiation_round in H.
  apply bind_cases in H as [(e & H1 & ->) | (s1 & n & H1 & H)];
    apply (objects_get_cases "Negotiation" negotiations) in H1 as [-> H1].
  { destruct H1 as [[[= ->] Hn] | (? & [=] & _)]. now constructor. }
  destruct H1 as [[[=] _] | (? & [= <-] & Hn)].
  destruct (Z.leb_spec (max_rounds n) (negotiation_rounds n)) as [Hmax|Hmax].
  { injection H as <- <-. now apply RoundExhausted with n. }
  apply bind_cases in H as [(e & H1 & ->) | (st1 & o & H1 & H)].
  { now apply RoundNoOffer with n. }
  apply bind_cases in H as [(e & H2 & ->) | (s2 & d & H2 & H)];
    apply lift_cases in H2 as [-> H2].
  { now apply RoundAdvisorRaised with n o. }
  apply bind_cases in H as [(e & H3 & ->) | (s3 & [] & H3 & H)];
    apply orm_write_cases in H3 as [(Hf & -> & E) | (Hf & -> & E)];
    try discriminate E.
  { injection E as ->. now apply RoundRecordRefused with n o d. }
  apply bind_cases in H as [(e & H4 & ->) | (s4 & n' & H4 & H)];
    apply lift_cases in H4 as [-> H4].
  { apply RoundConcludeRaised with o; try easy.
    unfold row_to_save. now rewrite <- H4. }
  symmetry in H4.
  apply bind_cases in H as [(e & H5 & ->) | (s5 & [] & H5 & H)];
    apply save_negotiation_cases in H5
      as [(e' & H4' & -> & E') | (row & H4' & H5)].
  { injection E' as ->. apply RoundConcludeRaised with o; try easy.
    unfold row_to_save. now rewrite H4. }
  { pose proof (row_to_save_inr _ _ _ _ _ H4 H4') as Hrow.
    apply orm_write_cases in H5 as [(Hf' & -> & E') | (Hf' & -> & E')];
      try discriminate E'.
    injection E' as ->. now apply RoundSaveRefused with o row. }
  { discriminate E'. }
  pose proof (row_to_save_inr _ _ _ _ _ H4 H4') as Hrow.
  apply orm_write_cases in H5 as [(Hf' & -> & E') | (Hf' & -> & E')];
    try discriminate E'.
  injection H as <- <-. rewrite <- (round_response_row _ _ d _ H4').
  now apply RoundCommitted with o.
Qed.


(** ** Rows *)

Lemma get_set_row_eq {A : Type} (t : list A) pk row row' :
  get_row t pk = Some row -> get_row (set_row t pk row') pk = Some row'.
Proof.
  destruct pk as [|i]; simpl; [discriminate |].
  intros H. apply list_lookup_insert_eq. now apply lookup_lt_Some with row.
Qed.

Lemma get_set_row_ne {A : Type} (t : list A) pk pk' row' :
  pk <> pk' -> get_row (set_row t pk row') pk' = get_row t pk'.
Proof.
  destruct pk as [|i], pk' as [|j]; simpl; try reflexivity; try congruence.
  intros H. apply list_lookup_insert_ne. congruence.
Qed.

Lemma round_numbers_snoc st pk r :
  round_numbers (with_rounds st (rounds st ++ [r])) pk
  = if decide (r_negotiation r = pk)
    then (round_numbers st pk ++ [round_number r])%list
    else round_numbers st pk.
Proof.
  unfold round_numbers. simpl. rewrite filter_app, fmap_app.
  rewrite filter_cons, filter_nil.
  destruct (decide (r_negotiation r = pk)); simpl;
    [reflexivity | now rewrite app_nil_r].
Qed.

(** ** A round that goes through *)


(** A committed round read back from the outcome of a successful call. *)
Lemma execute_round_success env pk fb st st' res :
  execute_negotiation_round env pk fb st = (st', inr res) ->
  (exists n, get_row (negotiations st) pk = Some n
             /\ (max_rounds n <= negotiation_rounds n)%Z
             /\ st' = st /\ res = max_rounds_reached)
  \/ (exists n st1 o d n',
        get_row (negotiations st) pk = Some n
        /\ (negotiation_rounds n < max_rounds n)%Z
        /\ current_best_offer env pk (next_round n) st = (st1, inr o)
        /\ process_round env (_offer_to_dict o) fb (negotiation_rounds n + 1)
             (max_rounds n) = inr d
        /\ row_to_save env (next_round n) d = inr n'
        /\ st' = with_negotiations
                   (with_rounds st1
                      (rounds st1 ++ [round_record pk (next_round n) fb d]))
                   (set_row (negotiations st1) pk n')
        /\ res = round_response n' d).
Proof.
  intros H. pose proof (execute_round_outcome env pk fb st) as Hout.
  rewrite H in Hout. simpl in Hout.
  inversion Hout; subst.
  - left. exists n. now repeat split.
  - right. exists n, st1, o, d, n'. now repeat split.
Qed.

Lemma conclude_if_signalled_counters env n d n' :
  conclude_if_signalled env n d = inr n' ->
  negotiation_rounds n' = negotiation_rounds n /\ max_rounds n' = max_rounds n.
Proof.
  unfold conclude_if_signalled, ebind.
  destruct (truthy _); [| now intros [= <-]].
  destruct (Decimal_of_str _); [discriminate |].
  destruct (Decimal_of_str _); [discriminate |].
  now intros [= <-].
Qed.

Lemma row_to_save_counters env n d n' :
  row_to_save env n d = inr n' ->
  negotiation_rounds n' = negotiation_rounds n /\ max_rounds n' = max_rounds n.
Proof.
  unfold row_to_save. destruct (conclude_if_signalled env n d) as [e|m] eqn:Hm;
    [discriminate |].
  simpl. intros (price & margin & ->)%column_form_row.
  now apply conclude_if_signalled_counters in Hm.
Qed.


(** ** Failing rounds *)

(** ** Decimal columns *)






Lemma format_number_cases value max_digits :
  ((Z.abs (round_half_even (value * 100)) < 10 ^ max_digits)%Z
   /\ format_number value max_digits = inr (quantize2 value))
  \/ ((10 ^ max_digits <= Z.abs (round_half_even (value * 100)))%Z
      /\ format_number value max_digits = inl InvalidOperation).
Proof.
  unfold format_number.
  destruct (Z.ltb_spec (Z.abs (round_half_even (value * 100))) (10 ^ max_digits));
    [left | right]; now split.
Qed.

(** The row a round saves: the row as read with its counter advanced,
    or the concluded row with the advisor's two numbers in the form of
    their columns. *)
Lemma row_to_save_cases env n d row :
  row_to_save env n d = inr row ->
  (truthy (dict_get d "should_conclude" (JBool false)) = false /\ row = n)
  \/ (truthy (dict_get d "should_conclude" (JBool false)) = true
      /\ exists price margin,
           Decimal_of_str (dict_get d "final_price" (JInt 0)) = inr price
           /\ Decimal_of_str (dict_get d "margin" (JInt 0)) = inr margin
           /\ (Z.abs (round_half_even (price * 100)) < 10 ^ 10)%Z
           /\ (Z.abs (round_half_even (margin * 100)) < 10 ^ 5)%Z
           /\ row = set_concluded n (quantize2 price) (quantize2 margin)
                      (now env)).
Proof.
  unfold row_to_save, conclude_if_signalled, ebind.
  destruct (truthy _) eqn:Htrue.
  - destruct (Decimal_of_str (dict_get d "final_price" _)) as [|price];
      [discriminate |].
    destruct (Decimal_of_str (dict_get d "margin" _)) as [|margin];
      [discriminate |].
    unfold column_form, adapt_decimalfield_value, ebind. simpl.
    destruct (format_number_cases price 10) as [[Hp ->] | [_ ->]];
      [| discriminate].
    destruct (format_number_cases margin 5) as [[Hm ->] | [_ ->]];
      [| discriminate].
    intros [= <-]. right. split; [reflexivity |].
    exists price, margin. now repeat split.
  - intros [= <-]. now left.
Qed.



(** A failing call, case by case. *)
Lemma failed_round_cases env pk fb st e :
  (execute_negotiation_round env pk fb st).2 = inl e ->
  negotiations (execute_negotiation_round env pk fb st).1 = negotiations st
  /\ ((rounds (execute_negotiation_round env pk fb st).1 = rounds st
       /\ forall n o d, ~ record_created env pk fb st n o d)
      \/ exists n o d,
           record_created env pk fb st n o d
           /\ rounds (execute_negotiation_round env pk fb st).1
              = rounds st ++ [round_record pk (next_round n) fb d]
           /\ (row_to_save env (next_round n) d = inl e
               \/ (db_fails env OpSaveNegotiation = true
                   /\ e = DatabaseError))).
Proof.
  destruct (execute_round_outcome env pk fb st)
    as [ Hrow
       | n Hrow Hmax
       | n st1 e' Hrow Hlt Hoffer
       | n st1 o e' Hrow Hlt Hoffer Hadvice
       | n st1 o d Hrow Hlt Hoffer Hadvice Hcreate
       | n st1 o d e' Hrow Hlt Hoffer Hadvice Hcreate Hconclude
       | n st1 o d n' Hrow Hlt Hoffer Hadvice Hcreate Hconclude Hsave
       | n st1 o d n' Hrow Hlt Hoffer Hadvice Hcreate Hconclude Hsave ];
    intros E; try discriminate E; injection E as <-;
    try (pose proof (current_best_offer_same _ _ _ _ _ _ Hoffer)
           as (_ & _ & Hn & Hr & _)).
  - split; [reflexivity |]. left. split; [reflexivity |].
    intros n o d (H & _). congruence.
  - split; [exact Hn |]. left. split; [exact Hr |].
    intros n0 o d (H & _ & [s H1] & _).
    rewrite Hrow in H. injection H as <-. congruence.
  - split; [exact Hn |]. left. split; [exact Hr |].
    intros n0 o0 d (H & _ & [s H1] & H2 & _).
    rewrite Hrow in H. injection H as <-.
    rewrite Hoffer in H1. injection H1 as _ <-. congruence.
  - split; [exact Hn |]. left. split; [exact Hr |].
    intros n0 o0 d0 (_ & _ & _ & _ & H). congruence.
  - split; [exact Hn |]. right. exists n, o, d.
    split; [repeat split; eauto |].
    split; [simpl; now rewrite Hr | now left].
  - split; [exact Hn |]. right. exists n, o, d.
    split; [repeat split; eauto |].
    split; [simpl; now rewrite Hr | right; now split].
Qed.

(** C1. As amended: when [execute_negotiation_round] raises, the
    session row is never modified (the incremented counter, the status
    and the financial fields stay in memory), and the round record is
    persisted exactly when the call got as far as creating it.  When
    the session is found with rounds left, its current offer [o] is
    obtained, the advisor answers [d] on that offer and the insert is
    accepted, the record built from [d], numbered counter + 1, is the
    one row added to the round records and stays there, the exception
    coming from the coercion of final_price or margin, from their
    adaptation to the columns, or from the refused save of the session.
    When the call does not get that far (lookup, offer synthesis,
    advisor, refused insert), no record is written.  The exception
    reaches the caller as raised. *)
Theorem failed_round_persistence env pk fb st st' e :
  execute_negotiation_round env pk fb st = (st', inl e) ->
  negotiations st' = negotiations st
  /\ (forall n o d,
        record_created env pk fb st n o d ->
        rounds st' = rounds st ++ [round_record pk (next_round n) fb d]
        /\ round_number (round_record pk (next_round n) fb d)
           = (negotiation_rounds n + 1)%Z
        /\ (row_to_save env (next_round n) d = inl e
            \/ (db_fails env OpSaveNegotiation = true /\ e = DatabaseError)))
  /\ ((forall n o d, ~ record_created env pk fb st n o d) ->
      rounds st' = rounds st).
Proof.
  intros H. pose proof (failed_round_cases env pk fb st e) as Hcases.
  rewrite H in Hcases. simpl in Hcases.
  destruct Hcases as [Hn [[Hr Hnone] | (n & o & d & Hcreated & Hr & He)]];
    [reflexivity | |]; (split; [exact Hn |]).
  - split; [| intros _; exact Hr].
    intros n o d Hcreated. now destruct (Hnone n o d).
  - split; [| intros Hnone; now destruct (Hnone n o d)].
    intros n0 o0 d0 (Hrow0 & _ & [s0 Hoffer0] & Hadvice0 & _).
    destruct Hcreated as (Hrow & _ & [s Hoffer] & Hadvice & _).
    rewrite Hrow in Hrow0. injection Hrow0 as <-.
    rewrite Hoffer in Hoffer0. injection Hoffer0 as _ <-.
    rewrite Hadvice in Hadvice0. injection Hadvice0 as <-.
    split; [exact Hr |]. split; [reflexivity | exact He].
Qed.

(** ** Concluded sessions *)

(** C2. As amended: the status of a session is not consulted.  For a
    session whose status is [concluded], a call is the no-op returning
    [{'status': 'max_rounds_reached'}] once the round counter has
    reached max_rounds; below max_rounds a call that completes runs one
    more round: the counter is incremented, a round record with the new
    number is appended, and the reported status is ['concluded']. *)
Theorem concluded_session_round env pk fb st n :
  get_row (negotiations st) pk = Some n ->
  status n = concluded ->
  ((max_rounds n <= negotiation_rounds n)%Z ->
     execute_negotiation_round env pk fb st = (st, inr max_rounds_reached))
  /\ ((negotiation_rounds n < max_rounds n)%Z ->
      forall st' res,
        execute_negotiation_round env pk fb st = (st', inr res) ->
        exists n',
          get_row (negotiations st') pk = Some n'
          /\ negotiation_rounds n' = (negotiation_rounds n + 1)%Z
          /\ status n' = concluded
          /\ round_numbers st' pk
             = (round_numbers st pk ++ [negotiation_rounds n + 1]%Z)%list
          /\ res !! "status" = Some (JStr "concluded")).
Proof.
  intros Hrow Hstatus. split.
  - intros Hmax. now apply execute_round_exhausted with n.
  - intros Hlt st' res H.
    apply execute_round_success in H
      as [(n0 & Hrow0 & Hmax & _) | (n0 & st1 & o & d & n' & Hrow0 & _ & Hoffer
                                      & _ & Hconclude & -> & ->)];
      rewrite Hrow in Hrow0; injection Hrow0 as <-; [lia |].
    apply current_best_offer_same in Hoffer as (_ & _ & Hn & Hr & _).
    assert (Hst : status n' = concluded).
    { apply row_to_save_cases in Hconclude
        as [[_ ->] | (_ & price & margin & _ & _ & _ & _ & ->)];
        [exact Hstatus | reflexivity]. }
    exists n'. repeat split.
    + simpl. rewrite Hn. now apply get_set_row_eq with n.
    + now apply row_to_save_counters in Hconclude as [-> _].
    + exact Hst.
    + unfold round_numbers at 1. simpl. rewrite Hr.
      rewrite filter_app, fmap_app, filter_cons, filter_nil. simpl.
      destruct (decide (pk = pk)); [reflexivity | congruence].
    + unfold round_response. rewrite Hst. reflexivity.
Qed.


(** ** Concluding rounds *)




(** ** Created offers *)




(** ** Aggregation of the sources *)



(** The list the function averages is the list of the average prices
    of the sources that answered. *)
Lemma aggregate_market_data_aggregate env mk md y f :
  res_aggregate (aggregate_market_data env mk md y f)
  = match succeeded_sources env mk md y f with
    | [] => None
    | _ :: _ =>
        match omap sd_average_price (succeeded_sources env mk md y f) with
        | [] => None
        | p :: ps =>
            Some (mkdict
              [ ("average_price",
                  JNum (Decimal_truediv (py_sum (p :: ps))
                          (inject_Z (Z.of_nat (length (p :: ps))))));
                ("min_price", JNum (py_min p ps));
                ("max_price", JNum (py_max p ps));
                ("sources_count",
                  JInt (Z.of_nat (length (succeeded_sources env mk md y f)))) ])
        end
    end.
Proof.
  unfold aggregate_market_data, succeeded_sources.
  destruct (scrape_leboncoin env mk md y f), (scrape_webmoteurs env mk md y),
    (scrape_caradisiac env mk md y), (scrape_argus env mk md y);
    repeat match goal with
           | s : SourceData |- _ => destruct s as [? [?|] ? ? ?]
           end;
    reflexivity.
Qed.





(** ** What a call changes *)

Lemma execute_round_change env pk fb st :
  StoreChange false st (execute_negotiation_round env pk fb st).1.
Proof.
  destruct (execute_round_outcome env pk fb st)
    as [ Hrow
       | n Hrow Hmax
       | n st1 e Hrow Hlt Hoffer
       | n st1 o e Hrow Hlt Hoffer Hadvice
       | n st1 o d Hrow Hlt Hoffer Hadvice Hcreate
       | n st1 o d e Hrow Hlt Hoffer Hadvice Hcreate Hconclude
       | n st1 o d n' Hrow Hlt Hoffer Hadvice Hcreate Hconclude Hsave
       | n st1 o d n' Hrow Hlt Hoffer Hadvice Hcreate Hconclude Hsave ];
    try match goal with
        | Hc : current_best_offer _ _ _ _ = _ |- _ =>
            apply current_best_offer_same in Hc as (_ & _ & Hn & Hr & _)
        end.
  - now apply ChangeNone.
  - now apply ChangeNone.
  - now apply ChangeNone.
  - now apply ChangeNone.
  - now apply ChangeNone.
  - apply ChangeRecordOnly with pk n (round_record pk (next_round n) fb d);
      simpl; congruence.
  - apply ChangeRecordOnly with pk n (round_record pk (next_round n) fb d);
      simpl; congruence.
  - apply row_to_save_counters in Hconclude as [Hc Hm].
    simpl in Hc, Hm.
    apply ChangeRound with pk n n' (round_record pk (next_round n) fb d);
      simpl; congruence.
Qed.

Lemma execute_round_change_clean env pk fb st :
  clean_step st (env, ExecuteRound pk fb) ->
  StoreChange true st (execute_negotiation_round env pk fb st).1.
Proof.
  unfold clean_step. simpl.
  destruct (execute_round_outcome env pk fb st)
    as [ Hrow
       | n Hrow Hmax
       | n st1 e Hrow Hlt Hoffer
       | n st1 o e Hrow Hlt Hoffer Hadvice
       | n st1 o d Hrow Hlt Hoffer Hadvice Hcreate
       | n st1 o d e Hrow Hlt Hoffer Hadvice Hcreate Hconclude
       | n st1 o d n' Hrow Hlt Hoffer Hadvice Hcreate Hconclude Hsave
       | n st1 o d n' Hrow Hlt Hoffer Hadvice Hcreate Hconclude Hsave ];
    intros Hclean;
    try match goal with
        | Hc : current_best_offer _ _ _ _ = _ |- _ =>
            apply current_best_offer_same in Hc as (_ & _ & Hn & Hr & _)
        end.
  - now apply ChangeNone.
  - now apply ChangeNone.
  - now apply ChangeNone.
  - now apply ChangeNone.
  - now apply ChangeNone.
  - destruct Hclean as [[res [=]] | Hsame]. simpl in Hsame.
    rewrite Hr in Hsame. apply (f_equal length) in Hsame.
    rewrite length_app in Hsame. simpl in Hsame. lia.
  - destruct Hclean as [[res [=]] | Hsame]. simpl in Hsame.
    rewrite Hr in Hsame. apply (f_equal length) in Hsame.
    rewrite length_app in Hsame. simpl in Hsame. lia.
  - apply row_to_save_counters in Hconclude as [Hc Hm].
    simpl in Hc, Hm.
    apply ChangeRound with pk n n' (round_record pk (next_round n) fb d);
      simpl; congruence.
Qed.


Lemma set_row_last {A : Type} (t : list A) x y :
  set_row (t ++ [x]) (S (length t)) y = t ++ [y].
Proof.
  simpl. rewrite insert_app_r_alt by lia. now rewrite Nat.sub_diag.
Qed.

Lemma session_created_change strict st s pk :
  session_created st s pk -> StoreChange strict st s.
Proof.
  intros (_ & Hr & n0 & Hn & Hc & Hm). now apply ChangeNewSession with n0.
Qed.

Lemma session_created_save env op st s pk n1 s' r :
  session_created st s pk ->
  negotiation_rounds n1 = 0%Z -> max_rounds n1 = 10%Z ->
  save_negotiation env op pk n1 false s = (s', r) ->
  session_created st s' pk.
Proof.
  intros (Hpk & Hr & n0 & Hn & Hc & Hm) Hc1 Hm1 H.
  rewrite save_negotiation_as_read in H.
  apply orm_write_cases in H as [(_ & -> & _) | (_ & -> & _)].
  - split; [exact Hpk |]. split; [exact Hr |]. now exists n0.
  - split; [exact Hpk |]. split; [exact Hr |]. exists n1. simpl.
    rewrite Hn, Hpk. now rewrite set_row_last.
Qed.

Lemma create_negotiation_cases env n st st' r :
  create_negotiation env n st = (st', r) ->
  (st' = st /\ exists e, r = inl e)
  \/ (st' = with_negotiations st (negotiations st ++ [n])
      /\ r = inr (S (length (negotiations st)))).
Proof.
  unfold create_negotiation, bind, read.
  destruct (_ && _).
  - unfold orm_write, raise, write, ret.
    destruct (db_fails env OpCreateNegotiation); intros [= <- <-];
      [left | right]; eauto.
  - intros [= <- <-]. left. eauto.
Qed.

Lemma choose_target_vehicle_created env pk c target n st s s' r :
  session_created st s pk ->
  negotiation_rounds n = 0%Z -> max_rounds n = 10%Z ->
  choose_target_vehicle env pk c target n s = (s', r) ->
  session_created st s' pk
  /\ forall n', r = inr n' ->
                negotiation_rounds n' = 0%Z /\ max_rounds n' = 10%Z.
Proof.
  intros Hs Hc Hm. unfold choose_target_vehicle.
  assert (Hfind :
    (do s0 <- read ;
     match _find_suitable_vehicle s0 c with
     | Some v =>
         do_ save_negotiation env OpSaveTargetVehicle pk
               (set_target_vehicle n (Some v)) false ;
         ret (set_target_vehicle n (Some v))
     | None => ret n
     end) s = (s', r) ->
    session_created st s' pk
    /\ forall n', r = inr n' ->
                  negotiation_rounds n' = 0%Z /\ max_rounds n' = 10%Z).
  { unfold bind at 1, read.
    destruct (_find_suitable_vehicle s c) as [v|].
    - intros H.
      apply bind_cases in H as [(e & H1 & ->) | (s1 & [] & H1 & H)];
        apply session_created_save with (st := st) in H1; auto.
      + split; [exact H1 | discriminate].
      + injection H as <- <-. split; [exact H1 |]. now intros n' [= <-].
    - intros [= <- <-]. split; [exact Hs |]. now intros n' [= <-]. }
  destruct target as [[|v]|]; [exact Hfind | | exact Hfind].
  intros [= <- <-]. split; [exact Hs |]. now intros n' [= <-].
Qed.

Lemma analyse_trade_in_store env n s s' r :
  analyse_trade_in env n s = (s', r) ->
  s' = s
  /\ forall n', r = inr n' ->
                negotiation_rounds n' = negotiation_rounds n
                /\ max_rounds n' = max_rounds n.
Proof.
  unfold analyse_trade_in. destruct (trade_in_vehicle n) as [vpk|].
  2:{ intros [= <- <-]. split; [reflexivity |]. now intros n' [= <-]. }
  intros H.
  apply bind_cases in H as [(e & H1 & ->) | (s1 & v & H1 & H)];
    apply (objects_get_cases "Vehicle" vehicles) in H1 as [-> _].
  { split; [reflexivity | discriminate]. }
  apply bind_cases in H as [(e & H2 & ->) | (s1 & market & H2 & H)];
    apply get_or_scrape_store in H2 as ->.
  { split; [reflexivity | discriminate]. }
  injection H as <- <-. split; [reflexivity |]. now intros n' [= <-].
Qed.

Lemma trade_in_dict_store n s s' r : trade_in_dict n s = (s', r) -> s' = s.
Proof.
  unfold trade_in_dict. destruct (trade_in_vehicle n) as [vpk|].
  2:{ now intros [= <- _]. }
  intros H.
  apply bind_cases in H as [(e & H1 & ->) | (s1 & v & H1 & H)];
    apply (objects_get_cases "Vehicle" vehicles) in H1 as [-> _];
    [reflexivity |].
  now injection H as <- _.
Qed.

(** [initiate_negotiation] adds at most one session, at round 0 of 10,
    and no round record. *)
Lemma initiate_negotiation_change strict env c t g m st :
  StoreChange strict st (initiate_negotiation env c t g m st).1.
Proof.
  destruct (initiate_negotiation env c t g m st) as [st' r] eqn:H. simpl.
  unfold initiate_negotiation in H.
  apply bind_cases in H as [(e & H1 & ->) | (s1 & cl & H1 & H)];
    apply (objects_get_cases "Client" clients) in H1 as [-> _].
  { now apply ChangeNone. }
  apply bind_cases in H as [(e & H2 & ->) | (s1 & pk & H2 & H)];
    apply create_negotiation_cases in H2 as [[-> [e' E]] | [-> E]];
    try discriminate E.
  { now apply ChangeNone. }
  injection E as ->.
  assert (Hs : session_created st
                 (with_negotiations st (negotiations st ++ [new_negotiation c t g]))
                 (S (length (negotiations st)))).
  { split; [reflexivity |]. split; [reflexivity |]. now eexists. }
  apply bind_cases in H as [(e & H3 & ->) | (s2 & n2 & H3 & H)];
    apply choose_target_vehicle_created with (st := st) in H3
      as [Hs2 Hn2]; auto.
  { now apply session_created_change with (S (length (negotiations st))). }
  destruct (Hn2 _ eq_refl) as [Hc2 Hm2].
  apply bind_cases in H as [(e & H4 & ->) | (s3 & n3 & H4 & H)];
    apply analyse_trade_in_store in H4 as [-> Hn3].
  { now apply session_created_change with (S (length (negotiations st))). }
  destruct (Hn3 _ eq_refl) as [Hc3 Hm3].
  apply bind_cases in H as [(e & H5 & ->) | (s4 & d & H5 & H)];
    apply trade_in_dict_store in H5 as ->.
  { now apply session_created_change with (S (length (negotiations st))). }
  apply bind_cases in H as [(e & H6 & ->) | (s5 & strategy & H6 & H)];
    apply lift_cases in H6 as [-> _].
  { now apply session_created_change with (S (length (negotiations st))). }
  apply bind_cases in H as [(e & H7 & ->) | (s6 & [] & H7 & H)];
    apply session_created_save with (st := st) in H7; auto;
    try (simpl; congruence).
  { now apply session_created_change with (S (length (negotiations st))). }
  injection H as <- _.
  now apply session_created_change with (S (length (negotiations st))).
Qed.

Lemma step_change st ec : StoreChange false st (step st ec).
Proof.
  unfold step. destruct ec as [env [c t g m | pk fb]]; simpl.
  - apply initiate_negotiation_change.
  - apply execute_round_change.
Qed.

Lemma step_change_clean st ec :
  clean_step st ec -> StoreChange true st (step st ec).
Proof.
  unfold step. destruct ec as [env [c t g m | pk fb]]; simpl.
  - intros _. apply initiate_negotiation_change.
  - apply execute_round_change_clean.
Qed.


(** ** Numbering of the round records *)

Lemma numbering_ok_nil : numbering_ok [] 0.
Proof.
  split; [constructor |]. split.
  - intros x Hx. now apply elem_of_nil in Hx.
  - intros k Hk. lia.
Qed.

Lemma numbering_ok_pending nums c :
  (0 <= c)%Z -> numbering_ok nums c -> numbering_ok (nums ++ [(c + 1)%Z]) c.
Proof.
  intros Hc (Hsorted & Hrange & Hall). split; [| split].
  - apply StronglySorted_app. split; [| split; [exact Hsorted |]].
    + intros x y Hx ->%list_elem_of_singleton. apply Hrange in Hx. lia.
    + repeat constructor.
  - intros x [Hx | ->%list_elem_of_singleton]%elem_of_app;
      [now apply Hrange | lia].
  - intros k Hk. apply elem_of_app. left. now apply Hall.
Qed.

Lemma numbering_ok_commit nums c :
  (0 <= c)%Z -> numbering_ok nums c ->
  numbering_ok (nums ++ [(c + 1)%Z]) (c + 1).
Proof.
  intros Hc (Hsorted & Hrange & Hall). split; [| split].
  - apply StronglySorted_app. split; [| split; [exact Hsorted |]].
    + intros x y Hx ->%list_elem_of_singleton. apply Hrange in Hx. lia.
    + repeat constructor.
  - intros x [Hx | ->%list_elem_of_singleton]%elem_of_app;
      [apply Hrange in Hx |]; lia.
  - intros k Hk. apply elem_of_app.
    destruct (decide (k = c + 1)%Z) as [-> | Hne].
    + right. now left.
    + left. apply Hall. lia.
Qed.

Lemma round_numbers_same st st' pk :
  rounds st' = rounds st -> round_numbers st' pk = round_numbers st pk.
Proof. unfold round_numbers. now intros ->. Qed.

Lemma round_numbers_added st st' r pk :
  rounds st' = rounds st ++ [r] ->
  round_numbers st' pk
  = if decide (r_negotiation r = pk)
    then round_numbers st pk ++ [round_number r]
    else round_numbers st pk.
Proof.
  intros H. rewrite <- round_numbers_snoc. now apply round_numbers_same.
Qed.

Lemma get_row_snoc {A : Type} (t : list A) x pk row :
  get_row (t ++ [x]) pk = Some row <->
  get_row t pk = Some row \/ (pk = S (length t) /\ row = x).
Proof.
  destruct pk as [|i]; simpl.
  - split; [discriminate | intros [[=] | [[=] _]]].
  - rewrite lookup_snoc_Some. split.
    + intros [[_ H] | [-> ->]]; [now left | now right].
    + intros [H | [[= ->] ->]]; [left | now right].
      split; [| exact H]. now apply lookup_lt_Some with row.
Qed.

Lemma get_row_lt {A : Type} (t : list A) pk row :
  get_row t pk = Some row -> pk <= length t.
Proof.
  destruct pk as [|i]; simpl; [discriminate |].
  intros H%lookup_lt_Some. lia.
Qed.

Lemma get_set_row {A : Type} (t : list A) pk pk' row row' old :
  get_row t pk = Some old ->
  get_row (set_row t pk row') pk' = Some row ->
  (pk' = pk /\ row = row') \/ (pk' <> pk /\ get_row t pk' = Some row).
Proof.
  intros Hold H. destruct (decide (pk' = pk)) as [-> | Hne].
  - left. rewrite (get_set_row_eq _ _ _ _ Hold) in H. now injection H as <-.
  - right. rewrite get_set_row_ne in H by congruence. now split.
Qed.

(** No round record belongs to a session that does not exist yet. *)
Lemma round_numbers_unborn st pk :
  (forall r, r ∈ rounds st ->
             is_Some (get_row (negotiations st) (r_negotiation r))) ->
  length (negotiations st) < pk ->
  round_numbers st pk = [].
Proof.
  intros Hfk Hpk. unfold round_numbers.
  destruct (filter (fun r => r_negotiation r = pk) (rounds st)) as [|r l] eqn:E;
    [reflexivity |].
  assert (Hr : r ∈ filter (fun r => r_negotiation r = pk) (rounds st))
    by (rewrite E; left).
  apply list_elem_of_filter in Hr as [<- Hr].
  apply Hfk in Hr as [row Hrow%get_row_lt]. lia.
Qed.


(** ** The invariants along a sequence of calls *)

Lemma change_consistent st st' :
  consistent st -> StoreChange false st st' -> consistent st'.
Proof.
  intros [Hbound Hfk Hnum]
    [ Hn Hr
    | n0 Hn Hc0 Hm0 Hr
    | pk n r _ Hrow Hlt Hn Hr Hpk Hnr
    | pk n n' r Hrow Hlt Hn Hc' Hm' Hr Hpk Hnr ].
  - split.
    + intros pk n. rewrite Hn. apply Hbound.
    + intros r. rewrite Hn, Hr. apply Hfk.
    + intros pk n. rewrite Hn, (round_numbers_same _ _ _ Hr). apply Hnum.
  - split.
    + intros pk n. rewrite Hn.
      intros [H | [_ ->]]%get_row_snoc; [now apply Hbound with pk | lia].
    + intros r. rewrite Hn, Hr. intros [row Hrow]%Hfk.
      exists row. apply get_row_snoc. now left.
    + intros pk n. rewrite Hn, (round_numbers_same _ _ _ Hr).
      intros [H | [-> ->]]%get_row_snoc; [now apply Hnum |].
      rewrite round_numbers_unborn by (auto; lia).
      rewrite Hc0. apply numbering_ok_nil.
  - split.
    + intros pk' n'. rewrite Hn. apply Hbound.
    + intros r'. rewrite Hn, Hr.
      intros [H | ->%list_elem_of_singleton]%elem_of_app;
        [now apply Hfk | now rewrite Hpk, Hrow].
    + intros pk' n'. rewrite Hn, (round_numbers_added _ _ _ _ Hr). intros Hrow'.
      destruct (decide (r_negotiation r = pk')) as [E | E]; [| now apply Hnum].
      rewrite Hpk in E. subst pk'. rewrite Hrow in Hrow'. injection Hrow' as <-.
      rewrite Hnr. apply numbering_ok_pending; [| now apply Hnum].
      now apply Hbound in Hrow.
  - pose proof (Hbound _ _ Hrow) as Hb. split.
    + intros pk' m. rewrite Hn.
      intros [[-> ->] | [_ H]]%(get_set_row _ _ _ _ _ n); auto;
        [lia | now apply Hbound with pk'].
    + intros r'. rewrite Hn, Hr. intros Hin.
      assert (Hold : is_Some (get_row (negotiations st) (r_negotiation r'))).
      { apply elem_of_app in Hin as [H | ->%list_elem_of_singleton];
          [now apply Hfk | now rewrite Hpk, Hrow]. }
      destruct (decide (pk = r_negotiation r')) as [<- | Hne].
      * rewrite (get_set_row_eq _ _ _ _ Hrow). now eexists.
      * now rewrite get_set_row_ne.
    + intros pk' m. rewrite Hn, (round_numbers_added _ _ _ _ Hr).
      intros [[-> ->] | [Hne H]]%(get_set_row _ _ _ _ _ n); auto.
      * destruct (decide (r_negotiation r = pk)) as [_ | E]; [| congruence].
        rewrite Hnr, Hc'. apply numbering_ok_commit; [lia | now apply Hnum].
      * destruct (decide (r_negotiation r = pk')) as [E | _]; [congruence |].
        now apply Hnum.
Qed.

Lemma change_grows strict st st' : StoreChange strict st st' -> grows st st'.
Proof.
  intros [ Hn Hr
         | n0 Hn Hc0 Hm0 Hr
         | pk n r _ Hrow Hlt Hn Hr Hpk Hnr
         | pk n n' r Hrow Hlt Hn Hc' Hm' Hr Hpk Hnr ] pk' m Hm.
  - exists m. rewrite Hn. split; [exact Hm | split; [lia | reflexivity]].
  - exists m. rewrite Hn. split; [| split; [lia | reflexivity]].
    apply get_row_snoc. now left.
  - exists m. rewrite Hn. split; [exact Hm | split; [lia | reflexivity]].
  - rewrite Hn. destruct (decide (pk = pk')) as [<- | Hne].
    + rewrite Hrow in Hm. injection Hm as <-. exists n'.
      split; [now apply get_set_row_eq with n | split; [lia | exact Hm']].
    + exists m. rewrite get_set_row_ne by exact Hne.
      split; [exact Hm | split; [lia | reflexivity]].
Qed.

Lemma change_exact st st' :
  consistent st -> rounds_exact st -> StoreChange true st st' -> rounds_exact st'.
Proof.
  intros [Hbound Hfk _] Hexact
    [ Hn Hr
    | n0 Hn Hc0 Hm0 Hr
    | pk n r [=]
    | pk n n' r Hrow Hlt Hn Hc' Hm' Hr Hpk Hnr ] pk' m.
  - rewrite Hn, (round_numbers_same _ _ _ Hr). apply Hexact.
  - rewrite Hn, (round_numbers_same _ _ _ Hr).
    intros [H | [-> ->]]%get_row_snoc; [now apply Hexact |].
    rewrite round_numbers_unborn by (auto; lia).
    rewrite Hc0. reflexivity.
  - rewrite Hn, (round_numbers_added _ _ _ _ Hr).
    intros [[-> ->] | [Hne H]]%(get_set_row _ _ _ _ _ n); auto.
    + destruct (decide (r_negotiation r = pk)) as [_ | E]; [| congruence].
      pose proof (Hbound _ _ Hrow) as Hb.
      rewrite Hnr, Hc', (Hexact _ _ Hrow).
      rewrite seqZ_app by lia. f_equal.
      unfold seqZ. simpl. f_equal. lia.
    + destruct (decide (r_negotiation r = pk')) as [E | _]; [congruence |].
      now apply Hexact.
Qed.

Lemma grows_refl st : grows st st.
Proof. intros pk n H. exists n. split; [exact H | split; [lia | reflexivity]]. Qed.

Lemma grows_trans st1 st2 st3 : grows st1 st2 -> grows st2 st3 -> grows st1 st3.
Proof.
  intros H12 H23 pk n H.
  destruct (H12 _ _ H) as (n2 & H2 & Hc2 & Hm2).
  destruct (H23 _ _ H2) as (n3 & H3 & Hc3 & Hm3).
  exists n3. split; [exact H3 | split; [lia | congruence]].
Qed.

Lemma run_consistent calls st : consistent st -> consistent (run st calls).
Proof.
  revert st. induction calls as [|ec calls IH]; intros st Hst; [exact Hst |].
  apply IH, change_consistent with st; [exact Hst | apply step_change].
Qed.

Lemma run_grows calls st : grows st (run st calls).
Proof.
  revert st. induction calls as [|ec calls IH]; intros st; [apply grows_refl |].
  apply grows_trans with (step st ec); [| apply IH].
  apply change_grows with false, step_change.
Qed.

Lemma run_exact calls st :
  consistent st -> rounds_exact st -> clean_run st calls ->
  rounds_exact (run st calls).
Proof.
  revert st. induction calls as [|ec calls IH]; intros st Hst Hexact Hclean;
    [exact Hexact |].
  destruct Hclean as [Hstep Hclean]. apply IH.
  - apply change_consistent with st; [exact Hst | apply step_change].
  - apply change_exact with st; [exact Hst | exact Hexact |].
    now apply step_change_clean.
  - exact Hclean.
Qed.

Lemma consistent_without_session st :
  negotiations st = [] -> rounds st = [] -> consistent st /\ rounds_exact st.
Proof.
  intros Hn Hr. split; [split |].
  - intros pk n. rewrite Hn. now destruct pk as [|[|i]].
  - intros r. rewrite Hr. now intros ?%elem_of_nil.
  - intros pk n. rewrite Hn. now destruct pk as [|[|i]].
  - intros pk n. rewrite Hn. now destruct pk as [|[|i]].
Qed.

(** C3. As amended: from a store without sessions, after any sequence
    of initiate and executeRound calls, every session has a persisted
    round counter between 0 and max_rounds; further calls keep every
    session, with the same max_rounds and a counter that does not
    decrease; the round numbers of a session, in creation order, never
    decrease, contain every number from 1 to the counter and nothing
    outside 1 .. counter + 1; and when no call of the sequence raised
    after creating its round record they are exactly 1, 2, ..., counter. *)
Theorem round_counter_and_numbering st0 calls :
  negotiations st0 = [] -> rounds st0 = [] ->
  (forall pk n, get_row (negotiations (run st0 calls)) pk = Some n ->
     (0 <= negotiation_rounds n <= max_rounds n)%Z)
  /\ (forall more, grows (run st0 calls) (run st0 (calls ++ more)))
  /\ (forall pk n, get_row (negotiations (run st0 calls)) pk = Some n ->
        numbering_ok (round_numbers (run st0 calls) pk) (negotiation_rounds n))
  /\ (clean_run st0 calls ->
      forall pk n, get_row (negotiations (run st0 calls)) pk = Some n ->
        round_numbers (run st0 calls) pk = seqZ 1 (negotiation_rounds n)).
Proof.
  intros Hn Hr.
  destruct (consistent_without_session st0 Hn Hr) as [H0 Hexact0].
  pose proof (run_consistent calls st0 H0) as [Hbound _ Hnum].
  split; [exact Hbound |]. split; [| split; [exact Hnum |]].
  - intros more. unfold run. rewrite foldl_app. apply run_grows.
  - intros Hclean. now apply run_exact.
Qed.

(** * Further properties *)

(** ** The market-data cache *)

Lemma timedelta_days_fresh d :
  (timedelta_days d <? 1)%Z = true <-> (d < 86400)%Z.
Proof.
  unfold timedelta_days. rewrite Z.ltb_lt.
  split; intros H; Z.div_mod_to_equations; lia.
Qed.

(** X1. A cached entry is served, unchanged and without any write,
    exactly when it is less than 86400 seconds old (an entry dated in
    the future counts as fresh); an older entry is never served: the
    call then ends with the fallback or with the KeyError of the
    refresh. *)
Theorem cache_entry_served_iff_fresh env vehicle st md :
  market_data st !! vehicle_key vehicle = Some md ->
  ((now env - last_updated md < 86400)%Z ->
     _get_or_scrape_market_data env vehicle st
     = (st, inr (_market_data_to_dict md)))
  /\ ((86400 <= now env - last_updated md)%Z ->
      _get_or_scrape_market_data env vehicle st
      = (st, inr (fallback_market_data vehicle))
      \/ _get_or_scrape_market_data env vehicle st
         = (st, inl (KeyError "listings_count"))).
Proof.
  intros Hmd. unfold _get_or_scrape_market_data, bind, read. rewrite Hmd.
  split; intros Hage.
  - apply timedelta_days_fresh in Hage. now rewrite Hage.
  - destruct (timedelta_days (now env - last_updated md) <? 1)%Z eqn:E.
    + apply timedelta_days_fresh in E. lia.
    + apply scrape_market_data_outcome.
Qed.

Lemma stale_cache_scrapes env vehicle st :
  (forall md, market_data st !! vehicle_key vehicle = Some md ->
              (86400 <= now env - last_updated md)%Z) ->
  _get_or_scrape_market_data env vehicle st = scrape_market_data env vehicle st.
Proof.
  intros Hstale. unfold _get_or_scrape_market_data, bind, read.
  destruct (market_data st !! vehicle_key vehicle) as [md|] eqn:Hmd;
    [| reflexivity].
  destruct (timedelta_days (now env - last_updated md) <? 1)%Z eqn:E;
    [| reflexivity].
  apply timedelta_days_fresh in E. specialize (Hstale md eq_refl). lia.
Qed.

Lemma scrape_market_data_with_source env vehicle st p ps :
  omap sd_average_price
    (succeeded_sources env (make vehicle) (model vehicle) (year vehicle)
       (fuel_type vehicle))
  = p :: ps ->
  scrape_market_data env vehicle st = (st, inl (KeyError "listings_count")).
Proof.
  intros Hprices. unfold scrape_market_data.
  rewrite aggregate_market_data_aggregate, Hprices.
  destruct (succeeded_sources _ _ _ _ _) as [|s srcs]; [discriminate |].
  reflexivity.
Qed.

(** X2. Without a fresh cache entry, as soon as one source that
    answered reports an average price the call raises
    KeyError('listings_count') and writes nothing: the refreshed
    figures never reach the cache nor the caller. *)
Theorem refresh_with_a_source_raises env vehicle st p ps :
  (forall md, market_data st !! vehicle_key vehicle = Some md ->
              (86400 <= now env - last_updated md)%Z) ->
  omap sd_average_price
    (succeeded_sources env (make vehicle) (model vehicle) (year vehicle)
       (fuel_type vehicle))
  = p :: ps ->
  _get_or_scrape_market_data env vehicle st
  = (st, inl (KeyError "listings_count")).
Proof.
  intros Hstale Hprices. rewrite stale_cache_scrapes by exact Hstale.
  now apply scrape_market_data_with_source with p ps.
Qed.

(** ** The aggregate *)





(** X4. The result of [aggregate_market_data] lists exactly the
    sources that answered, each under the name of the site it was
    asked from and in the order leboncoin, webmoteurs, caradisiac,
    argus; it has an aggregate exactly when one of them reports an
    average price, and the aggregate's sources_count counts every
    source that answered, also those without an average price. *)
Theorem aggregate_sources_listed env mk md y f :
  (res_sources (aggregate_market_data env mk md y f)).*2
  = succeeded_sources env mk md y f
  /\ sublist (res_sources (aggregate_market_data env mk md y f)).*1
       ["leboncoin"; "webmoteurs"; "caradisiac"; "argus"]
  /\ (forall name data,
        (name, data) ∈ res_sources (aggregate_market_data env mk md y f)
        <-> (name = "leboncoin" /\ scrape_leboncoin env mk md y f = Some data)
            \/ (name = "webmoteurs" /\ scrape_webmoteurs env mk md y = Some data)
            \/ (name = "caradisiac" /\ scrape_caradisiac env mk md y = Some data)
            \/ (name = "argus" /\ scrape_argus env mk md y = Some data))
  /\ (is_Some (res_aggregate (aggregate_market_data env mk md y f))
      <-> omap sd_average_price (succeeded_sources env mk md y f) <> [])
  /\ (forall agg,
        res_aggregate (aggregate_market_data env mk md y f) = Some agg ->
        agg !! "sources_count"
        = Some (JInt (Z.of_nat (length (succeeded_sources env mk md y f))))).
Proof.
  split; [| split; [| split; [| split]]].
  - unfold aggregate_market_data, succeeded_sources. simpl.
    destruct (scrape_leboncoin env mk md y f), (scrape_webmoteurs env mk md y),
      (scrape_caradisiac env mk md y), (scrape_argus env mk md y); reflexivity.
  - unfold aggregate_market_data. simpl.
    destruct (scrape_leboncoin env mk md y f), (scrape_webmoteurs env mk md y),
      (scrape_caradisiac env mk md y), (scrape_argus env mk md y); simpl;
      repeat first [apply sublist_nil | apply sublist_skip | apply sublist_cons
                    | apply sublist_nil_l ].
  - intros name data. unfold aggregate_market_data. cbn [res_sources].
    rewrite list_elem_of_omap. split.
    + intros ([nm [d|]] & Hin & Heq); simpl in Heq; [| discriminate].
      injection Heq as -> ->.
      rewrite !elem_of_cons, elem_of_nil in Hin.
      destruct Hin
        as [[= -> <-] | [[= -> <-] | [[= -> <-] | [[= -> <-] | []]]]];
        auto 10.
    + intros [[-> H] | [[-> H] | [[-> H] | [-> H]]]];
        eexists (_, Some data);
        (split; [rewrite <- H, !elem_of_cons; auto 10 | reflexivity]).
  - rewrite aggregate_market_data_aggregate.
    destruct (succeeded_sources env mk md y f) as [|s srcs].
    + simpl. split; [intros [? [=]] | congruence].
    + destruct (omap sd_average_price (s :: srcs)) as [|p ps].
      * split; [intros [? [=]] | congruence].
      * split; [discriminate | eauto].
  - intros agg. rewrite aggregate_market_data_aggregate.
    destruct (succeeded_sources env mk md y f) as [|s srcs]; [discriminate |].
    destruct (omap sd_average_price (s :: srcs)) as [|p ps]; [discriminate |].
    now intros [= <-].
Qed.

(** X5. [_get_fuel_code] gives the four known fuels the distinct codes
    1 to 4 and every other text, the empty one included, the code 0. *)
Theorem fuel_code_zero_iff_unknown fuel :
  (_get_fuel_code fuel = "0"
   <-> fuel <> "essence" /\ fuel <> "diesel" /\ fuel <> "hybride"
       /\ fuel <> "electrique")
  /\ (_get_fuel_code fuel = "1" <-> fuel = "essence")
  /\ (_get_fuel_code fuel = "2" <-> fuel = "diesel")
  /\ (_get_fuel_code fuel = "3" <-> fuel = "hybride")
  /\ (_get_fuel_code fuel = "4" <-> fuel = "electrique").
Proof.
  unfold _get_fuel_code.
  destruct (decide (fuel = "electrique")) as [-> | H4];
    [repeat split; try discriminate; try reflexivity; intros; tauto |].
  rewrite lookup_insert_ne by congruence.
  destruct (decide (fuel = "hybride")) as [-> | H3];
    [repeat split; try discriminate; try reflexivity; intros; tauto |].
  rewrite lookup_insert_ne by congruence.
  destruct (decide (fuel = "diesel")) as [-> | H2];
    [repeat split; try discriminate; try reflexivity; intros; tauto |].
  rewrite lookup_insert_ne by congruence.
  destruct (decide (fuel = "essence")) as [-> | H1];
    [repeat split; try discriminate; try reflexivity; intros; tauto |].
  rewrite lookup_insert_ne by congruence.
  rewrite lookup_empty. simpl.
  repeat split; try discriminate; try reflexivity; intros; try tauto;
    try congruence.
Qed.

(** ** The choice of a target vehicle *)

Lemma filter_filter_and {A : Type} (f g : A -> bool) (l : list A) :
  List.filter g (List.filter f l) = List.filter (fun x => f x && g x) l.
Proof.
  induction l as [|x l IH]; simpl; [reflexivity |].
  destruct (f x); simpl; [destruct (g x) |]; now rewrite IH.
Qed.

Lemma find_suitable_vehicle_filter st c :
  _find_suitable_vehicle st c
  = fst <$> last (List.filter (fun pv : nat * Vehicle => suits c pv.2)
                    (imap (fun i v => (S i, v)) (vehicles st))).
Proof.
  unfold _find_suitable_vehicle. do 2 f_equal.
  set (q0 := imap (fun i v => (S i, v)) (vehicles st)).
  assert (Hstep : forall (f g : nat * Vehicle -> bool) (b : bool) l,
            (if b then List.filter g (List.filter f l) else List.filter f l)
            = List.filter (fun x => f x && (negb b || g x)) l).
  { intros f g b l. destruct b; simpl.
    - apply filter_filter_and.
    - apply List.filter_ext. intros x. now rewrite andb_true_r. }
  rewrite Hstep.
  rewrite (Hstep _
    (fun pv : nat * Vehicle =>
       String.eqb (transmission pv.2) (preferred_transmission c))).
  assert (Hbudget :
    forall l : list (nat * Vehicle),
      match budget_min c, budget_max c with
      | Some lo, Some hi =>
          if negb (Qeq_bool lo 0) && negb (Qeq_bool hi 0)
          then List.filter
                 (fun pv : nat * Vehicle =>
                    Qle_bool lo (current_market_value pv.2)
                    && Qle_bool (current_market_value pv.2) hi) l
          else l
      | _, _ => l
      end
      = List.filter
          (fun pv : nat * Vehicle =>
             match budget_min c, budget_max c with
             | Some lo, Some hi =>
                 if negb (Qeq_bool lo 0) && negb (Qeq_bool hi 0)
                 then Qle_bool lo (current_market_value pv.2)
                      && Qle_bool (current_market_value pv.2) hi
                 else true
             | _, _ => true
             end) l).
  { intros l. destruct (budget_min c) as [lo|], (budget_max c) as [hi|];
      try (now rewrite List.filter_true).
    destruct (negb (Qeq_bool lo 0) && negb (Qeq_bool hi 0));
      [reflexivity | now rewrite List.filter_true]. }
  rewrite Hbudget, filter_filter_and.
  apply List.filter_ext. intros [pk v]. unfold suits. simpl.
  rewrite !negb_involutive. reflexivity.
Qed.

Lemma newest_snoc {A : Type} (f : A -> bool) (l : list A) x :
  fst <$> last (List.filter (fun pv : nat * A => f pv.2)
                  (imap (fun i v => (S i, v)) (l ++ [x])))
  = if f x then Some (S (length l))
    else fst <$> last (List.filter (fun pv : nat * A => f pv.2)
                         (imap (fun i v => (S i, v)) l)).
Proof.
  rewrite imap_app, List.filter_app. simpl. rewrite Nat.add_0_r.
  destruct (f x).
  - now rewrite last_snoc.
  - now rewrite app_nil_r.
Qed.

Lemma newest_spec {A : Type} (f : A -> bool) (l : list A) :
  match fst <$> last (List.filter (fun pv : nat * A => f pv.2)
                        (imap (fun i v => (S i, v)) l)) with
  | Some pk =>
      exists v, get_row l pk = Some v /\ f v = true
                /\ forall pk' v', pk < pk' -> get_row l pk' = Some v' ->
                                  f v' = false
  | None => forall pk v, get_row l pk = Some v -> f v = false
  end.
Proof.
  induction l as [|x l IH] using rev_ind.
  - simpl. intros [|[|pk]] v; discriminate.
  - rewrite newest_snoc. destruct (f x) eqn:Hx.
    + exists x. split; [apply get_row_snoc; now right |]. split; [exact Hx |].
      intros pk' v' Hlt [H%get_row_lt | [-> _]]%get_row_snoc; lia.
    + destruct (fst <$> last _) as [pk|].
      * destruct IH as (v & Hv & Hf & Hnewer). exists v.
        split; [apply get_row_snoc; now left |]. split; [exact Hf |].
        intros pk' v' Hlt [H | [_ ->]]%get_row_snoc; [eauto | exact Hx].
      * intros pk v [H | [_ ->]]%get_row_snoc; [eauto | exact Hx].
Qed.

Lemma suits_true c v :
  suits c v = true <->
  in_stock v = true
  /\ (preferred_fuel c <> EmptyString -> fuel_type v = preferred_fuel c)
  /\ (preferred_transmission c <> EmptyString ->
      transmission v = preferred_transmission c)
  /\ (forall lo hi, budget_min c = Some lo -> budget_max c = Some hi ->
        ~ (lo == 0)%Q -> ~ (hi == 0)%Q ->
        (lo <= current_market_value v)%Q /\ (current_market_value v <= hi)%Q).
Proof.
  unfold suits. rewrite !andb_true_iff, !orb_true_iff, !String.eqb_eq.
  split.
  - intros [[[Hs Hf] Ht] Hb]. split; [exact Hs |]. split; [| split].
    + intros Hne. destruct Hf; congruence.
    + intros Hne. destruct Ht; congruence.
    + intros lo hi Hlo Hhi Hl Hh. rewrite Hlo, Hhi in Hb.
      destruct (Qeq_bool lo 0) eqn:El; [apply Qeq_bool_iff in El; tauto |].
      destruct (Qeq_bool hi 0) eqn:Eh; [apply Qeq_bool_iff in Eh; tauto |].
      simpl in Hb. apply andb_true_iff in Hb as [H1 H2].
      now rewrite <- !Qle_bool_iff.
  - intros (Hs & Hf & Ht & Hb). split; [split; [split |] |].
    + exact Hs.
    + destruct (decide (preferred_fuel c = EmptyString)); [now left | right; auto].
    + destruct (decide (preferred_transmission c = EmptyString));
        [now left | right; auto].
    + destruct (budget_min c) as [lo|], (budget_max c) as [hi|]; try reflexivity.
      destruct (Qeq_bool lo 0) eqn:El; [reflexivity |].
      destruct (Qeq_bool hi 0) eqn:Eh; [reflexivity |].
      simpl. destruct (Hb lo hi eq_refl eq_refl) as [H1 H2].
      * intros H%Qeq_bool_iff. congruence.
      * intros H%Qeq_bool_iff. congruence.
      * apply andb_true_iff. now rewrite !Qle_bool_iff.
Qed.

(** X6. The vehicle [_find_suitable_vehicle] returns is a stored
    vehicle that is in stock, has the client's preferred fuel and
    transmission when the client states one, and is priced within the
    budget when both bounds are set and not zero; and it is the newest
    such vehicle: none with a larger primary key meets the criteria. *)
Theorem suitable_vehicle_is_newest_match st c pk :
  _find_suitable_vehicle st c = Some pk ->
  exists v,
    get_row (vehicles st) pk = Some v
    /\ in_stock v = true
    /\ (preferred_fuel c <> EmptyString -> fuel_type v = preferred_fuel c)
    /\ (preferred_transmission c <> EmptyString ->
        transmission v = preferred_transmission c)
    /\ (forall lo hi, budget_min c = Some lo -> budget_max c = Some hi ->
          ~ (lo == 0)%Q -> ~ (hi == 0)%Q ->
          (lo <= current_market_value v)%Q /\ (current_market_value v <= hi)%Q)
    /\ forall pk' v', pk < pk' -> get_row (vehicles st) pk' = Some v' ->
                      suits c v' = false.
Proof.
  rewrite find_suitable_vehicle_filter. intros H.
  pose proof (newest_spec (suits c) (vehicles st)) as Hspec.
  rewrite H in Hspec. destruct Hspec as (v & Hv & Hs & Hnewer).
  apply suits_true in Hs as (H1 & H2 & H3 & H4).
  exists v. repeat split; auto; now apply (H4 lo hi).
Qed.

(** X7. [_find_suitable_vehicle] returns nothing exactly when no stored
    vehicle meets the criteria. *)
Theorem no_suitable_vehicle_iff st c :
  _find_suitable_vehicle st c = None <->
  forall pk v, get_row (vehicles st) pk = Some v -> suits c v = false.
Proof.
  rewrite find_suitable_vehicle_filter.
  pose proof (newest_spec (suits c) (vehicles st)) as Hspec.
  destruct (fst <$> last _) as [pk|].
  - destruct Hspec as (v & Hv & Hs & _). split; [discriminate |].
    intros H. rewrite (H _ _ Hv) in Hs. discriminate.
  - split; [intros _; exact Hspec | reflexivity].
Qed.

(** X8. The budget only counts when both bounds are present and not
    zero: a client with a missing or zero bound gets the vehicle a
    client without any budget gets, whatever the other bound says. *)
Theorem one_sided_budget_is_ignored st c :
  (decimal_or (budget_min c) 0 == 0)%Q \/ (decimal_or (budget_max c) 0 == 0)%Q ->
  _find_suitable_vehicle st c = _find_suitable_vehicle st (without_budget c).
Proof.
  intros H. rewrite !find_suitable_vehicle_filter. do 2 f_equal.
  apply List.filter_ext. intros [pk v]. unfold suits. simpl. f_equal.
  unfold decimal_or in H.
  destruct (budget_min c) as [lo|], (budget_max c) as [hi|]; try reflexivity.
  destruct (Qeq_bool lo 0) eqn:El; [reflexivity |].
  destruct (Qeq_bool hi 0) eqn:Eh; [reflexivity |].
  destruct H as [H | H]; apply Qeq_bool_iff in H; congruence.
Qed.

(** ** Initiating a session *)

Lemma save_new_session env op st row n1 s' r :
  save_negotiation env op (S (length (negotiations st))) n1 false
    (with_new_session st row) = (s', r) ->
  (db_fails env op = true /\ s' = with_new_session st row
   /\ r = inl DatabaseError)
  \/ (db_fails env op = false /\ s' = with_new_session st n1 /\ r = inr tt).
Proof.
  rewrite save_negotiation_as_read. intros H.
  apply orm_write_cases in H as [(Hf & -> & ->) | (Hf & -> & ->)];
    [now left | right].
  split; [exact Hf |]. split; [| reflexivity].
  unfold with_new_session, with_negotiations. cbn [negotiations].
  now rewrite set_row_last.
Qed.

Lemma choose_target_vehicle_cases env st c target n s1 r1 :
  choose_target_vehicle env (S (length (negotiations st))) c target n
    (with_new_session st n) = (s1, r1) ->
  (s1 = with_new_session st n /\ r1 = inl DatabaseError)
  \/ (s1 = with_new_session st (chosen_target st c target n)
      /\ r1 = inr (chosen_target st c target n)).
Proof.
  unfold choose_target_vehicle, chosen_target.
  assert (Hfind :
    (do s0 <- read ;
     match _find_suitable_vehicle s0 c with
     | Some v =>
         do_ save_negotiation env OpSaveTargetVehicle
               (S (length (negotiations st))) (set_target_vehicle n (Some v))
               false ;
         ret (set_target_vehicle n (Some v))
     | None => ret n
     end) (with_new_session st n) = (s1, r1) ->
    (s1 = with_new_session st n /\ r1 = inl DatabaseError)
    \/ (s1 = with_new_session st
               match _find_suitable_vehicle st c with
               | Some v => set_target_vehicle n (Some v)
               | None => n
               end
        /\ r1 = inr match _find_suitable_vehicle st c with
                    | Some v => set_target_vehicle n (Some v)
                    | None => n
                    end)).
  { unfold bind at 1, read.
    change (_find_suitable_vehicle (with_new_session st n) c)
      with (_find_suitable_vehicle st c).
    destruct (_find_suitable_vehicle st c) as [v|].
    - intros H.
      apply bind_cases in H as [(e & H1 & ->) | (s & [] & H1 & H)];
        apply save_new_session in H1
          as [(_ & -> & E) | (_ & -> & E)]; try discriminate E.
      + injection E as ->. now left.
      + injection H as <- <-. now right.
    - intros [= <- <-]. now right. }
  destruct target as [[|v]|]; [exact Hfind | | exact Hfind].
  intros [= <- <-]. now right.
Qed.

Lemma analyse_trade_in_cases env n s s' r :
  analyse_trade_in env n s = (s', r) ->
  s' = s
  /\ forall n', r = inr n' ->
       (trade_in_vehicle n = None /\ n' = n)
       \/ exists vpk v market,
            trade_in_vehicle n = Some vpk
            /\ get_row (vehicles s) vpk = Some v
            /\ _get_or_scrape_market_data env v s = (s, inr market)
            /\ n' = set_market_analysis n
                      (analyze_market env (_vehicle_to_dict (Some v)) market).
Proof.
  unfold analyse_trade_in. destruct (trade_in_vehicle n) as [vpk|].
  2:{ intros [= <- <-]. split; [reflexivity |]. intros n' [= <-]. now left. }
  intros H.
  apply bind_cases in H as [(e & H1 & ->) | (s1 & v & H1 & H)];
    apply (objects_get_cases "Vehicle" vehicles) in H1 as [-> H1].
  { split; [reflexivity | discriminate]. }
  destruct H1 as [[[=] _] | (? & [= <-] & Hv)].
  apply bind_cases in H as [(e & H2 & ->) | (s1 & market & H2 & H)];
    pose proof (get_or_scrape_store _ _ _ _ _ H2) as ->.
  { split; [reflexivity | discriminate]. }
  injection H as <- <-. split; [reflexivity |].
  intros n' [= <-]. right. now exists vpk, v, market.
Qed.

Lemma trade_in_dict_cases n s s' r :
  trade_in_dict n s = (s', r) ->
  s' = s
  /\ forall d, r = inr d ->
       (trade_in_vehicle n = None /\ d = ∅)
       \/ exists vpk v, trade_in_vehicle n = Some vpk
                        /\ d = _vehicle_to_dict (Some v).
Proof.
  unfold trade_in_dict. destruct (trade_in_vehicle n) as [vpk|].
  2:{ intros [= <- <-]. split; [reflexivity |]. intros d [= <-]. now left. }
  intros H.
  apply bind_cases in H as [(e & H1 & ->) | (s1 & v & H1 & H)];
    apply (objects_get_cases "Vehicle" vehicles) in H1 as [-> _].
  { split; [reflexivity | discriminate]. }
  injection H as <- <-. split; [reflexivity |].
  intros d [= <-]. right. now exists vpk, v.
Qed.

(** Every way [initiate_negotiation] can end. *)
Lemma initiate_negotiation_cases env c t g m st st' r :
  initiate_negotiation env c t g m st = (st', r) ->
  (st' = st /\ exists e, r = inl e)
  \/ (exists row e,
        st' = with_new_session st row /\ r = inl e
        /\ status row = initiated
        /\ negotiation_rounds row = 0%Z /\ max_rounds row = 10%Z
        /\ client row = c /\ trade_in_vehicle row = t
        /\ trade_in_offered_value row = None /\ final_price row = None
        /\ margin_achieved row = None /\ ended_at row = None)
  \/ (exists cl final vpk,
        st' = with_new_session st final
        /\ r = inr (S (length (negotiations st)), final)
        /\ get_row (clients st) c = Some cl
        /\ status final = in_progress
        /\ negotiation_rounds final = 0%Z /\ max_rounds final = 10%Z
        /\ client final = c
        /\ trade_in_vehicle final = t /\ t = Some vpk
        /\ target_vehicle final
           = target_vehicle (chosen_target st cl g (new_negotiation c t g))
        /\ final_price final = None /\ margin_achieved final = None
        /\ ended_at final = None /\ trade_in_offered_value final = None).
Proof.
  unfold initiate_negotiation. intros H.
  apply bind_cases in H as [(e & H1 & ->) | (s1 & cl & H1 & H)];
    apply (objects_get_cases "Client" clients) in H1 as [-> H1].
  { left. eauto. }
  destruct H1 as [[[=] _] | (? & [= <-] & Hcl)].
  apply bind_cases in H as [(e & H2 & ->) | (s1 & pk & H2 & H)];
    apply create_negotiation_cases in H2 as [[-> [e' E]] | [-> E]];
    try discriminate E.
  { left. eauto. }
  injection E as ->.
  fold (with_new_session st (new_negotiation c t g)) in H.
  set (new := new_negotiation c t g) in *.
  apply bind_cases in H as [(e & H3 & ->) | (s2 & n2 & H3 & H)];
    apply choose_target_vehicle_cases in H3 as [[-> E] | [-> E]];
    try discriminate E.
  { right. left. exists new, e. now repeat split. }
  injection E as ->.
  set (chosen := chosen_target st cl g new) in *.
  assert (Hchosen : status chosen = initiated
                    /\ negotiation_rounds chosen = 0%Z
                    /\ max_rounds chosen = 10%Z /\ client chosen = c
                    /\ trade_in_vehicle chosen = t
                    /\ trade_in_offered_value chosen = None
                    /\ final_price chosen = None
                    /\ margin_achieved chosen = None
                    /\ ended_at chosen = None).
  { unfold chosen, chosen_target.
    destruct g as [[|k]|]; [| now repeat split |];
      destruct (_find_suitable_vehicle st cl); now repeat split. }
  destruct Hchosen as (Hst & Hc & Hm & Hcl' & Ht & Hto & Hfp & Hma & Hend).
  apply bind_cases in H as [(e & H4 & ->) | (s3 & n3 & H4 & H)];
    apply analyse_trade_in_cases in H4 as [-> Hn3].
  { right. left. exists chosen, e. now repeat split. }
  specialize (Hn3 _ eq_refl).
  assert (Hn3' : status n3 = initiated
                 /\ negotiation_rounds n3 = 0%Z /\ max_rounds n3 = 10%Z
                 /\ client n3 = c /\ trade_in_vehicle n3 = t
                 /\ target_vehicle n3 = target_vehicle chosen
                 /\ trade_in_offered_value n3 = None
                 /\ final_price n3 = None /\ margin_achieved n3 = None
                 /\ ended_at n3 = None).
  { destruct Hn3 as [[_ ->] | (? & ? & ? & _ & _ & _ & ->)];
      now repeat split. }
  destruct Hn3' as (Hst3 & Hc3 & Hm3 & Hcl3 & Ht3 & Htg3 & Hto3 & Hfp3 & Hma3
                    & Hend3).
  apply bind_cases in H as [(e & H5 & ->) | (s4 & d & H5 & H)];
    apply trade_in_dict_cases in H5 as [-> Hd].
  { right. left. exists chosen, e. now repeat split. }
  specialize (Hd _ eq_refl).
  apply bind_cases in H as [(e & H6 & ->) | (s5 & strategy & H6 & H)];
    apply lift_cases in H6 as [-> H6].
  { right. left. exists chosen, e. now repeat split. }
  assert (Htrade : exists vpk, t = Some vpk).
  { destruct Hd as [[Hnone ->] | (vpk & v & Hsome & _)].
    - discriminate H6.
    - exists vpk. congruence. }
  destruct Htrade as [vpk Hvpk].
  apply bind_cases in H as [(e & H7 & ->) | (s6 & [] & H7 & H)];
    apply save_new_session in H7 as [(_ & -> & E) | (_ & -> & E)];
    try discriminate E.
  { right. left. exists chosen, e. now repeat split. }
  injection H as <- <-.
  right. right. exists cl, (set_strategy n3 strategy), vpk.
  repeat split; auto.
Qed.

(** X9. [initiate_negotiation] either leaves the store as it was, or
    adds exactly one session row and touches nothing else.  When it
    raises after the row was created the row stays, with status
    [initiated]; when it returns, the row is the session returned,
    under the next primary key, with status [in_progress], round 0 of
    10, no final price, margin or end date, the trade-in vehicle of
    the call, and as target the vehicle of the call or, without one,
    the newest suitable vehicle. *)
Theorem initiate_negotiation_outcome env c t g m st st' r :
  initiate_negotiation env c t g m st = (st', r) ->
  match r with
  | inl e =>
      st' = st
      \/ exists row, st' = with_new_session st row /\ status row = initiated
                     /\ negotiation_rounds row = 0%Z /\ max_rounds row = 10%Z
  | inr (pk, n) =>
      st' = with_new_session st n
      /\ pk = S (length (negotiations st))
      /\ get_row (negotiations st') pk = Some n
      /\ status n = in_progress
      /\ negotiation_rounds n = 0%Z /\ max_rounds n = 10%Z
      /\ client n = c /\ trade_in_vehicle n = t
      /\ final_price n = None /\ margin_achieved n = None /\ ended_at n = None
      /\ (forall k, g = Some (S k) -> target_vehicle n = g)
      /\ (g = None ->
          exists cl, get_row (clients st) c = Some cl
                     /\ target_vehicle n = _find_suitable_vehicle st cl)
  end.
Proof.
  intros H. apply initiate_negotiation_cases in H
    as [[-> [e ->]]
       | [(row & e & -> & -> & Hst & Hc & Hm & _)
         | (cl & final & vpk & -> & -> & Hcl & Hst & Hc & Hm & Hcl' & Ht & _
            & Htg & Hfp & Hma & Hend & _)]].
  - now left.
  - right. now exists row.
  - split; [reflexivity |]. split; [reflexivity |].
    split; [apply get_row_snoc; now right |].
    repeat split; auto.
    + intros k ->. exact Htg.
    + intros ->. exists cl. split; [exact Hcl |]. rewrite Htg.
      unfold chosen_target. now destruct (_find_suitable_vehicle st cl).
Qed.

(** X10. [initiate_negotiation] never returns a session without a
    trade-in vehicle: the strategy prompt formats the mileage of the
    trade-in, which the empty dictionary does not have, so the call
    raises TypeError; the session row created before that stays in the
    store with status [initiated]. *)
Theorem initiate_needs_trade_in env c g m st :
  (forall pk n st',
     initiate_negotiation env c None g m st <> (st', inr (pk, n)))
  /\ forall cl,
       get_row (clients st) c = Some cl ->
       (forall vpk, g = Some vpk -> is_Some (get_row (vehicles st) vpk)) ->
       db_fails env OpCreateNegotiation = false ->
       db_fails env OpSaveTargetVehicle = false ->
       initiate_negotiation env c None g m st
       = (with_new_session st
            (chosen_target st cl g (new_negotiation c None g)),
          inl TypeError).
Proof.
  split.
  - intros pk n st' H. apply initiate_negotiation_cases in H
      as [[_ [e [=]]]
         | [(row & e & _ & [=] & _)
           | (cl & final & vpk & _ & _ & _ & _ & _ & _ & _ & _ & [=] & _)]].
  - intros cl Hcl Hknown Hcreate Hsave.
    unfold initiate_negotiation.
    erewrite bind_inr
      by (apply (objects_get_found "Client" clients); exact Hcl).
    assert (Hfk : create_negotiation env (new_negotiation c None g) st
                  = (with_new_session st (new_negotiation c None g),
                     inr (S (length (negotiations st))))).
    { unfold create_negotiation, bind, read. simpl.
      replace (match g with
               | Some vpk => bool_decide (is_Some (get_row (vehicles st) vpk))
               | None => true
               end) with true.
      - unfold orm_write. rewrite Hcreate. reflexivity.
      - destruct g as [vpk|]; [| reflexivity].
        symmetry. apply bool_decide_eq_true. now apply Hknown. }
    erewrite bind_inr by exact Hfk.
    assert (Htarget :
      choose_target_vehicle env (S (length (negotiations st))) cl g
        (new_negotiation c None g)
        (with_new_session st (new_negotiation c None g))
      = (with_new_session st
           (chosen_target st cl g (new_negotiation c None g)),
         inr (chosen_target st cl g (new_negotiation c None g)))).
    { destruct (choose_target_vehicle env (S (length (negotiations st))) cl g
                  (new_negotiation c None g)
                  (with_new_session st (new_negotiation c None g)))
        as [s1 r1] eqn:E.
      pose proof E as E'.
      apply choose_target_vehicle_cases in E' as [[-> ->] | [-> ->]];
        [| reflexivity].
      exfalso. revert E. unfold choose_target_vehicle.
      destruct g as [[|k]|]; try discriminate;
        unfold bind at 1, read;
        change (_find_suitable_vehicle
                  (with_new_session st (new_negotiation c None _)) cl)
          with (_find_suitable_vehicle st cl);
        (destruct (_find_suitable_vehicle st cl); [| discriminate]);
        unfold save_negotiation, orm_write; rewrite Hsave; discriminate. }
    erewrite bind_inr by exact Htarget.
    assert (Hnone : trade_in_vehicle
                      (chosen_target st cl g (new_negotiation c None g)) = None).
    { unfold chosen_target. destruct g as [[|k]|]; try reflexivity;
        now destruct (_find_suitable_vehicle st cl). }
    unfold analyse_trade_in. rewrite Hnone.
    erewrite bind_inr by reflexivity.
    unfold trade_in_dict. rewrite Hnone.
    erewrite bind_inr by reflexivity.
    reflexivity.
Qed.

(** ** Offers of a session *)

Lemma created_offer_owner pk n vpk best o :
  created_offer pk n vpk best = inr o ->
  o_negotiation o = pk /\ o_vehicle o = Some vpk.
Proof.
  unfold created_offer, ebind. intros H.
  repeat match type of H with
         | match ?x with _ => _ end = _ => destruct x; try discriminate H
         end.
  now injection H as <-.
Qed.

(** X11. Creating the initial offer is all or nothing: when
    [_create_initial_offer] raises, the store is as before; when it
    returns, exactly the returned offer was appended, and it belongs to
    the session and to its target vehicle.  Without a target vehicle
    the call raises ValueError before anything else happens. *)
Theorem initial_offer_all_or_nothing env pk n st st' r :
  _create_initial_offer env pk n st = (st', r) ->
  match r with
  | inl e =>
      st' = st
      /\ (target_vehicle n = None ->
          e = ValueError "Target vehicle not set for negotiation")
  | inr o =>
      st' = with_offers st (offers st ++ [o])
      /\ o_negotiation o = pk
      /\ is_Some (target_vehicle n)
      /\ o_vehicle o = target_vehicle n
  end.
Proof.
  intros H. pose proof H as H0. apply create_initial_offer_cases in H
    as [[-> [e ->]] | (vpk & vehicle & c & best & rest & o & Ht & _ & _ & _
                        & Hrow & _ & -> & ->)].
  - split; [reflexivity |]. intros Hnone.
    unfold _create_initial_offer in H0. rewrite Hnone in H0.
    now injection H0 as <-.
  - apply created_offer_owner in Hrow as [Hpk Hv].
    rewrite Ht. repeat split; eauto.
Qed.

(** X12. When the generator returns no proposal, or a first proposal
    that is not an object, no offer is created and the store is
    untouched: the call ends with an exception. *)
Theorem no_usable_proposal_no_offer env pk n st st' r :
  (forall v tv kinds budget objectives,
     match structure_offer env v tv kinds budget objectives with
     | [] => True
     | JObj _ :: _ => False
     | _ :: _ => True
     end) ->
  _create_initial_offer env pk n st = (st', r) ->
  st' = st /\ exists e, r = inl e.
Proof.
  intros Hgen H. apply create_initial_offer_cases in H
    as [[-> [e ->]] | (vpk & vehicle & c & best & rest & o & _ & _ & _ & Hlist
                        & Hrow & _)].
  - eauto.
  - exfalso.
    specialize (Hgen (_vehicle_to_dict (Some vehicle))
                  (decimal_or (trade_in_offered_value n) 0%Q)
                  (if negb (String.eqb (subscription_preference c) "flexible")
                   then [subscription_preference c]
                   else ["achat"; "lld"; "abonnement"])
                  (decimal_or (budget_min c) 10000%Q,
                   decimal_or (budget_max c) 50000%Q)
                  (mkdict [ ("target_margin", JNum (15 # 100));
                            ("satisfaction_priority", JNum (7 # 10)) ])).
    rewrite Hlist in Hgen.
    destruct best; try discriminate Hrow. exact Hgen.
Qed.

Lemma latest_offer_snoc st pk o :
  latest_offer (with_offers st (offers st ++ [o])) pk
  = if decide (o_negotiation o = pk) then Some o else latest_offer st pk.
Proof.
  unfold latest_offer. simpl. rewrite filter_app, filter_cons, filter_nil.
  destruct (decide (o_negotiation o = pk)).
  - apply last_snoc.
  - now rewrite app_nil_r.
Qed.

(** X13. An offer once created is the session's current offer: after
    [_create_initial_offer] returned it, the latest offer of the
    session is that offer, the latest offers of the other sessions are
    what they were, and the next request for the current offer returns
    it without calling the generator and without writing. *)
Theorem created_offer_becomes_current env pk n st st' o :
  _create_initial_offer env pk n st = (st', inr o) ->
  latest_offer st' pk = Some o
  /\ (forall pk', pk' <> pk -> latest_offer st' pk' = latest_offer st pk')
  /\ forall env' n', current_best_offer env' pk n' st' = (st', inr o).
Proof.
  intros H. apply create_initial_offer_cases in H
    as [[_ [e [=]]] | (vpk & vehicle & c & best & rest & o' & _ & _ & _ & _
                        & [Hpk _]%created_offer_owner & _ & -> & [= <-])].
  assert (Hlatest : latest_offer (with_offers st (offers st ++ [o])) pk = Some o).
  { rewrite latest_offer_snoc. destruct (decide _); [reflexivity | congruence]. }
  split; [exact Hlatest |]. split.
  - intros pk' Hne. rewrite latest_offer_snoc.
    destruct (decide _); [congruence | reflexivity].
  - intros env' n'. unfold current_best_offer, bind, read.
    now rewrite Hlatest.
Qed.

Lemma current_best_offer_cases env pk n st st1 r :
  current_best_offer env pk n st = (st1, r) ->
  st1 = st
  \/ exists o, latest_offer st pk = None /\ r = inr o /\ o_negotiation o = pk
               /\ st1 = with_offers st (offers st ++ [o]).
Proof.
  unfold current_best_offer, bind, read, ret.
  destruct (latest_offer st pk) as [o|] eqn:Hl.
  - intros [= <- _]. now left.
  - intros H. apply create_initial_offer_cases in H
      as [[-> _] | (vpk & vehicle & c & best & rest & o & _ & _ & _ & _
                     & [Hpk _]%created_offer_owner & _ & -> & ->)];
      [now left | right; now exists o].
Qed.

(** ** What a round leaves alone *)

Lemma extends_store_refl st : extends_store st st.
Proof. split; reflexivity. Qed.

Lemma extends_store_trans st1 st2 st3 :
  extends_store st1 st2 -> extends_store st2 st3 -> extends_store st1 st3.
Proof.
  intros [] []. split; try congruence; try (etrans; eassumption).
Qed.

Lemma current_best_offer_extends env pk n st st1 r :
  current_best_offer env pk n st = (st1, r) ->
  extends_store st st1 /\ negotiations st1 = negotiations st
  /\ rounds st1 = rounds st
  /\ (offers st1 = offers st
      \/ exists o, latest_offer st pk = None /\ o_negotiation o = pk
                   /\ offers st1 = offers st ++ [o]).
Proof.
  intros H. apply current_best_offer_cases in H
    as [-> | (o & Hl & _ & Hpk & ->)].
  - split; [apply extends_store_refl |]. repeat split; now left.
  - split; [| repeat split; right; now exists o].
    split; simpl; try reflexivity. now apply prefix_app_r.
Qed.

Lemma length_set_row {A : Type} (t : list A) pk row :
  length (set_row t pk row) = length t.
Proof. destruct pk; simpl; [reflexivity | apply length_insert]. Qed.

(** What [execute_negotiation_round] does to the tables, in one
    statement. *)
Lemma execute_round_tables env pk fb st :
  extends_store st (execute_negotiation_round env pk fb st).1
  /\ length (negotiations (execute_negotiation_round env pk fb st).1)
     = length (negotiations st)
  /\ (forall pk', pk' <> pk ->
        get_row (negotiations (execute_negotiation_round env pk fb st).1) pk'
        = get_row (negotiations st) pk')
  /\ (offers (execute_negotiation_round env pk fb st).1 = offers st
      \/ exists o, latest_offer st pk = None /\ o_negotiation o = pk
                   /\ offers (execute_negotiation_round env pk fb st).1
                      = offers st ++ [o])
  /\ (rounds (execute_negotiation_round env pk fb st).1 = rounds st
      \/ exists r, r_negotiation r = pk
                   /\ rounds (execute_negotiation_round env pk fb st).1
                      = rounds st ++ [r]).
Proof.
  destruct (execute_round_outcome env pk fb st)
    as [ Hrow
       | n Hrow Hmax
       | n st1 e Hrow Hlt Hoffer
       | n st1 o e Hrow Hlt Hoffer Hadvice
       | n st1 o d Hrow Hlt Hoffer Hadvice Hcreate
       | n st1 o d e Hrow Hlt Hoffer Hadvice Hcreate Hconclude
       | n st1 o d n' Hrow Hlt Hoffer Hadvice Hcreate Hconclude Hsave
       | n st1 o d n' Hrow Hlt Hoffer Hadvice Hcreate Hconclude Hsave ];
    try match goal with
        | Hc : current_best_offer _ _ _ _ = _ |- _ =>
            apply current_best_offer_extends in Hc as ([] & Hn & Hr & Ho)
        end.
  - split; [apply extends_store_refl |]. repeat split; now left.
  - split; [apply extends_store_refl |]. repeat split; now left.
  - split; [now split |]. split; [now rewrite Hn |].
    split; [intros; now rewrite Hn |]. split; [exact Ho | now left].
  - split; [now split |]. split; [now rewrite Hn |].
    split; [intros; now rewrite Hn |]. split; [exact Ho | now left].
  - split; [now split |]. split; [now rewrite Hn |].
    split; [intros; now rewrite Hn |]. split; [exact Ho | now left].
  - split; [split; simpl; auto; rewrite Hr; now apply prefix_app_r |].
    simpl. split; [now rewrite Hn |].
    split; [intros; now rewrite Hn |]. split; [exact Ho |].
    right. eexists. split; [| now rewrite Hr]. reflexivity.
  - split; [split; simpl; auto; rewrite Hr; now apply prefix_app_r |].
    simpl. split; [now rewrite Hn |].
    split; [intros; now rewrite Hn |]. split; [exact Ho |].
    right. eexists. split; [| now rewrite Hr]. reflexivity.
  - split; [split; simpl; auto |].
    + rewrite length_set_row, Hn. lia.
    + rewrite Hr. now apply prefix_app_r.
    + simpl. split; [now rewrite length_set_row, Hn |].
      split; [intros pk' Hne; rewrite Hn; now apply get_set_row_ne |].
      split; [exact Ho |].
      right. eexists. split; [| now rewrite Hr]. reflexivity.
Qed.

(** X14. Whatever its outcome, [execute_negotiation_round] leaves the
    clients, the vehicles and the market cache as they were, deletes
    and edits no offer and no round record (it appends at most one of
    each, both of the session of the call), creates no session and
    leaves the row of every other session untouched. *)
Theorem execute_round_footprint env pk fb st st' r :
  execute_negotiation_round env pk fb st = (st', r) ->
  clients st' = clients st /\ vehicles st' = vehicles st
  /\ market_data st' = market_data st
  /\ length (negotiations st') = length (negotiations st)
  /\ (forall pk', pk' <> pk ->
        get_row (negotiations st') pk' = get_row (negotiations st) pk')
  /\ (offers st' = offers st
      \/ exists o, o_negotiation o = pk /\ offers st' = offers st ++ [o])
  /\ (rounds st' = rounds st
      \/ exists rec, r_negotiation rec = pk /\ rounds st' = rounds st ++ [rec]).
Proof.
  intros H. pose proof (execute_round_tables env pk fb st) as Ht.
  rewrite H in Ht. simpl in Ht.
  destruct Ht as ([] & Hlen & Hother & Ho & Hr).
  repeat split; auto.
  destruct Ho as [Ho | (o & _ & Hpk & Ho)]; [now left | right; now exists o].
Qed.

(** ** Sequences of calls: what never changes *)

Lemma current_best_offer_created env pk n st st1 r :
  current_best_offer env pk n st = (st1, r) ->
  st1 = st
  \/ exists vpk best o,
       latest_offer st pk = None
       /\ created_offer pk n vpk best = inr o
       /\ r = inr o
       /\ st1 = with_offers st (offers st ++ [o]).
Proof.
  unfold current_best_offer, bind, read, ret.
  destruct (latest_offer st pk) as [o|] eqn:Hl.
  - intros [= <- _]. now left.
  - intros H. apply create_initial_offer_cases in H
      as [[-> _] | (vpk & vehicle & c & best & rest & o & _ & _ & _ & _
                     & Hrow & _ & -> & ->)];
      [now left | right; now exists vpk, best, o].
Qed.

(** The writes of one round, table by table. *)
Lemma execute_round_writes env pk fb st :
  (negotiations (execute_negotiation_round env pk fb st).1 = negotiations st
   \/ exists n d n',
        get_row (negotiations st) pk = Some n
        /\ row_to_save env (next_round n) d = inr n'
        /\ negotiations (execute_negotiation_round env pk fb st).1
           = set_row (negotiations st) pk n')
  /\ (offers (execute_negotiation_round env pk fb st).1 = offers st
      \/ exists n vpk best o,
           get_row (negotiations st) pk = Some n
           /\ latest_offer st pk = None
           /\ created_offer pk (next_round n) vpk best = inr o
           /\ offers (execute_negotiation_round env pk fb st).1
              = offers st ++ [o])
  /\ (rounds (execute_negotiation_round env pk fb st).1 = rounds st
      \/ exists n d,
           get_row (negotiations st) pk = Some n
           /\ rounds (execute_negotiation_round env pk fb st).1
              = rounds st ++ [round_record pk (next_round n) fb d]).
Proof.
  destruct (execute_round_outcome env pk fb st)
    as [ Hrow
       | n Hrow Hmax
       | n st1 e Hrow Hlt Hoffer
       | n st1 o e Hrow Hlt Hoffer Hadvice
       | n st1 o d Hrow Hlt Hoffer Hadvice Hcreate
       | n st1 o d e Hrow Hlt Hoffer Hadvice Hcreate Hconclude
       | n st1 o d n' Hrow Hlt Hoffer Hadvice Hcreate Hconclude Hsave
       | n st1 o d n' Hrow Hlt Hoffer Hadvice Hcreate Hconclude Hsave ];
    try (apply current_best_offer_created in Hoffer
           as [-> | (vpk & best & o' & Hl & Hc & _ & ->)]);
    cbn [negotiations offers rounds with_negotiations with_rounds with_offers];
    (split; [| split]);
    try (left; reflexivity);
    try (right; exists n, vpk, best, o'; now repeat split);
    try (right; exists n, d; now repeat split);
    try (right; exists n, d, n'; now repeat split).
Qed.

Lemma initiate_negotiation_writes env c t g m st :
  (initiate_negotiation env c t g m st).1 = st
  \/ exists row,
       (initiate_negotiation env c t g m st).1 = with_new_session st row
       /\ engine_session row /\ negotiation_rounds row = 0%Z
       /\ status row <> concluded.
Proof.
  destruct (initiate_negotiation env c t g m st) as [st' r] eqn:H.
  apply initiate_negotiation_cases in H
    as [[-> _]
       | [(row & e & -> & _ & Hst & Hc & Hm & _ & _ & Hto & Hfp & Hma & Hend)
         | (cl & final & vpk & -> & _ & _ & Hst & Hc & Hm & _ & _ & _ & _
            & Hfp & Hma & Hend & Hto)]]; simpl.
  - now left.
  - right. exists row. split; [reflexivity |].
    split; [| split; [exact Hc | now rewrite Hst]].
    unfold engine_session. rewrite Hst. now repeat split.
  - right. exists final. split; [reflexivity |].
    split; [| split; [exact Hc | now rewrite Hst]].
    unfold engine_session. rewrite Hst. now repeat split.
Qed.

Lemma step_extends st ec : extends_store st (step st ec).
Proof.
  unfold step. destruct ec as [env [c t g m | pk fb]]; simpl.
  - destruct (initiate_negotiation_writes env c t g m st) as [-> | (row & -> & _)].
    + apply extends_store_refl.
    + split; simpl; try reflexivity. rewrite length_app. lia.
  - apply execute_round_tables.
Qed.

(** X15. Along every sequence of calls of the two entry points the
    clients, the vehicles and the market cache stay exactly as they
    were (the engine never writes a market figure), no session
    disappears, and the offers and round records present at the start
    stay, unchanged and in place, before those added since. *)
Theorem run_extends_store st calls :
  clients (run st calls) = clients st
  /\ vehicles (run st calls) = vehicles st
  /\ market_data (run st calls) = market_data st
  /\ length (negotiations st) <= length (negotiations (run st calls))
  /\ offers st `prefix_of` offers (run st calls)
  /\ rounds st `prefix_of` rounds (run st calls).
Proof.
  assert (H : extends_store st (run st calls)).
  { revert st. induction calls as [|ec calls IH]; intros st.
    - apply extends_store_refl.
    - apply extends_store_trans with (step st ec); [apply step_extends | apply IH]. }
  destruct H. now repeat split.
Qed.

(** ** One offer for each session *)

Lemma session_offers_snoc st t o pk :
  offers t = offers st ++ [o] ->
  session_offers t pk
  = session_offers st pk ++ (if decide (o_negotiation o = pk) then [o] else []).
Proof.
  unfold session_offers. intros ->.
  rewrite filter_app, filter_cons, filter_nil.
  now destruct (decide (o_negotiation o = pk)).
Qed.

Lemma latest_offer_session st pk : latest_offer st pk = last (session_offers st pk).
Proof. reflexivity. Qed.

Lemma step_offers st ec :
  offers (step st ec) = offers st
  \/ exists pk o, session_offers st pk = [] /\ o_negotiation o = pk
                  /\ offers (step st ec) = offers st ++ [o].
Proof.
  unfold step. destruct ec as [env [c t g m | pk fb]]; simpl.
  - left. now destruct (initiate_negotiation_writes env c t g m st)
      as [-> | (row & -> & _)].
  - destruct (execute_round_writes env pk fb st)
      as (_ & [Ho | (n & vpk & best & o & _ & Hl & Hc & Ho)] & _);
      [now left | right].
    exists pk, o. split; [| split; [| exact Ho]].
    + rewrite latest_offer_session in Hl. now apply last_None in Hl.
    + now apply created_offer_owner in Hc.
Qed.

(** X16. The engine gives a session one offer at most, and never
    another one: when no session has more than one offer, this is
    still so after any sequence of calls; and whatever the store, the
    offer that is current for a session stays its current offer. *)
Theorem one_offer_per_session st calls :
  ((forall pk, length (session_offers st pk) <= 1) ->
   forall pk, length (session_offers (run st calls) pk) <= 1)
  /\ forall pk o, latest_offer st pk = Some o ->
                  latest_offer (run st calls) pk = Some o.
Proof.
  split.
  - revert st. induction calls as [|ec calls IH]; intros st Hst; [exact Hst |].
    apply IH. intros pk.
    destruct (step_offers st ec) as [Ho | (pk' & o & Hnone & Hpk & Ho)].
    + unfold session_offers. rewrite Ho. apply Hst.
    + rewrite (session_offers_snoc st _ o pk Ho), length_app.
      destruct (decide (o_negotiation o = pk)) as [E | _]; simpl.
      * rewrite <- E, Hpk, Hnone. simpl. lia.
      * specialize (Hst pk). lia.
  - revert st. induction calls as [|ec calls IH]; intros st pk o Hl; [exact Hl |].
    apply IH.
    destruct (step_offers st ec) as [Ho | (pk' & o' & Hnone & Hpk & Ho)].
    + unfold latest_offer. rewrite Ho. exact Hl.
    + rewrite latest_offer_session, (session_offers_snoc st _ o' pk Ho).
      destruct (decide (o_negotiation o' = pk)) as [E | _].
      * rewrite latest_offer_session, <- E, Hpk, Hnone in Hl. discriminate.
      * now rewrite app_nil_r.
Qed.

(** ** The rows the engine writes *)

Lemma row_to_save_session env n d n' :
  engine_session n ->
  row_to_save env (next_round n) d = inr n' ->
  engine_session n'.
Proof.
  intros Hn [[_ ->] | (_ & price & margin & _ & _ & _ & _ & ->)]%row_to_save_cases;
    [exact Hn |].
  destruct Hn as (Hto & Hm & _).
  unfold engine_session. simpl. repeat split; eauto.
Qed.

Lemma step_sessions st ec :
  (forall pk n, get_row (negotiations st) pk = Some n -> engine_session n) ->
  forall pk n, get_row (negotiations (step st ec)) pk = Some n ->
               engine_session n.
Proof.
  intros Hst pk n. unfold step. destruct ec as [env [c t g m | pk' fb]]; simpl.
  - destruct (initiate_negotiation_writes env c t g m st)
      as [-> | (row & -> & Hrow & _)]; [apply Hst |].
    simpl. intros [H | [_ ->]]%get_row_snoc; [now apply Hst with pk | exact Hrow].
  - destruct (execute_round_writes env pk' fb st)
      as ([-> | (n0 & d & n' & Hrow & Hc & ->)] & _); [apply Hst |].
    intros [[_ ->] | [_ H]]%(get_set_row _ _ _ _ _ _ Hrow).
    + apply (row_to_save_session env n0 d); [| exact Hc].
      now apply Hst with pk'.
    + now apply Hst with pk.
Qed.

Lemma run_sessions st calls :
  (forall pk n, get_row (negotiations st) pk = Some n -> engine_session n) ->
  forall pk n, get_row (negotiations (run st calls)) pk = Some n ->
               engine_session n.
Proof.
  revert st. induction calls as [|ec calls IH]; intros st Hst; [exact Hst |].
  apply IH. now apply step_sessions.
Qed.

(** X17. The engine never values the trade-in and never gives up a
    session.  When every session of the store is as the engine writes
    them (no trade-in value, ten rounds at most, status [initiated],
    [in_progress] or [concluded], and a final price, a margin and an
    end date exactly when concluded), then after any sequence of calls
    every session is still so, whence no session is ever [failed],
    [cancelled] or [pending_approval]; every offer added has a
    trade-in value of 0; and every round record added has the status
    ['ongoing'], the record of a concluding round included. *)
Theorem sessions_stay_as_written st calls :
  (forall pk n, get_row (negotiations st) pk = Some n -> engine_session n) ->
  (forall pk n, get_row (negotiations (run st calls)) pk = Some n ->
                engine_session n)
  /\ (forall o, o ∈ offers (run st calls) ->
                o ∈ offers st \/ trade_in_value o = 0%Q)
  /\ (forall r, r ∈ rounds (run st calls) ->
                r ∈ rounds st \/ round_status r = "ongoing").
Proof.
  intros Hst. split; [now apply run_sessions |].
  revert st Hst. induction calls as [|ec calls IH]; intros st Hst.
  { split; intros; now left. }
  destruct (IH (step st ec) (step_sessions st ec Hst)) as [IHo IHr].
  split.
  - intros o [Ho | Ho]%IHo; [| now right].
    destruct ec as [env [c t g m | pk fb]]; unfold step in Ho; simpl in Ho.
    + left. now destruct (initiate_negotiation_writes env c t g m st)
        as [E | (row & E & _)]; rewrite E in Ho.
    + destruct (execute_round_writes env pk fb st)
        as (_ & [E | (n & vpk & best & o' & Hrow & _ & Hc & E)] & _);
        rewrite E in Ho; [now left |].
      apply elem_of_app in Ho as [Ho | ->%list_elem_of_singleton]; [now left |].
      right. destruct (Hst _ _ Hrow) as (Hto & _).
      revert Hc. unfold created_offer, ebind.
      repeat match goal with
             | |- match ?x with _ => _ end = _ -> _ => destruct x; try discriminate
             end.
      intros [= <-]. simpl. now rewrite Hto.
  - intros r [Hr | Hr]%IHr; [| now right].
    destruct ec as [env [c t g m | pk fb]]; unfold step in Hr; simpl in Hr.
    + left. now destruct (initiate_negotiation_writes env c t g m st)
        as [E | (row & E & _)]; rewrite E in Hr.
    + destruct (execute_round_writes env pk fb st)
        as (_ & _ & [E | (n & d & _ & E)]); rewrite E in Hr; [now left |].
      apply elem_of_app in Hr as [Hr | ->%list_elem_of_singleton];
        [now left | now right].
Qed.

(** ** What a round reports *)

Lemma round_response_lookup n d :
  round_response n d !! "round_number" = Some (JInt (negotiation_rounds n))
  /\ round_response n d !! "proposed_offer"
     = Some (dict_get d "proposed_offer" (JObj []))
  /\ round_response n d !! "status" = Some (JStr (status_value (status n)))
  /\ round_response n d !! "should_continue"
     = Some (JBool (negb (truthy (dict_get d "should_conclude" (JBool false))))).
Proof. now repeat split. Qed.

(** X18. A round that returns its report has written what it reports.
    On a session with rounds left, the report gives the new value of
    the persisted counter and the persisted status; the one record
    added carries that number, the feedback of the call, the proposal
    reported and the status ['ongoing']; and either the report says to
    continue and the session row changed in nothing but its counter,
    or it says to stop and the session is [concluded], ended at the
    time of the call. *)
Theorem round_report_matches_store env pk fb st n st' res :
  get_row (negotiations st) pk = Some n ->
  (negotiation_rounds n < max_rounds n)%Z ->
  execute_negotiation_round env pk fb st = (st', inr res) ->
  exists n' rec,
    get_row (negotiations st') pk = Some n'
    /\ rounds st' = rounds st ++ [rec]
    /\ r_negotiation rec = pk
    /\ round_number rec = (negotiation_rounds n + 1)%Z
    /\ client_feedback rec = fb
    /\ round_status rec = "ongoing"
    /\ negotiation_rounds n' = (negotiation_rounds n + 1)%Z
    /\ res !! "round_number" = Some (JInt (negotiation_rounds n'))
    /\ res !! "status" = Some (JStr (status_value (status n')))
    /\ res !! "proposed_offer" = Some (agent_proposal rec)
    /\ ((res !! "should_continue" = Some (JBool true) /\ n' = next_round n)
        \/ (res !! "should_continue" = Some (JBool false)
            /\ status n' = concluded /\ ended_at n' = Some (now env)
            /\ is_Some (final_price n') /\ is_Some (margin_achieved n'))).
Proof.
  intros Hrow Hlt H.
  apply execute_round_success in H
    as [(n0 & Hrow0 & Hmax & _) | (n0 & st1 & o & d & n' & Hrow0 & _ & Hoffer
                                    & _ & Hc & -> & ->)];
    rewrite Hrow in Hrow0; injection Hrow0 as <-; [lia |].
  apply current_best_offer_extends in Hoffer as (_ & Hn & Hr & _).
  exists n', (round_record pk (next_round n) fb d).
  cbn [negotiations rounds with_negotiations with_rounds].
  rewrite Hn, Hr.
  destruct (round_response_lookup n' d) as (R1 & R2 & R3 & R4).
  pose proof (row_to_save_counters _ _ _ _ Hc) as [Hk _].
  split; [now apply get_set_row_eq with n |].
  do 5 (split; [reflexivity |]).
  split; [exact Hk |]. split; [exact R1 |]. split; [exact R3 |].
  split; [exact R2 |].
  rewrite R4.
  apply row_to_save_cases in Hc
    as [[-> ->] | (-> & price & margin & _ & _ & _ & _ & ->)].
  - now left.
  - right. simpl. repeat split; eauto.
Qed.

(** X19. The last round exhausts the session: when a round returns
    its report with the counter at max_rounds, every later call on the
    session, whatever its feedback and environment, is the no-op that
    answers [{'status': 'max_rounds_reached'}], also when the session
    was not concluded. *)
Theorem last_round_exhausts env pk fb st n st' res :
  get_row (negotiations st) pk = Some n ->
  (negotiation_rounds n + 1 = max_rounds n)%Z ->
  execute_negotiation_round env pk fb st = (st', inr res) ->
  forall env' fb',
    execute_negotiation_round env' pk fb' st' = (st', inr max_rounds_reached).
Proof.
  intros Hrow Hlast H env' fb'.
  apply execute_round_success in H
    as [(n0 & Hrow0 & Hmax & _) | (n0 & st1 & o & d & n' & Hrow0 & _ & Hoffer
                                    & _ & Hc & -> & ->)];
    rewrite Hrow in Hrow0; injection Hrow0 as <-; [lia |].
  apply current_best_offer_extends in Hoffer as (_ & Hn & _).
  pose proof (row_to_save_counters _ _ _ _ Hc) as [Hk Hm].
  apply execute_round_exhausted with n'.
  - cbn [negotiations with_negotiations]. rewrite Hn.
    now apply get_set_row_eq with n.
  - rewrite Hk, Hm. simpl. lia.
Qed.

(** ** The span of a reply handed to [json.loads] *)

Lemma str_app_cons a (s1 s2 : string) : String a s1 +:+ s2 = String a (s1 +:+ s2).
Proof. reflexivity. Qed.

Lemma str_app_assoc (s1 s2 s3 : string) :
  (s1 +:+ s2) +:+ s3 = s1 +:+ (s2 +:+ s3).
Proof.
  induction s1 as [|a s1 IH]; [reflexivity |].
  rewrite !str_app_cons. now f_equal.
Qed.

Lemma str_length_app (s1 s2 : string) :
  String.length (s1 +:+ s2) = String.length s1 + String.length s2.
Proof.
  induction s1 as [|a s1 IH]; [reflexivity |].
  rewrite str_app_cons. simpl. now f_equal.
Qed.

Lemma substring_app pre t post :
  substring (String.length pre) (String.length t) (pre +:+ t +:+ post) = t.
Proof.
  induction pre as [|a pre IH]; [| rewrite str_app_cons; exact IH].
  change (EmptyString +:+ t +:+ post) with (t +:+ post).
  change (String.length EmptyString) with 0.
  induction t as [|b t IHt]; [now destruct post |].
  rewrite str_app_cons. simpl. now rewrite IHt.
Qed.

Lemma str_find_range s c : (-1 <= str_find s c < Z.of_nat (String.length s))%Z.
Proof.
  induction s as [|a s IH]; simpl; [lia |].
  destruct (Ascii.eqb a c); [lia |].
  destruct (Z.eqb_spec (str_find s c) (-1)); lia.
Qed.

Lemma str_rfind_range s c : (-1 <= str_rfind s c < Z.of_nat (String.length s))%Z.
Proof.
  induction s as [|a s IH]; simpl; [lia |].
  destruct (Z.eqb_spec (str_rfind s c) (-1)); [| lia].
  destruct (Ascii.eqb a c); lia.
Qed.

Lemma str_rfind_absent s c :
  c ∉ list_ascii_of_string s <-> str_rfind s c = (-1)%Z.
Proof.
  induction s as [|a s IH]; simpl.
  - split; [reflexivity | intros _; apply not_elem_of_nil].
  - rewrite not_elem_of_cons, IH. pose proof (str_rfind_range s c).
    destruct (Z.eqb_spec (str_rfind s c) (-1)) as [E | Hne].
    + destruct (Ascii.eqb_spec a c) as [e | n].
      * split; [intros [H1 _]; now destruct H1 | discriminate].
      * split; [reflexivity | intros _; now split].
    + split; [intros [_ E]; now destruct Hne | lia].
Qed.

Lemma str_find_app pre c post :
  c ∉ list_ascii_of_string pre ->
  str_find (pre +:+ String c post) c = Z.of_nat (String.length pre).
Proof.
  induction pre as [|a pre IH].
  - intros _. change (EmptyString +:+ String c post) with (String c post).
    simpl. now rewrite Ascii.eqb_refl.
  - rewrite str_app_cons. simpl.
    intros [Hne Hpre]%not_elem_of_cons. rewrite (IH Hpre).
    destruct (Ascii.eqb_spec a c); [congruence |].
    destruct (Z.eqb_spec (Z.of_nat (String.length pre)) (-1)); lia.
Qed.

Lemma str_rfind_app pre c post :
  c ∉ list_ascii_of_string post ->
  str_rfind (pre +:+ String c post) c = Z.of_nat (String.length pre).
Proof.
  intros Hpost. induction pre as [|a pre IH].
  - change (EmptyString +:+ String c post) with (String c post). simpl.
    apply str_rfind_absent in Hpost. rewrite Hpost. simpl.
    now rewrite Ascii.eqb_refl.
  - rewrite str_app_cons. simpl. rewrite IH.
    destruct (Z.eqb_spec (Z.of_nat (String.length pre)) (-1)); lia.
Qed.

(** The last occurrence of [c], when there is one. *)
Lemma str_rfind_split s c :
  (0 <= str_rfind s c)%Z ->
  exists body post,
    s = body +:+ String c post
    /\ Z.of_nat (String.length body) = str_rfind s c
    /\ c ∉ list_ascii_of_string post.
Proof.
  induction s as [|a s IH]; simpl; [lia |].
  destruct (Z.eqb_spec (str_rfind s c) (-1)) as [E | Hne].
  - destruct (Ascii.eqb_spec a c) as [-> | _]; [| lia].
    intros _. exists EmptyString, s. split; [reflexivity |].
    split; [reflexivity | now apply str_rfind_absent].
  - intros _. pose proof (str_rfind_range s c).
    destruct IH as (body & post & -> & Hlen & Hpost); [lia |].
    exists (String a body), post. split; [reflexivity |].
    split; [| exact Hpost]. simpl String.length. lia.
Qed.

(** The span between the first [o] and a later last [c]. *)
Lemma json_span_found o c s :
  (0 <= str_find s o)%Z -> (str_find s o <= str_rfind s c)%Z ->
  exists pre rest body post,
    s = pre +:+ str_slice s (str_find s o) (str_rfind s c + 1) +:+ post
    /\ str_slice s (str_find s o) (str_rfind s c + 1) = String o rest
    /\ str_slice s (str_find s o) (str_rfind s c + 1)
       = (body +:+ String c EmptyString)
    /\ (o ∉ list_ascii_of_string pre)
    /\ c ∉ list_ascii_of_string post.
Proof.
  induction s as [|a s IH].
  { simpl. lia. }
  intros Hi Hij.
  destruct (Ascii.eqb_spec a o) as [-> | Hne].
  - assert (Hfind : str_find (String o s) o = 0%Z)
      by (simpl; now rewrite Ascii.eqb_refl).
    rewrite Hfind in *.
    destruct (str_rfind_split (String o s) c Hij)
      as (body & post & E & Hlen & Hpost).
    assert (Hslice : str_slice (String o s) 0 (str_rfind (String o s) c + 1)
                     = body +:+ String c EmptyString).
    { unfold str_slice. rewrite <- Hlen, E.
      replace (Z.to_nat (Z.of_nat (String.length body) + 1 - 0))
        with (String.length (body +:+ String c EmptyString))
        by (rewrite str_length_app; simpl; lia).
      change (Z.to_nat 0) with (String.length EmptyString).
      replace (body +:+ String c post)
        with (EmptyString +:+ (body +:+ String c EmptyString) +:+ post)
        by (change (EmptyString +:+ ?x) with x; now rewrite str_app_assoc).
      apply substring_app. }
    exists EmptyString, (match body +:+ String c EmptyString with
                         | String _ r => r
                         | EmptyString => EmptyString
                         end), body, post.
    rewrite Hslice. split; [| split; [| split; [reflexivity |]]].
    + change (EmptyString +:+ ?x) with x. rewrite str_app_assoc. exact E.
    + destruct body as [|b body].
      * change (EmptyString +:+ ?x) with x in E |- *. now injection E as <- _.
      * rewrite str_app_cons in E |- *. now injection E as <- _.
    + split; [apply not_elem_of_nil | exact Hpost].
  - assert (Hf : str_find (String a s) o = (str_find s o + 1)%Z
                 /\ (0 <= str_find s o)%Z).
    { revert Hi. simpl. destruct (Ascii.eqb_spec a o); [congruence |].
      pose proof (str_find_range s o).
      destruct (Z.eqb_spec (str_find s o) (-1)); lia. }
    destruct Hf as [Hf Hi'].
    assert (Hr : str_rfind (String a s) c = (str_rfind s c + 1)%Z
                 /\ (str_find s o <= str_rfind s c)%Z).
    { revert Hij. rewrite Hf. simpl. pose proof (str_rfind_range s c).
      destruct (Z.eqb_spec (str_rfind s c) (-1)); [| lia].
      destruct (Ascii.eqb a c); lia. }
    destruct Hr as [Hr Hij'].
    destruct (IH Hi' Hij')
      as (pre & rest & body & post & E & Hs & He & Hpre & Hpost).
    assert (Hslice : str_slice (String a s) (str_find (String a s) o)
                       (str_rfind (String a s) c + 1)
                     = str_slice s (str_find s o) (str_rfind s c + 1)).
    { rewrite Hf, Hr. unfold str_slice.
      replace (Z.to_nat (str_find s o + 1)) with (S (Z.to_nat (str_find s o)))
        by lia.
      replace (str_rfind s c + 1 + 1 - (str_find s o + 1))%Z
        with (str_rfind s c + 1 - str_find s o)%Z by lia.
      reflexivity. }
    rewrite Hslice. exists (String a pre), rest, body, post.
    split; [rewrite str_app_cons; now rewrite <- E |]. split; [exact Hs |].
    split; [exact He |]. split; [| exact Hpost].
    simpl. apply not_elem_of_cons. now split.
Qed.

(** X20. The text an agent hands to [json.loads] is the span of the
    reply from its first opening character to its last closing one:
    [json_span] returns [t] exactly when the reply is [pre t post]
    where [t] starts with the opening character and ends with the
    closing one, no opening character occurs in [pre] and no closing
    one in [post]; otherwise it returns nothing. *)
Theorem json_span_spec opening closing response t :
  json_span opening closing response = Some t <->
  exists pre rest body post,
    response = pre +:+ t +:+ post
    /\ t = String opening rest
    /\ t = (body +:+ String closing EmptyString)
    /\ (opening ∉ list_ascii_of_string pre)
    /\ closing ∉ list_ascii_of_string post.
Proof.
  unfold json_span. split.
  - destruct (Z.eqb_spec (str_find response opening) (-1)) as [| Hne];
      [discriminate |].
    destruct (Z.ltb_spec (str_find response opening)
                (str_rfind response closing + 1)) as [Hlt |]; [| discriminate].
    simpl. intros [= <-].
    pose proof (str_find_range response opening).
    apply json_span_found; lia.
  - intros (pre & rest & body & post & -> & Hs & He & Hpre & Hpost).
    assert (Hfind : str_find (pre +:+ t +:+ post) opening
                    = Z.of_nat (String.length pre)).
    { rewrite Hs, str_app_cons. now apply str_find_app. }
    assert (Hrfind : str_rfind (pre +:+ t +:+ post) closing
                     = Z.of_nat (String.length pre + String.length body)).
    { rewrite He, str_app_assoc.
      change (String closing EmptyString +:+ post) with (String closing post).
      rewrite <- str_app_assoc, <- str_length_app. now apply str_rfind_app. }
    rewrite Hfind, Hrfind.
    destruct (Z.eqb_spec (Z.of_nat (String.length pre)) (-1)); [lia |].
    destruct (Z.ltb_spec (Z.of_nat (String.length pre))
                (Z.of_nat (String.length pre + String.length body) + 1));
      [| lia].
    simpl. f_equal. unfold str_slice.
    replace (Z.to_nat (Z.of_nat (String.length pre + String.length body) + 1
                       - Z.of_nat (String.length pre)))
      with (String.length t)
      by (rewrite He, str_length_app; simpl; lia).
    rewrite Nat2Z.id. apply substring_app.
Qed.

(** ** Agents without a client *)

Lemma structure_offer_without_client json_loads prompt system_prompt history :
  (OfferStructuringAgent_structure_offer json_loads None prompt system_prompt
     history).2 !! "offers"
  = Some (JArr []).
Proof. vm_compute. reflexivity. Qed.

Lemma process_round_without_client json_loads prompt system_prompt history :
  (NegotiationAgent_process_round json_loads None prompt system_prompt
     history).2
  = JObj [("raw_result", JStr (_mock_response prompt))].
Proof. vm_compute. reflexivity. Qed.

Lemma without_client_capabilities json_loads env :
  agents_without_client json_loads env ->
  (forall v tv kinds budget objectives,
     structure_offer env v tv kinds budget objectives = [])
  /\ (forall o fb k m,
        process_round env o fb k m
        = inr (mkdict [("raw_result", JStr (_mock_response EmptyString))])).
Proof.
  intros [Hoffers Hround]. split.
  - intros v tv kinds budget objectives.
    destruct (Hoffers v tv kinds budget objectives) as (p & sp & h & H).
    rewrite structure_offer_without_client in H. now injection H as <-.
  - intros o fb k m.
    destruct (Hround o fb k m) as (p & sp & h & items & H & ->).
    rewrite process_round_without_client in H. now injection H as <-.
Qed.

Lemma current_best_offer_without_offers env pk n st st1 r :
  (forall v tv kinds budget objectives,
     structure_offer env v tv kinds budget objectives = []) ->
  current_best_offer env pk n st = (st1, r) ->
  st1 = st /\ forall o, r = inr o -> latest_offer st pk = Some o.
Proof.
  intros Hnone. unfold current_best_offer, bind, read, ret.
  destruct (latest_offer st pk) as [o|] eqn:Hl.
  - intros [= <- <-]. split; [reflexivity |]. now intros ? [= <-].
  - intros H. apply create_initial_offer_cases in H
      as [[-> [e ->]] | (vpk & vehicle & c & best & rest & o & _ & _ & _ & Hl'
                          & _)].
    + split; [reflexivity | discriminate].
    + now rewrite Hnone in Hl'.
Qed.

(** One round when the agents have no client. *)
Lemma execute_round_without_client json_loads env pk fb st :
  agents_without_client json_loads env ->
  offers (execute_negotiation_round env pk fb st).1 = offers st
  /\ (negotiations (execute_negotiation_round env pk fb st).1 = negotiations st
      \/ exists n,
           get_row (negotiations st) pk = Some n
           /\ negotiations (execute_negotiation_round env pk fb st).1
              = set_row (negotiations st) pk (next_round n))
  /\ (latest_offer st pk = None ->
      (execute_negotiation_round env pk fb st).1 = st
      /\ ((execute_negotiation_round env pk fb st).2 = inr max_rounds_reached
          \/ exists e, (execute_negotiation_round env pk fb st).2 = inl e))
  /\ (forall res,
        (execute_negotiation_round env pk fb st).2 = inr res ->
        res = max_rounds_reached
        \/ (res !! "should_continue" = Some (JBool true)
            /\ exists n,
                 get_row (negotiations st) pk = Some n
                 /\ get_row
                      (negotiations (execute_negotiation_round env pk fb st).1)
                      pk
                    = Some (next_round n))).
Proof.
  intros [Hoffers Hround]%without_client_capabilities.
  destruct (execute_round_outcome env pk fb st)
    as [ Hrow
       | n Hrow Hmax
       | n st1 e Hrow Hlt Hoffer
       | n st1 o e Hrow Hlt Hoffer Hadvice
       | n st1 o d Hrow Hlt Hoffer Hadvice Hcreate
       | n st1 o d e Hrow Hlt Hoffer Hadvice Hcreate Hconclude
       | n st1 o d n' Hrow Hlt Hoffer Hadvice Hcreate Hconclude Hsave
       | n st1 o d n' Hrow Hlt Hoffer Hadvice Hcreate Hconclude Hsave ];
    try (apply (current_best_offer_without_offers _ _ _ _ _ _ Hoffers)
           in Hoffer as [-> Hlatest]);
    try rewrite Hround in Hadvice; try discriminate Hadvice;
    try (injection Hadvice as <-);
    try (vm_compute in Hconclude); try discriminate Hconclude;
    try (injection Hconclude as <-);
    cbn [fst snd negotiations offers rounds with_negotiations with_rounds].
  - split; [reflexivity |]. split; [now left |].
    split; [intros _; split; [reflexivity | right; eauto] | discriminate].
  - split; [reflexivity |]. split; [now left |].
    split; [intros _; split; [reflexivity | now left] |].
    intros res [= <-]. now left.
  - split; [reflexivity |]. split; [now left |].
    split; [intros _; split; [reflexivity | right; eauto] | discriminate].
  - split; [reflexivity |]. split; [now left |].
    split; [| discriminate].
    intros Hl. rewrite (Hlatest o eq_refl) in Hl. discriminate.
  - split; [reflexivity |]. split; [now left |].
    split; [| discriminate].
    intros Hl. rewrite (Hlatest o eq_refl) in Hl. discriminate.
  - split; [reflexivity |]. split; [right; now exists n |].
    split; [intros Hl; rewrite (Hlatest o eq_refl) in Hl; discriminate |].
    intros res [= <-]. right. split; [reflexivity |].
    exists n. split; [exact Hrow | now apply get_set_row_eq with n].
Qed.

(** X21. A round run by agents without a client never concludes a
    session and never creates an offer: with no offer for the session
    the call changes nothing and ends with an exception or with the
    exhaustion result; with one, a call that returns reports
    should_continue true and leaves the session row as it was but for
    the counter. *)
Theorem round_without_client json_loads env pk fb st st' r :
  agents_without_client json_loads env ->
  execute_negotiation_round env pk fb st = (st', r) ->
  offers st' = offers st
  /\ (latest_offer st pk = None ->
      st' = st /\ (r = inr max_rounds_reached \/ exists e, r = inl e))
  /\ (forall res,
        r = inr res ->
        res = max_rounds_reached
        \/ (res !! "should_continue" = Some (JBool true)
            /\ exists n, get_row (negotiations st) pk = Some n
                         /\ get_row (negotiations st') pk = Some (next_round n))).
Proof.
  intros Hmock H.
  destruct (execute_round_without_client json_loads env pk fb st Hmock)
    as (Ho & _ & Hnone & Hres).
  rewrite H in Ho, Hnone, Hres. simpl in Ho, Hnone, Hres.
  split; [exact Ho |]. split; [exact Hnone | exact Hres].
Qed.

Lemma step_without_client json_loads st ec :
  agents_without_client json_loads ec.1 ->
  offers (step st ec) = offers st
  /\ (forall pk n',
        get_row (negotiations (step st ec)) pk = Some n' ->
        status n' = concluded ->
        exists n, get_row (negotiations st) pk = Some n /\ status n = concluded)
  /\ (offers st = [] ->
      rounds (step st ec) = rounds st
      /\ forall pk n, get_row (negotiations st) pk = Some n ->
                      get_row (negotiations (step st ec)) pk = Some n).
Proof.
  destruct ec as [env [c t g m | pk fb]]; unfold step; simpl; intros Hmock.
  - destruct (initiate_negotiation_writes env c t g m st)
      as [-> | (row & -> & _ & _ & Hst)].
    + split; [reflexivity |]. split; [eauto |]. now intros _.
    + split; [reflexivity |]. split.
      * simpl. intros pk n' [H | [_ ->]]%get_row_snoc Hc; [eauto | easy].
      * intros _. split; [reflexivity |].
        intros pk n H. simpl. apply get_row_snoc. now left.
  - destruct (execute_round_without_client json_loads env pk fb st Hmock)
      as (Ho & Hn & Hnone & _).
    split; [exact Ho |]. split.
    + destruct Hn as [-> | (n & Hrow & ->)]; [eauto |].
      intros pk' n' [[-> ->] | [_ H]]%(get_set_row _ _ _ _ _ _ Hrow) Hc;
        [exists n; now split | eauto].
    + intros Hempty.
      assert (Hl : latest_offer st pk = None)
        by (unfold latest_offer; now rewrite Hempty).
      destruct (Hnone Hl) as [-> _]. now split.
Qed.

(** X22. Without a client for the agents the engine negotiates
    nothing: along every sequence of calls no offer is created and no
    session becomes concluded (a session concluded at the end was
    concluded at the start); and from a store without offers no round
    record is written and no existing session row changes, so that
    every round counter stays where it was. *)
Theorem no_client_no_deal json_loads st calls :
  Forall (fun ec : Env * Call => agents_without_client json_loads ec.1) calls ->
  offers (run st calls) = offers st
  /\ (forall pk n',
        get_row (negotiations (run st calls)) pk = Some n' ->
        status n' = concluded ->
        exists n, get_row (negotiations st) pk = Some n /\ status n = concluded)
  /\ (offers st = [] ->
      rounds (run st calls) = rounds st
      /\ forall pk n, get_row (negotiations st) pk = Some n ->
                      get_row (negotiations (run st calls)) pk = Some n).
Proof.
  intros Hmock. revert st.
  induction Hmock as [|ec calls Hec _ IH]; intros st.
  { split; [reflexivity |]. split; [eauto |]. now intros _. }
  destruct (step_without_client json_loads st ec Hec) as (Ho & Hc & He).
  destruct (IH (step st ec)) as (IHo & IHc & IHe).
  change (run st (ec :: calls)) with (run (step st ec) calls).
  split; [now rewrite IHo |]. split.
  - intros pk n' H Hs. destruct (IHc _ _ H Hs) as (n1 & H1 & Hs1). eauto.
  - intros Hempty. destruct (He Hempty) as [Hr Hrows].
    destruct IHe as [IHr IHrows]; [now rewrite Ho |].
    split; [now rewrite IHr |]. eauto.
Qed.

(** ** When a listing site answers *)

Lemma create_negotiation_ok env c t g st :
  (forall vpk, t = Some vpk -> is_Some (get_row (vehicles st) vpk)) ->
  (forall vpk, g = Some vpk -> is_Some (get_row (vehicles st) vpk)) ->
  db_fails env OpCreateNegotiation = false ->
  create_negotiation env (new_negotiation c t g) st
  = (with_new_session st (new_negotiation c t g),
     inr (S (length (negotiations st)))).
Proof.
  intros Ht Hg Hcreate. unfold create_negotiation, bind, read. simpl.
  assert (Hknown : forall x : option nat,
            (forall vpk, x = Some vpk -> is_Some (get_row (vehicles st) vpk)) ->
            match x with
            | Some vpk => bool_decide (is_Some (get_row (vehicles st) vpk))
            | None => true
            end = true).
  { intros [vpk|] H; [| reflexivity]. apply bool_decide_eq_true. now apply H. }
  rewrite (Hknown t Ht), (Hknown g Hg). simpl.
  unfold orm_write. rewrite Hcreate. reflexivity.
Qed.

Lemma choose_target_vehicle_ok env st cl g n :
  db_fails env OpSaveTargetVehicle = false ->
  choose_target_vehicle env (S (length (negotiations st))) cl g n
    (with_new_session st n)
  = (with_new_session st (chosen_target st cl g n),
     inr (chosen_target st cl g n)).
Proof.
  intros Hsave.
  destruct (choose_target_vehicle env (S (length (negotiations st))) cl g n
              (with_new_session st n)) as [s1 r1] eqn:E.
  pose proof E as E'.
  apply choose_target_vehicle_cases in E' as [[-> ->] | [-> ->]];
    [| reflexivity].
  exfalso. revert E. unfold choose_target_vehicle.
  destruct g as [[|k]|]; try discriminate;
    unfold bind at 1, read;
    change (_find_suitable_vehicle (with_new_session st n) cl)
      with (_find_suitable_vehicle st cl);
    (destruct (_find_suitable_vehicle st cl); [| discriminate]);
    unfold save_negotiation, orm_write; rewrite Hsave; discriminate.
Qed.

(** X23. A listing site that answers makes the initiation fail: with
    a trade-in vehicle that has no cache entry younger than a day, as
    soon as one source reports an average price for it
    [initiate_negotiation] raises KeyError('listings_count'), and the
    session row it created before stays in the store, [initiated] and
    without a strategy. *)
Theorem answering_source_blocks_initiation env c vpk g m st cl v p ps :
  get_row (clients st) c = Some cl ->
  get_row (vehicles st) vpk = Some v ->
  (forall tpk, g = Some tpk -> is_Some (get_row (vehicles st) tpk)) ->
  db_fails env OpCreateNegotiation = false ->
  db_fails env OpSaveTargetVehicle = false ->
  (forall md, market_data st !! vehicle_key v = Some md ->
              (86400 <= now env - last_updated md)%Z) ->
  omap sd_average_price
    (succeeded_sources env (make v) (model v) (year v) (fuel_type v))
  = p :: ps ->
  initiate_negotiation env c (Some vpk) g m st
  = (with_new_session st
       (chosen_target st cl g (new_negotiation c (Some vpk) g)),
     inl (KeyError "listings_count"))
  /\ status (chosen_target st cl g (new_negotiation c (Some vpk) g)) = initiated
  /\ agent_reasoning (chosen_target st cl g (new_negotiation c (Some vpk) g))
     = JObj [].
Proof.
  intros Hcl Hv Hg Hcreate Hsave Hstale Hprices.
  set (chosen := chosen_target st cl g (new_negotiation c (Some vpk) g)).
  assert (Hchosen : trade_in_vehicle chosen = Some vpk
                    /\ status chosen = initiated
                    /\ agent_reasoning chosen = JObj []).
  { unfold chosen, chosen_target. destruct g as [[|k]|];
      try (now repeat split);
      now destruct (_find_suitable_vehicle st cl). }
  destruct Hchosen as (Htrade & Hst & Hreason).
  split; [| now split].
  unfold initiate_negotiation.
  erewrite bind_inr
    by (apply (objects_get_found "Client" clients); exact Hcl).
  erewrite bind_inr
    by (apply create_negotiation_ok; [intros ? [= <-]; eauto | exact Hg
                                     | exact Hcreate]).
  erewrite bind_inr by (apply choose_target_vehicle_ok; exact Hsave).
  fold chosen. apply bind_inl.
  unfold analyse_trade_in. rewrite Htrade.
  erewrite bind_inr
    by (apply (objects_get_found "Vehicle" vehicles); exact Hv).
  apply bind_inl.
  rewrite stale_cache_scrapes by exact Hstale.
  now apply scrape_market_data_with_source with p ps.
Qed.

(** X24. A listing site that answers makes the first round fail: on a
    session with rounds left and no offer yet, whose target vehicle
    has no cache entry younger than a day, as soon as one source
    reports an average price for that vehicle
    [execute_negotiation_round] raises KeyError('listings_count') and
    leaves the store as it was: no offer, no round record, the counter
    unchanged. *)
Theorem answering_source_blocks_first_round env pk fb st n vpk v p ps :
  get_row (negotiations st) pk = Some n ->
  (negotiation_rounds n < max_rounds n)%Z ->
  latest_offer st pk = None ->
  target_vehicle n = Some vpk ->
  get_row (vehicles st) vpk = Some v ->
  (forall md, market_data st !! vehicle_key v = Some md ->
              (86400 <= now env - last_updated md)%Z) ->
  omap sd_average_price
    (succeeded_sources env (make v) (model v) (year v) (fuel_type v))
  = p :: ps ->
  execute_negotiation_round env pk fb st
  = (st, inl (KeyError "listings_count")).
Proof.
  intros Hrow Hlt Hnone Htarget Hv Hstale Hprices.
  unfold execute_negotiation_round.
  erewrite bind_inr
    by (apply (objects_get_found "Negotiation" negotiations); exact Hrow).
  destruct (Z.leb_spec (max_rounds n) (negotiation_rounds n)); [lia |].
  apply bind_inl.
  unfold current_best_offer, bind at 1, read. rewrite Hnone.
  unfold _create_initial_offer.
  change (target_vehicle (next_round n)) with (target_vehicle n).
  rewrite Htarget.
  erewrite bind_inr
    by (apply (objects_get_found "Vehicle" vehicles); exact Hv).
  apply bind_inl.
  rewrite stale_cache_scrapes by exact Hstale.
  now apply scrape_market_data_with_source with p ps.
Qed.

End Orchestration.

(** * Runs on concrete inputs *)

(** ** The sample session is reachable *)

(** One initiation without network, two rounds of talk and a deal lead
    from the rows of [tests.py] to [Sample.concluded_store]. *)
Example sample_run_concludes :
  run plain_numeral Sample.store0
    [ (Sample.offline, Initiate 1 (Some 1%nat) (Some 2%nat) (15 # 100)%Q);
      (Sample.answering [Sample.purchase_offer; Sample.lease_offer] Sample.keep_talking,
       ExecuteRound 1 "Offre de reprise trop basse");
      (Sample.answering [] Sample.keep_talking,
       ExecuteRound 1 "Le prix me semble eleve");
      (Sample.answering [] Sample.deal, ExecuteRound 1 "Entendu") ]
  = Sample.concluded_store.
Proof. vm_compute. reflexivity. Qed.

Example sample_initiate_opens_session :
  step plain_numeral Sample.store0
    (Sample.offline, Initiate 1 (Some 1%nat) (Some 2%nat) (15 # 100)%Q)
  = Sample.open_session.
Proof. vm_compute. reflexivity. Qed.

(** Without a trade-in vehicle the strategy prompt cannot be formatted:
    the call raises and leaves the session at [initiated]. *)
Example sample_initiate_without_trade_in :
  initiate_negotiation plain_numeral Sample.offline 1 None (Some 2%nat) (15 # 100)%Q
    Sample.store0
  = (with_negotiations Sample.store0 [new_negotiation 1 None (Some 2%nat)],
     inl TypeError).
Proof. vm_compute. reflexivity. Qed.


(** ** C7: the fallback snapshot *)

(** Scenario B: the cached entry is 30 hours old and every source fails. *)
Lemma fallback_snapshot_when_no_source_witness :
  exists d lo hi,
    _get_or_scrape_market_data plain_numeral Sample.offline Sample.clio
      (Sample.cached_store 892000)
    = (Sample.cached_store 892000, inr d)
    /\ d !! "average_price" = Some (JNum 12000%Q)
    /\ d !! "min_price" = Some (JNum lo)
    /\ (lo == (9 # 10) * 12000)%Q
    /\ d !! "max_price" = Some (JNum hi)
    /\ (hi == (11 # 10) * 12000)%Q
    /\ d !! "listings_count" = Some (JNum 0%Q).
Proof.
  apply (fallback_snapshot_when_no_source plain_numeral Sample.offline
           Sample.clio (Sample.cached_store 892000));
    try reflexivity.
  intros md H. vm_compute in H. injection H as <-. vm_compute. discriminate.
Defined.

(** ** C10: the two key sets *)

Lemma market_data_keys_not_uniform_witness :
  ((exists md, _market_data_to_dict (Sample.clio_market 996400)
               = _market_data_to_dict md)
   \/ _market_data_to_dict (Sample.clio_market 996400)
      = fallback_market_data Sample.clio)
  /\ (forall md,
        _market_data_to_dict (Sample.clio_market 996400)
        = _market_data_to_dict md ->
        _market_data_to_dict (Sample.clio_market 996400) !! "price_min"
        = Some (JNum (price_min md))
        /\ _market_data_to_dict (Sample.clio_market 996400) !! "price_max"
           = Some (JNum (price_max md))
        /\ _market_data_to_dict (Sample.clio_market 996400) !! "min_price" = None
        /\ _market_data_to_dict (Sample.clio_market 996400) !! "max_price" = None)
  /\ (_market_data_to_dict (Sample.clio_market 996400)
      = fallback_market_data Sample.clio ->
      is_Some (_market_data_to_dict (Sample.clio_market 996400) !! "min_price")
      /\ is_Some (_market_data_to_dict (Sample.clio_market 996400) !! "max_price")
      /\ _market_data_to_dict (Sample.clio_market 996400) !! "price_min" = None
      /\ _market_data_to_dict (Sample.clio_market 996400) !! "price_max" = None).
Proof.
  apply (market_data_keys_not_uniform plain_numeral Sample.offline Sample.clio
           (Sample.cached_store 996400) (Sample.cached_store 996400)).
  vm_compute. reflexivity.
Defined.

(** The same vehicle, read through the cache and through the fallback:
    the bound a consumer finds under one key set is absent under the
    other. *)
Example market_data_paths_disagree :
  (exists d, _get_or_scrape_market_data plain_numeral Sample.offline Sample.clio
               (Sample.cached_store 996400)
             = (Sample.cached_store 996400, inr d)
             /\ d !! "price_min" = Some (JNum 10000%Q)
             /\ d !! "min_price" = None)
  /\ (exists d, _get_or_scrape_market_data plain_numeral Sample.offline Sample.clio
                  Sample.store0
                = (Sample.store0, inr d)
                /\ d !! "price_min" = None
                /\ d !! "min_price" = Some (JNum (12000 * (9 # 10))%Q)).
Proof.
  split; eexists; (split; [vm_compute; reflexivity |]); split; reflexivity.
Qed.

(** ** C8: the exhaustion guard *)

Lemma exhausted_round_is_noop_witness :
  execute_negotiation_round plain_numeral Sample.offline 1 "Encore un effort"
    (Sample.store_with (Sample.session 10 in_progress))
  = (Sample.store_with (Sample.session 10 in_progress), inr max_rounds_reached)
  /\ max_rounds_reached !! "status" = Some (JStr "max_rounds_reached")
  /\ forall env' fb',
       execute_negotiation_round plain_numeral env' 1 fb'
         (execute_negotiation_round plain_numeral Sample.offline 1
            "Encore un effort"
            (Sample.store_with (Sample.session 10 in_progress))).1
       = (Sample.store_with (Sample.session 10 in_progress),
          inr max_rounds_reached).
Proof.
  apply (exhausted_round_is_noop plain_numeral Sample.offline
           (Sample.store_with (Sample.session 10 in_progress)) 1
           "Encore un effort" (Sample.session 10 in_progress)).
  - reflexivity.
  - vm_compute. discriminate.
Defined.

(** ** C9: the first proposal wins *)

(** The lease proposal has the higher confidence (95 against 70) and
    comes second: the purchase proposal is the one created. *)
Lemma first_offer_is_consumed_witness :
  (exists vpk, target_vehicle (Sample.session 0 in_progress) = Some vpk
               /\ created_offer plain_numeral 1 (Sample.session 0 in_progress) vpk
                    Sample.purchase_offer
                  = inr Sample.purchase_row)
  /\ offers (with_offers Sample.open_session [Sample.purchase_row])
     = offers Sample.open_session ++ [Sample.purchase_row]
  /\ forall rest',
       _create_initial_offer plain_numeral
         (with_structure_offer
            (Sample.answering [] Sample.keep_talking)
            (fun _ _ _ _ _ => Sample.purchase_offer :: rest'))
         1 (Sample.session 0 in_progress) Sample.open_session
       = (with_offers Sample.open_session [Sample.purchase_row],
          inr Sample.purchase_row).
Proof.
  apply (first_offer_is_consumed plain_numeral
           (Sample.answering [] Sample.keep_talking) 1
           (Sample.session 0 in_progress) Sample.open_session
           Sample.purchase_offer [Sample.lease_offer]).
  vm_compute. reflexivity.
Defined.

Example first_offer_not_most_confident :
  _create_initial_offer plain_numeral
    (Sample.answering [Sample.purchase_offer; Sample.lease_offer] Sample.keep_talking)
    1 (Sample.session 0 in_progress) Sample.open_session
  = (with_offers Sample.open_session [Sample.purchase_row],
     inr Sample.purchase_row).
Proof. vm_compute. reflexivity. Qed.

(** ** C1: a round that fails half-way *)

(** The database refuses the final save: the round record is there,
    the session row still says round 0, and the caller gets the bare
    database error. *)
Lemma round_record_survives_failed_save :
  (execute_negotiation_round plain_numeral
     (Sample.save_refused [Sample.purchase_offer] Sample.keep_talking)
     1 "Offre de reprise trop basse" Sample.open_session).2
  = inl DatabaseError
  /\ rounds
       (execute_negotiation_round plain_numeral
          (Sample.save_refused [Sample.purchase_offer] Sample.keep_talking)
          1 "Offre de reprise trop basse" Sample.open_session).1
     = [Sample.talk_record 1 "Offre de reprise trop basse"]
  /\ negotiations
       (execute_negotiation_round plain_numeral
          (Sample.save_refused [Sample.purchase_offer] Sample.keep_talking)
          1 "Offre de reprise trop basse" Sample.open_session).1
     = [Sample.session 0 in_progress].
Proof. vm_compute. repeat split; reflexivity. Qed.

(** The same run: the record of round 1 is the one row added, and it
    stays. *)
Lemma failed_round_persistence_witness :
  negotiations
    (execute_negotiation_round plain_numeral
       (Sample.save_refused [Sample.purchase_offer] Sample.keep_talking)
       1 "Offre de reprise trop basse" Sample.open_session).1
  = negotiations Sample.open_session
  /\ rounds
       (execute_negotiation_round plain_numeral
          (Sample.save_refused [Sample.purchase_offer] Sample.keep_talking)
          1 "Offre de reprise trop basse" Sample.open_session).1
     = rounds Sample.open_session
       ++ [round_record 1 (next_round (Sample.session 0 in_progress))
             "Offre de reprise trop basse" Sample.keep_talking]
  /\ round_number
       (round_record 1 (next_round (Sample.session 0 in_progress))
          "Offre de reprise trop basse" Sample.keep_talking)
     = (negotiation_rounds (Sample.session 0 in_progress) + 1)%Z.
Proof.
  destruct (failed_round_persistence plain_numeral
              (Sample.save_refused [Sample.purchase_offer] Sample.keep_talking)
              1 "Offre de reprise trop basse" Sample.open_session
              (execute_negotiation_round plain_numeral
                 (Sample.save_refused [Sample.purchase_offer] Sample.keep_talking)
                 1 "Offre de reprise trop basse" Sample.open_session).1
              DatabaseError) as (Hn & Hrecord & _).
  { vm_compute. reflexivity. }
  split; [exact Hn |].
  destruct (Hrecord (Sample.session 0 in_progress) Sample.purchase_row
              Sample.keep_talking) as (Hr & Hnum & _).
  { split; [reflexivity |]. split; [reflexivity |].
    split; [eexists; vm_compute; reflexivity |].
    split; reflexivity. }
  split; [exact Hr | exact Hnum].
Defined.

(** ** C2: a round after the deal *)

(** Session 1 is concluded at round 3 of 10: one more call runs round 4. *)
Lemma concluded_session_runs_another_round :
  exists st' res n',
    execute_negotiation_round plain_numeral
      (Sample.answering [] Sample.keep_talking) 1 "Une derniere question"
      Sample.concluded_store
    = (st', inr res)
    /\ status Sample.concluded_session = concluded
    /\ get_row (negotiations Sample.concluded_store) 1
       = Some Sample.concluded_session
    /\ get_row (negotiations st') 1 = Some n'
    /\ negotiation_rounds Sample.concluded_session = 3%Z
    /\ negotiation_rounds n' = 4%Z
    /\ round_numbers Sample.concluded_store 1 = [1; 2; 3]%Z
    /\ round_numbers st' 1 = [1; 2; 3; 4]%Z
    /\ res !! "round_number" = Some (JNum 4%Q).
Proof.
  eexists _, _, _. split; [vm_compute; reflexivity |].
  vm_compute. repeat split; reflexivity.
Qed.

Lemma concluded_session_round_witness :
  ((max_rounds Sample.concluded_session
    <= negotiation_rounds Sample.concluded_session)%Z ->
   execute_negotiation_round plain_numeral
     (Sample.answering [] Sample.keep_talking) 1 "Une derniere question"
     Sample.concluded_store
   = (Sample.concluded_store, inr max_rounds_reached))
  /\ ((negotiation_rounds Sample.concluded_session
       < max_rounds Sample.concluded_session)%Z ->
      forall st' res,
        execute_negotiation_round plain_numeral
          (Sample.answering [] Sample.keep_talking) 1 "Une derniere question"
          Sample.concluded_store
        = (st', inr res) ->
        exists n',
          get_row (negotiations st') 1 = Some n'
          /\ negotiation_rounds n'
             = (negotiation_rounds Sample.concluded_session + 1)%Z
          /\ status n' = concluded
          /\ round_numbers st' 1
             = round_numbers Sample.concluded_store 1
               ++ [(negotiation_rounds Sample.concluded_session + 1)%Z]
          /\ res !! "status" = Some (JStr "concluded")).
Proof.
  apply (concluded_session_round plain_numeral
           (Sample.answering [] Sample.keep_talking) 1 "Une derniere question"
           Sample.concluded_store Sample.concluded_session);
    reflexivity.
Defined.

(** ** C4: concluding a deal *)



(** A price of 12.345 is stored as 12.34, and a price of 123456789 has
    eleven digits with its decimals: the save raises after the round
    record was written and the session stays at round 0. *)
Example price_is_adapted_to_its_column :
  (exists st' res n',
     execute_negotiation_round plain_numeral
       (Sample.answering [Sample.purchase_offer] Sample.deal_in_thousandths)
       1 "Entendu" Sample.open_session
     = (st', inr res)
     /\ get_row (negotiations st') 1 = Some n'
     /\ final_price n' = Some (617 # 50)%Q
     /\ (617 # 50 == 1234 # 100)%Q
     /\ ~ (617 # 50 == 12345 # 1000)%Q)
  /\ execute_negotiation_round plain_numeral
       (Sample.answering [Sample.purchase_offer] Sample.deal_too_large)
       1 "Entendu" Sample.open_session
     = (with_rounds (with_offers Sample.open_session [Sample.purchase_row])
          [Sample.deal_record 1 "Entendu"],
        inl InvalidOperation).
Proof.
  split; [| vm_compute; reflexivity].
  eexists _, _, _. split; [vm_compute; reflexivity |].
  split; [reflexivity |]. split; [vm_compute; reflexivity |].
  split; [reflexivity |].
  intros H. vm_compute in H. discriminate.
Qed.


(** ** C3: numbering of the rounds *)

(** The first round raises on a null final_price after its record was
    written; the second one goes through: both records carry number 1. *)
Lemma round_number_reused_after_failure :
  round_numbers
    (run plain_numeral Sample.store0
       [ (Sample.offline, Initiate 1 (Some 1%nat) (Some 2%nat) (15 # 100)%Q);
         (Sample.answering [Sample.purchase_offer] Sample.deal_without_price,
          ExecuteRound 1 "Entendu");
         (Sample.answering [] Sample.keep_talking,
          ExecuteRound 1 "Offre de reprise trop basse") ])
    1
  = [1; 1]%Z
  /\ ~ StronglySorted Z.lt [1; 1]%Z.
Proof.
  split; [vm_compute; reflexivity |].
  intros H. apply StronglySorted_cons in H as [H _].
  apply Forall_cons in H as [H _]. lia.
Qed.

Lemma round_counter_and_numbering_witness :
  (forall pk n,
     get_row
       (negotiations
          (run plain_numeral Sample.store0
             [ (Sample.offline, Initiate 1 (Some 1%nat) (Some 2%nat) (15 # 100)%Q);
               (Sample.answering [Sample.purchase_offer] Sample.keep_talking,
                ExecuteRound 1 "Offre de reprise trop basse");
               (Sample.answering [] Sample.deal, ExecuteRound 1 "Entendu") ]))
       pk = Some n ->
     (0 <= negotiation_rounds n <= max_rounds n)%Z)
  /\ (forall more,
        grows
          (run plain_numeral Sample.store0
             [ (Sample.offline, Initiate 1 (Some 1%nat) (Some 2%nat) (15 # 100)%Q);
               (Sample.answering [Sample.purchase_offer] Sample.keep_talking,
                ExecuteRound 1 "Offre de reprise trop basse");
               (Sample.answering [] Sample.deal, ExecuteRound 1 "Entendu") ])
          (run plain_numeral Sample.store0
             ([ (Sample.offline, Initiate 1 (Some 1%nat) (Some 2%nat) (15 # 100)%Q);
                (Sample.answering [Sample.purchase_offer] Sample.keep_talking,
                 ExecuteRound 1 "Offre de reprise trop basse");
                (Sample.answering [] Sample.deal, ExecuteRound 1 "Entendu") ]
              ++ more)))
  /\ (forall pk n,
        get_row
          (negotiations
             (run plain_numeral Sample.store0
                [ (Sample.offline, Initiate 1 (Some 1%nat) (Some 2%nat) (15 # 100)%Q);
                  (Sample.answering [Sample.purchase_offer] Sample.keep_talking,
                   ExecuteRound 1 "Offre de reprise trop basse");
                  (Sample.answering [] Sample.deal, ExecuteRound 1 "Entendu") ]))
          pk = Some n ->
        numbering_ok
          (round_numbers
             (run plain_numeral Sample.store0
                [ (Sample.offline, Initiate 1 (Some 1%nat) (Some 2%nat) (15 # 100)%Q);
                  (Sample.answering [Sample.purchase_offer] Sample.keep_talking,
                   ExecuteRound 1 "Offre de reprise trop basse");
                  (Sample.answering [] Sample.deal, ExecuteRound 1 "Entendu") ])
             pk)
          (negotiation_rounds n))
  /\ (clean_run plain_numeral Sample.store0
        [ (Sample.offline, Initiate 1 (Some 1%nat) (Some 2%nat) (15 # 100)%Q);
          (Sample.answering [Sample.purchase_offer] Sample.keep_talking,
           ExecuteRound 1 "Offre de reprise trop basse");
          (Sample.answering [] Sample.deal, ExecuteRound 1 "Entendu") ] ->
      forall pk n,
        get_row
          (negotiations
             (run plain_numeral Sample.store0
                [ (Sample.offline, Initiate 1 (Some 1%nat) (Some 2%nat) (15 # 100)%Q);
                  (Sample.answering [Sample.purchase_offer] Sample.keep_talking,
                   ExecuteRound 1 "Offre de reprise trop basse");
                  (Sample.answering [] Sample.deal, ExecuteRound 1 "Entendu") ]))
          pk = Some n ->
        round_numbers
          (run plain_numeral Sample.store0
             [ (Sample.offline, Initiate 1 (Some 1%nat) (Some 2%nat) (15 # 100)%Q);
               (Sample.answering [Sample.purchase_offer] Sample.keep_talking,
                ExecuteRound 1 "Offre de reprise trop basse");
               (Sample.answering [] Sample.deal, ExecuteRound 1 "Entendu") ])
          pk
        = seqZ 1 (negotiation_rounds n)).
Proof.
  apply (round_counter_and_numbering plain_numeral Sample.store0); reflexivity.
Defined.

(** The run of the witness is clean and ends at round 2 with the
    records 1 and 2. *)
Example sample_clean_run :
  clean_run plain_numeral Sample.store0
    [ (Sample.offline, Initiate 1 (Some 1%nat) (Some 2%nat) (15 # 100)%Q);
      (Sample.answering [Sample.purchase_offer] Sample.keep_talking,
       ExecuteRound 1 "Offre de reprise trop basse");
      (Sample.answering [] Sample.deal, ExecuteRound 1 "Entendu") ]
  /\ round_numbers
       (run plain_numeral Sample.store0
          [ (Sample.offline, Initiate 1 (Some 1%nat) (Some 2%nat) (15 # 100)%Q);
            (Sample.answering [Sample.purchase_offer] Sample.keep_talking,
             ExecuteRound 1 "Offre de reprise trop basse");
            (Sample.answering [] Sample.deal, ExecuteRound 1 "Entendu") ])
       1
     = [1; 2]%Z.
Proof.
  split; [| vm_compute; reflexivity].
  simpl. split; [exact I |]. split; [| split; [| exact I]];
    left; eexists; vm_compute; reflexivity.
Qed.

(** ** C5: the aggregate of two sources *)



(** On 100 and 200 nothing is rounded, and the average is the mean,
    150. *)
Example sample_average_is_exact :
  sums_exact 0%Q [100; 200]%Q
  /\ (Decimal_truediv (py_sum [100; 200]) (inject_Z (Z.of_nat 2))
      == Qsum [100; 200] / inject_Z (Z.of_nat 2))%Q.
Proof. vm_compute. repeat split; reflexivity. Qed.

(** Two sources at 66.66666666666666666666666667: the sum is rounded to
    133.3333333333333333333333333 and the average,
    66.66666666666666666666666665, lies below both prices and below
    min_price. *)
Example rounded_average_leaves_the_interval :
  exists agg a lo,
    res_aggregate
      (aggregate_market_data Sample.repeating_sources "Renault" "Clio" 2019
         "essence")
    = Some agg
    /\ agg !! "average_price" = Some (JNum a)
    /\ agg !! "min_price" = Some (JNum lo)
    /\ lo = Sample.repeating_price
    /\ a = (1333333333333333333333333333 # 20000000000000000000000000)%Q
    /\ (a < lo)%Q
    /\ ~ (a == Qsum [Sample.repeating_price; Sample.repeating_price]
                / inject_Z (Z.of_nat 2))%Q.
Proof.
  eexists _, _, _. split; [vm_compute; reflexivity |].
  split; [reflexivity |]. split; [reflexivity |]. split; [reflexivity |].
  split; [vm_compute; reflexivity |].
  split; [vm_compute; reflexivity |].
  intros H. vm_compute in H. discriminate.
Qed.

(** ** C6: the terms of a created offer *)



(** * Runs for the further properties *)

(** ** The market-data cache *)

(** The cached entry of the Clio is one hour old. *)
Lemma cache_entry_served_iff_fresh_witness :
  ((now Sample.offline - last_updated (Sample.clio_market 996400) < 86400)%Z ->
   _get_or_scrape_market_data plain_numeral Sample.offline Sample.clio
     (Sample.cached_store 996400)
   = (Sample.cached_store 996400,
      inr (_market_data_to_dict (Sample.clio_market 996400))))
  /\ ((86400 <= now Sample.offline - last_updated (Sample.clio_market 996400))%Z ->
      _get_or_scrape_market_data plain_numeral Sample.offline Sample.clio
        (Sample.cached_store 996400)
      = (Sample.cached_store 996400, inr (fallback_market_data Sample.clio))
      \/ _get_or_scrape_market_data plain_numeral Sample.offline Sample.clio
           (Sample.cached_store 996400)
         = (Sample.cached_store 996400, inl (KeyError "listings_count"))).
Proof.
  apply (cache_entry_served_iff_fresh plain_numeral Sample.offline Sample.clio
           (Sample.cached_store 996400) (Sample.clio_market 996400)).
  vm_compute. reflexivity.
Defined.

(** The cached entry is 30 hours old and two sites answer. *)
Lemma refresh_with_a_source_raises_witness :
  _get_or_scrape_market_data plain_numeral Sample.two_sources Sample.clio
    (Sample.cached_store 892000)
  = (Sample.cached_store 892000, inl (KeyError "listings_count")).
Proof.
  apply (refresh_with_a_source_raises plain_numeral Sample.two_sources
           Sample.clio (Sample.cached_store 892000) 100%Q [200%Q]).
  - intros md H. vm_compute in H. injection H as <-. vm_compute. discriminate.
  - vm_compute. reflexivity.
Defined.


(** ** The choice of a target vehicle *)

(** Jean's budget of 25000 to 40000 selects the Peugeot, vehicle 2. *)
Lemma suitable_vehicle_is_newest_match_witness :
  exists v,
    get_row (vehicles Sample.store0) 2 = Some v
    /\ in_stock v = true
    /\ (preferred_fuel Sample.jean <> EmptyString ->
        fuel_type v = preferred_fuel Sample.jean)
    /\ (preferred_transmission Sample.jean <> EmptyString ->
        transmission v = preferred_transmission Sample.jean)
    /\ (forall lo hi,
          budget_min Sample.jean = Some lo -> budget_max Sample.jean = Some hi ->
          ~ (lo == 0)%Q -> ~ (hi == 0)%Q ->
          (lo <= current_market_value v)%Q /\ (current_market_value v <= hi)%Q)
    /\ forall pk' v', 2 < pk' -> get_row (vehicles Sample.store0) pk' = Some v' ->
                      suits Sample.jean v' = false.
Proof.
  apply (suitable_vehicle_is_newest_match Sample.store0 Sample.jean 2).
  vm_compute. reflexivity.
Defined.

(** An upper bound of 20000 alone does not keep the Peugeot at 32000
    away. *)
Lemma one_sided_budget_is_ignored_witness :
  _find_suitable_vehicle Sample.store0 Sample.walk_in
  = _find_suitable_vehicle Sample.store0 (without_budget Sample.walk_in).
Proof.
  apply (one_sided_budget_is_ignored Sample.store0 Sample.walk_in).
  left. vm_compute. reflexivity.
Defined.

Example upper_bound_alone_is_ignored :
  _find_suitable_vehicle Sample.store0 Sample.walk_in = Some 2.
Proof. vm_compute. reflexivity. Qed.

(** ** Initiating a session *)

Lemma initiate_negotiation_outcome_witness :
  Sample.open_session
  = with_new_session Sample.store0 (Sample.session 0 in_progress)
  /\ 1 = S (length (negotiations Sample.store0))
  /\ get_row (negotiations Sample.open_session) 1
     = Some (Sample.session 0 in_progress)
  /\ status (Sample.session 0 in_progress) = in_progress
  /\ negotiation_rounds (Sample.session 0 in_progress) = 0%Z
  /\ max_rounds (Sample.session 0 in_progress) = 10%Z
  /\ client (Sample.session 0 in_progress) = 1
  /\ trade_in_vehicle (Sample.session 0 in_progress) = Some 1
  /\ final_price (Sample.session 0 in_progress) = None
  /\ margin_achieved (Sample.session 0 in_progress) = None
  /\ ended_at (Sample.session 0 in_progress) = None
  /\ (forall k, Some 2 = Some (S k) ->
        target_vehicle (Sample.session 0 in_progress) = Some 2)
  /\ (Some 2 = None ->
      exists cl, get_row (clients Sample.store0) 1 = Some cl
                 /\ target_vehicle (Sample.session 0 in_progress)
                    = _find_suitable_vehicle Sample.store0 cl).
Proof.
  apply (initiate_negotiation_outcome plain_numeral Sample.offline 1
           (Some 1) (Some 2) (15 # 100)%Q Sample.store0 Sample.open_session
           (inr (1, Sample.session 0 in_progress))).
  vm_compute. reflexivity.
Defined.

Lemma initiate_needs_trade_in_witness :
  initiate_negotiation plain_numeral Sample.offline 1 None (Some 2)
    (15 # 100)%Q Sample.store0
  = (with_new_session Sample.store0
       (chosen_target Sample.store0 Sample.jean (Some 2)
          (new_negotiation 1 None (Some 2))),
     inl TypeError).
Proof.
  apply (proj2 (initiate_needs_trade_in plain_numeral Sample.offline 1
                  (Some 2) (15 # 100)%Q Sample.store0) Sample.jean).
  - reflexivity.
  - intros vpk [= <-]. vm_compute. eexists. reflexivity.
  - reflexivity.
  - reflexivity.
Defined.

(** ** Offers of a session *)

Lemma initial_offer_all_or_nothing_witness :
  with_offers Sample.open_session
    (offers Sample.open_session ++ [Sample.purchase_row])
  = with_offers Sample.open_session
      (offers Sample.open_session ++ [Sample.purchase_row])
  /\ o_negotiation Sample.purchase_row = 1
  /\ is_Some (target_vehicle (Sample.session 0 in_progress))
  /\ o_vehicle Sample.purchase_row
     = target_vehicle (Sample.session 0 in_progress).
Proof.
  apply (initial_offer_all_or_nothing plain_numeral Sample.first_round 1
           (Sample.session 0 in_progress) Sample.open_session
           (with_offers Sample.open_session
              (offers Sample.open_session ++ [Sample.purchase_row]))
           (inr Sample.purchase_row)).
  vm_compute. reflexivity.
Defined.

(** Without network nor API key the generator proposes nothing. *)
Lemma no_usable_proposal_no_offer_witness :
  (_create_initial_offer plain_numeral Sample.offline 1
     (Sample.session 0 in_progress) Sample.open_session).1
  = Sample.open_session
  /\ exists e,
       (_create_initial_offer plain_numeral Sample.offline 1
          (Sample.session 0 in_progress) Sample.open_session).2
       = inl e.
Proof.
  apply (no_usable_proposal_no_offer plain_numeral Sample.offline 1
           (Sample.session 0 in_progress) Sample.open_session).
  - intros v tv kinds budget objectives. simpl. exact I.
  - vm_compute. reflexivity.
Defined.

Lemma created_offer_becomes_current_witness :
  latest_offer
    (_create_initial_offer plain_numeral Sample.first_round 1
       (Sample.session 0 in_progress) Sample.open_session).1 1
  = Some Sample.purchase_row
  /\ (forall pk', pk' <> 1 ->
        latest_offer
          (_create_initial_offer plain_numeral Sample.first_round 1
             (Sample.session 0 in_progress) Sample.open_session).1 pk'
        = latest_offer Sample.open_session pk')
  /\ forall env' n',
       current_best_offer plain_numeral env' 1 n'
         (_create_initial_offer plain_numeral Sample.first_round 1
            (Sample.session 0 in_progress) Sample.open_session).1
       = ((_create_initial_offer plain_numeral Sample.first_round 1
             (Sample.session 0 in_progress) Sample.open_session).1,
          inr Sample.purchase_row).
Proof.
  apply (created_offer_becomes_current plain_numeral Sample.first_round 1
           (Sample.session 0 in_progress) Sample.open_session).
  vm_compute. reflexivity.
Defined.

(** ** What the calls leave alone *)

Lemma execute_round_footprint_witness :
  clients
    (execute_negotiation_round plain_numeral Sample.first_round 1
       "Offre de reprise trop basse" Sample.open_session).1
  = clients Sample.open_session
  /\ vehicles
       (execute_negotiation_round plain_numeral Sample.first_round 1
          "Offre de reprise trop basse" Sample.open_session).1
     = vehicles Sample.open_session
  /\ market_data
       (execute_negotiation_round plain_numeral Sample.first_round 1
          "Offre de reprise trop basse" Sample.open_session).1
     = market_data Sample.open_session
  /\ length
       (negotiations
          (execute_negotiation_round plain_numeral Sample.first_round 1
             "Offre de reprise trop basse" Sample.open_session).1)
     = length (negotiations Sample.open_session)
  /\ (forall pk', pk' <> 1 ->
        get_row
          (negotiations
             (execute_negotiation_round plain_numeral Sample.first_round 1
                "Offre de reprise trop basse" Sample.open_session).1) pk'
        = get_row (negotiations Sample.open_session) pk')
  /\ (offers
        (execute_negotiation_round plain_numeral Sample.first_round 1
           "Offre de reprise trop basse" Sample.open_session).1
      = offers Sample.open_session
      \/ exists o,
           o_negotiation o = 1
           /\ offers
                (execute_negotiation_round plain_numeral Sample.first_round 1
                   "Offre de reprise trop basse" Sample.open_session).1
              = offers Sample.open_session ++ [o])
  /\ (rounds
        (execute_negotiation_round plain_numeral Sample.first_round 1
           "Offre de reprise trop basse" Sample.open_session).1
      = rounds Sample.open_session
      \/ exists rec,
           r_negotiation rec = 1
           /\ rounds
                (execute_negotiation_round plain_numeral Sample.first_round 1
                   "Offre de reprise trop basse" Sample.open_session).1
              = rounds Sample.open_session ++ [rec]).
Proof.
  apply (execute_round_footprint plain_numeral Sample.first_round 1
           "Offre de reprise trop basse" Sample.open_session _
           (execute_negotiation_round plain_numeral Sample.first_round 1
              "Offre de reprise trop basse" Sample.open_session).2).
  vm_compute. reflexivity.
Defined.

Lemma one_offer_per_session_witness :
  (forall pk,
     length
       (session_offers
          (run plain_numeral Sample.store0
             [ (Sample.offline, Initiate 1 (Some 1%nat) (Some 2%nat) (15 # 100)%Q);
               (Sample.first_round, ExecuteRound 1 "Offre de reprise trop basse");
               (Sample.answering [Sample.lease_offer] Sample.deal,
                ExecuteRound 1 "Entendu") ]) pk)
     <= 1)
  /\ (forall pk o,
        latest_offer Sample.store0 pk = Some o ->
        latest_offer
          (run plain_numeral Sample.store0
             [ (Sample.offline, Initiate 1 (Some 1%nat) (Some 2%nat) (15 # 100)%Q);
               (Sample.first_round, ExecuteRound 1 "Offre de reprise trop basse");
               (Sample.answering [Sample.lease_offer] Sample.deal,
                ExecuteRound 1 "Entendu") ]) pk
        = Some o).
Proof.
  destruct (one_offer_per_session plain_numeral Sample.store0
              [ (Sample.offline, Initiate 1 (Some 1%nat) (Some 2%nat) (15 # 100)%Q);
                (Sample.first_round, ExecuteRound 1 "Offre de reprise trop basse");
                (Sample.answering [Sample.lease_offer] Sample.deal,
                 ExecuteRound 1 "Entendu") ]) as [H1 H2].
  split; [apply H1; intros pk; simpl; lia | exact H2].
Defined.

(** The deal of the sample run was made on the first proposal: the
    lease proposed at the second round never became an offer. *)
Example sample_offer_is_never_revised :
  offers (run plain_numeral Sample.store0 
    [ (Sample.offline, Initiate 1 (Some 1%nat) (Some 2%nat) (15 # 100)%Q);
      (Sample.first_round, ExecuteRound 1 "Offre de reprise trop basse");
      (Sample.answering [Sample.lease_offer] Sample.deal,
       ExecuteRound 1 "Entendu") ])
  = [Sample.purchase_row].
Proof. vm_compute. reflexivity. Qed.

Lemma sessions_stay_as_written_witness :
  (forall pk n,
     get_row
       (negotiations
          (run plain_numeral Sample.open_session
             [(Sample.answering [Sample.purchase_offer] Sample.deal,
               ExecuteRound 1 "Entendu")])) pk = Some n ->
     engine_session n)
  /\ (forall o,
        o ∈ offers
              (run plain_numeral Sample.open_session
                 [(Sample.answering [Sample.purchase_offer] Sample.deal,
                   ExecuteRound 1 "Entendu")]) ->
        o ∈ offers Sample.open_session \/ trade_in_value o = 0%Q)
  /\ (forall r,
        r ∈ rounds
              (run plain_numeral Sample.open_session
                 [(Sample.answering [Sample.purchase_offer] Sample.deal,
                   ExecuteRound 1 "Entendu")]) ->
        r ∈ rounds Sample.open_session \/ round_status r = "ongoing").
Proof.
  apply (sessions_stay_as_written plain_numeral Sample.open_session).
  intros [|[|pk]] n H; [discriminate H | | destruct pk; discriminate H].
  injection H as <-. vm_compute. repeat split.
Defined.

(** ** What a round reports *)

Lemma round_report_matches_store_witness :
  exists n' rec,
    get_row
      (negotiations
         (execute_negotiation_round plain_numeral Sample.first_round 1
            "Offre de reprise trop basse" Sample.open_session).1) 1
    = Some n'
    /\ rounds
         (execute_negotiation_round plain_numeral Sample.first_round 1
            "Offre de reprise trop basse" Sample.open_session).1
       = rounds Sample.open_session ++ [rec]
    /\ r_negotiation rec = 1
    /\ round_number rec
       = (negotiation_rounds (Sample.session 0 in_progress) + 1)%Z
    /\ client_feedback rec = "Offre de reprise trop basse"
    /\ round_status rec = "ongoing"
    /\ negotiation_rounds n'
       = (negotiation_rounds (Sample.session 0 in_progress) + 1)%Z
    /\ round_response (next_round (Sample.session 0 in_progress))
         Sample.keep_talking !! "round_number"
       = Some (JInt (negotiation_rounds n'))
    /\ round_response (next_round (Sample.session 0 in_progress))
         Sample.keep_talking !! "status"
       = Some (JStr (status_value (status n')))
    /\ round_response (next_round (Sample.session 0 in_progress))
         Sample.keep_talking !! "proposed_offer"
       = Some (agent_proposal rec)
    /\ ((round_response (next_round (Sample.session 0 in_progress))
           Sample.keep_talking !! "should_continue" = Some (JBool true)
         /\ n' = next_round (Sample.session 0 in_progress))
        \/ (round_response (next_round (Sample.session 0 in_progress))
              Sample.keep_talking !! "should_continue" = Some (JBool false)
            /\ status n' = concluded
            /\ ended_at n' = Some (now Sample.first_round)
            /\ is_Some (final_price n') /\ is_Some (margin_achieved n'))).
Proof.
  apply (round_report_matches_store plain_numeral Sample.first_round 1
           "Offre de reprise trop basse" Sample.open_session
           (Sample.session 0 in_progress)).
  - reflexivity.
  - vm_compute. reflexivity.
  - vm_compute. reflexivity.
Defined.

(** Round 10 of 10, then one more call. *)
Lemma last_round_exhausts_witness :
  execute_negotiation_round plain_numeral Sample.offline 1 "Encore"
    (execute_negotiation_round plain_numeral Sample.first_round 1
       "Derniere offre" Sample.last_round_store).1
  = ((execute_negotiation_round plain_numeral Sample.first_round 1
        "Derniere offre" Sample.last_round_store).1,
     inr max_rounds_reached).
Proof.
  apply (last_round_exhausts plain_numeral Sample.first_round 1
           "Derniere offre" Sample.last_round_store
           (Sample.session 9 in_progress) _
           (round_response (next_round (Sample.session 9 in_progress))
              Sample.keep_talking)).
  - reflexivity.
  - vm_compute. reflexivity.
  - vm_compute. reflexivity.
Defined.

(** ** Agents without a client *)

(** The braces of a reply, prose around them left out. *)
Example sample_json_span :
  json_span "{" "}" "Voici ma proposition : {offers: [{}, {}]} Cordialement"
  = Some "{offers: [{}, {}]}"
  /\ json_span "[" "]" "Voici ma proposition : {offers: [{}, {}]} Cordialement"
     = Some "[{}, {}]"
  /\ json_span "{" "}" "} rien {" = None.
Proof. repeat split; vm_compute; reflexivity. Qed.

Example offline_agents_have_no_client :
  agents_without_client Sample.undecoded Sample.offline.
Proof.
  split.
  - intros v tv kinds budget objectives.
    exists EmptyString, EmptyString, []. vm_compute. reflexivity.
  - intros o fb k m.
    exists EmptyString, EmptyString, [],
      [("raw_result", JStr Sample.mock_text)].
    split; vm_compute; reflexivity.
Qed.

Lemma round_without_client_witness :
  offers
    (execute_negotiation_round plain_numeral Sample.offline 1 "Bonjour"
       Sample.open_session).1
  = offers Sample.open_session
  /\ (latest_offer Sample.open_session 1 = None ->
      (execute_negotiation_round plain_numeral Sample.offline 1 "Bonjour"
         Sample.open_session).1
      = Sample.open_session
      /\ ((execute_negotiation_round plain_numeral Sample.offline 1 "Bonjour"
             Sample.open_session).2
          = inr max_rounds_reached
          \/ exists e,
               (execute_negotiation_round plain_numeral Sample.offline 1
                  "Bonjour" Sample.open_session).2
               = inl e))
  /\ (forall res,
        (execute_negotiation_round plain_numeral Sample.offline 1 "Bonjour"
           Sample.open_session).2
        = inr res ->
        res = max_rounds_reached
        \/ (res !! "should_continue" = Some (JBool true)
            /\ exists n,
                 get_row (negotiations Sample.open_session) 1 = Some n
                 /\ get_row
                      (negotiations
                         (execute_negotiation_round plain_numeral
                            Sample.offline 1 "Bonjour" Sample.open_session).1)
                      1
                    = Some (next_round n))).
Proof.
  apply (round_without_client plain_numeral Sample.undecoded Sample.offline 1
           "Bonjour" Sample.open_session).
  - exact offline_agents_have_no_client.
  - vm_compute. reflexivity.
Defined.

Lemma no_client_no_deal_witness :
  offers (run plain_numeral Sample.store0 
    [ (Sample.offline, Initiate 1 (Some 1%nat) (Some 2%nat) (15 # 100)%Q);
      (Sample.offline, ExecuteRound 1 "Bonjour") ])
  = offers Sample.store0
  /\ (forall pk n',
        get_row
          (negotiations (run plain_numeral Sample.store0 
    [ (Sample.offline, Initiate 1 (Some 1%nat) (Some 2%nat) (15 # 100)%Q);
      (Sample.offline, ExecuteRound 1 "Bonjour") ]))
          pk = Some n' ->
        status n' = concluded ->
        exists n, get_row (negotiations Sample.store0) pk = Some n
                  /\ status n = concluded)
  /\ (offers Sample.store0 = [] ->
      rounds (run plain_numeral Sample.store0 
    [ (Sample.offline, Initiate 1 (Some 1%nat) (Some 2%nat) (15 # 100)%Q);
      (Sample.offline, ExecuteRound 1 "Bonjour") ])
      = rounds Sample.store0
      /\ forall pk n,
           get_row (negotiations Sample.store0) pk = Some n ->
           get_row
             (negotiations
                (run plain_numeral Sample.store0 
    [ (Sample.offline, Initiate 1 (Some 1%nat) (Some 2%nat) (15 # 100)%Q);
      (Sample.offline, ExecuteRound 1 "Bonjour") ])) pk
           = Some n).
Proof.
  apply (no_client_no_deal plain_numeral Sample.undecoded Sample.store0
           
    [ (Sample.offline, Initiate 1 (Some 1%nat) (Some 2%nat) (15 # 100)%Q);
      (Sample.offline, ExecuteRound 1 "Bonjour") ]).
  constructor; [exact offline_agents_have_no_client |].
  constructor; [exact offline_agents_have_no_client | constructor].
Defined.

(** The session is opened and stays at round 0. *)
Example offline_run_opens_a_session_only :
  run plain_numeral Sample.store0 
    [ (Sample.offline, Initiate 1 (Some 1%nat) (Some 2%nat) (15 # 100)%Q);
      (Sample.offline, ExecuteRound 1 "Bonjour") ] = Sample.open_session.
Proof. vm_compute. reflexivity. Qed.

(** ** When a listing site answers *)

Lemma answering_source_blocks_initiation_witness :
  initiate_negotiation plain_numeral Sample.two_sources 1 (Some 1) (Some 2)
    (15 # 100)%Q Sample.store0
  = (with_new_session Sample.store0
       (chosen_target Sample.store0 Sample.jean (Some 2)
          (new_negotiation 1 (Some 1) (Some 2))),
     inl (KeyError "listings_count"))
  /\ status
       (chosen_target Sample.store0 Sample.jean (Some 2)
          (new_negotiation 1 (Some 1) (Some 2)))
     = initiated
  /\ agent_reasoning
       (chosen_target Sample.store0 Sample.jean (Some 2)
          (new_negotiation 1 (Some 1) (Some 2)))
     = JObj [].
Proof.
  apply (answering_source_blocks_initiation plain_numeral Sample.two_sources
           1 1 (Some 2) (15 # 100)%Q Sample.store0 Sample.jean Sample.clio
           100%Q [200%Q]).
  - reflexivity.
  - reflexivity.
  - intros tpk [= <-]. vm_compute. eexists. reflexivity.
  - reflexivity.
  - reflexivity.
  - intros md H. vm_compute in H. discriminate H.
  - vm_compute. reflexivity.
Defined.

Lemma answering_source_blocks_first_round_witness :
  execute_negotiation_round plain_numeral Sample.two_sources 1 "Bonjour"
    Sample.open_session
  = (Sample.open_session, inl (KeyError "listings_count")).
Proof.
  apply (answering_source_blocks_first_round plain_numeral Sample.two_sources
           1 "Bonjour" Sample.open_session (Sample.session 0 in_progress) 2
           Sample.peugeot 100%Q [200%Q]).
  - reflexivity.
  - vm_compute. reflexivity.
  - reflexivity.
  - reflexivity.
  - reflexivity.
  - intros md H. vm_compute in H. discriminate H.
  - vm_compute. reflexivity.
Defined.
